(** * Attendance backend: matching policy, directory cache, task ledger,
      queue relay and websocket fan-out.

    Shallow embedding of [backend/face_utils.py], [backend/app/dependencies.py]
    and [backend/app/utils/websocket.py].  Python exceptions are values of
    [result]; module-level mutable objects (the registry, the ledger, the
    manager queues, the employee cache) are fields of explicit state records
    threaded through the functions that mutate them. *)

From Stdlib Require Import QArith Qabs Lqa.
From stdpp Require Import base option list strings gmap pretty.

Open Scope string_scope.
Open Scope list_scope.

(** ** Python exceptions and fallible computations *)

(** [PyException cls msg] is an instance of a subclass of [Exception];
    [PyBaseException cls msg] is an instance of a class that derives from
    [BaseException] only, such as [KeyboardInterrupt], [SystemExit] or
    [asyncio.CancelledError], and is therefore not caught by
    [except Exception]. *)
Inductive pyexn :=
  | PyException (cls msg : string)
  | PyBaseException (cls msg : string).

(** [asyncio.CancelledError()] *)
Definition PyCancelled : pyexn := PyBaseException "CancelledError" "".

(** [str(e)] *)
Definition exn_str (e : pyexn) : string :=
  match e with
  | PyException _ msg => msg
  | PyBaseException _ msg => msg
  end.

(** [isinstance(e, Exception)] *)
Definition is_Exception (e : pyexn) : bool :=
  match e with
  | PyException _ _ => true
  | PyBaseException _ _ => false
  end.

Inductive result (A : Type) :=
  | Ok (a : A)
  | Raise (e : pyexn).
Arguments Ok {A} a.
Arguments Raise {A} e.

Definition rbind {A B} (m : result A) (k : A → result B) : result B :=
  match m with
  | Ok a => k a
  | Raise e => Raise e
  end.

Notation "x ←! m ; k" := (rbind m (λ x, k))
  (at level 100, m at next level, k at level 200, right associativity).

(** ** Python floats

    Similarity scores and thresholds are IEEE doubles.  Only their comparisons
    matter to the matching policy: a float is a rational, an infinity, or
    NaN, and every comparison with NaN is false. *)
Module PyFloat.

Inductive t :=
  | NaN
  | NegInf
  | Fin (q : Q)
  | PosInf.

Definition Qltb (p q : Q) : bool := negb (Qle_bool q p).

(** [a < b] *)
Definition ltb (a b : t) : bool :=
  match a, b with
  | NaN, _ | _, NaN => false
  | _, NegInf => false
  | NegInf, _ => true
  | PosInf, _ => false
  | Fin _, PosInf => true
  | Fin p, Fin q => Qltb p q
  end.

(** [a <= b] *)
Definition leb (a b : t) : bool :=
  match a, b with
  | NaN, _ | _, NaN => false
  | NegInf, _ => true
  | _, NegInf => false
  | _, PosInf => true
  | PosInf, _ => false
  | Fin p, Fin q => Qle_bool p q
  end.

(** [a > b] and [a >= b] *)
Definition gtb (a b : t) : bool := ltb b a.
Definition geb (a b : t) : bool := leb b a.

Definition is_nan (a : t) : bool :=
  match a with NaN => true | _ => false end.

(** The literals [0.0] and [0.5]. *)
Definition zero : t := Fin 0.
Definition half : t := Fin (1 # 2).

End PyFloat.

(** ** face_utils.py: the matching policy *)
Module FaceUtils.

Section Matching.

(** numpy arrays and the three numpy operations of [compare_faces];
    [None] is a raised exception (a shape mismatch, for instance).
    Dividing by a zero norm does not raise in numpy: it yields NaN
    entries, so [np_dot] may return [PyFloat.NaN]. *)
Context {ndarray : Type}.
Variable np_linalg_norm : ndarray → option PyFloat.t.
Variable np_divide : ndarray → PyFloat.t → option ndarray.
Variable np_dot : ndarray → ndarray → option PyFloat.t.
(** [np.array(json.loads(s))] *)
Variable json_loads_array : string → result ndarray.

(** Rows of the reference population ([user.embedding] is the stored
    JSON string) and bounding boxes. *)
Context {User BBox : Type}.
Variable user_embedding : User → string.

(** [__init__]: [self.threshold = 0.5] *)
Definition self_threshold : PyFloat.t := PyFloat.half.

(** [compare_faces]: 0.0 for a missing embedding, 0.0 when numpy
    raises, the dot product of the normalised vectors otherwise. *)
Definition compare_faces (embedding1 embedding2 : option ndarray)
  : PyFloat.t :=
  match embedding1, embedding2 with
  | None, _ | _, None => PyFloat.zero
  | Some e1, Some e2 =>
      let attempt :=
        n1 ← np_linalg_norm e1;
        embedding1_norm ← np_divide e1 n1;
        n2 ← np_linalg_norm e2;
        embedding2_norm ← np_divide e2 n2;
        np_dot embedding1_norm embedding2_norm in
      match attempt with
      | Some similarity => similarity
      | None => PyFloat.zero
      end
  end.

(** [str_to_embedding]: logs and re-raises. *)
Definition str_to_embedding (embedding_str : string) : result ndarray :=
  json_loads_array embedding_str.

Record match_result := MatchResult {
  m_user : User;
  m_similarity : PyFloat.t;
  m_bbox : BBox
}.

(** The inner [for user in users] loop, threading
    [(best_match, best_similarity)]. *)
Fixpoint scan_users (query_embedding : option ndarray) (users : list User)
    (best_match : option User) (best_similarity : PyFloat.t)
  : result (option User * PyFloat.t) :=
  match users with
  | [] => Ok (best_match, best_similarity)
  | user :: rest =>
      stored_embedding ←! str_to_embedding (user_embedding user);
      let similarity :=
        compare_faces query_embedding (Some stored_embedding) in
      if PyFloat.gtb similarity best_similarity
      then scan_users query_embedding rest (Some user) similarity
      else scan_users query_embedding rest best_match best_similarity
  end.

(** The outer [for query_embedding, bbox in query_embeddings] loop,
    threading [matches].  A row object is truthy, so [and best_match]
    tests that a candidate was recorded. *)
Fixpoint match_faces (threshold : PyFloat.t)
    (query_embeddings : list (option ndarray * BBox)) (users : list User)
    (matches : list match_result) : result (list match_result) :=
  match query_embeddings with
  | [] => Ok matches
  | (query_embedding, bbox) :: rest =>
      st ←! scan_users query_embedding users None PyFloat.zero;
      let '(best_match, best_similarity) := st in
      match best_match with
      | Some user =>
          if PyFloat.geb best_similarity threshold
          then match_faces threshold rest users
                 (matches ++ [MatchResult user best_similarity bbox])
          else match_faces threshold rest users matches
      | None => match_faces threshold rest users matches
      end
  end.

Definition find_matches_for_embeddings
    (query_embeddings : list (option ndarray * BBox)) (users : list User)
    (threshold : option PyFloat.t) : result (list match_result) :=
  let threshold := default self_threshold threshold in
  match_faces threshold query_embeddings users [].

(** *** Specification vocabulary *)

(** The similarity the loop computes for one face and one candidate. *)
Definition similarity (q : option ndarray) (u : User) : result PyFloat.t :=
  stored ←! str_to_embedding (user_embedding u);
  Ok (compare_faces q (Some stored)).

(** [u] is the first candidate of [users] whose similarity [s] no other
    candidate exceeds: earlier candidates do not reach [s], later ones
    do not exceed it. *)
Definition first_best (q : option ndarray) (users : list User)
    (u : User) (s : PyFloat.t) : Prop :=
  ∃ l1 l2, users = l1 ++ u :: l2 ∧
    similarity q u = Ok s ∧
    (∀ v, v ∈ l1 → ∃ sv, similarity q v = Ok sv ∧ PyFloat.geb sv s = false) ∧
    (∀ v, v ∈ l2 → ∃ sv, similarity q v = Ok sv ∧ PyFloat.gtb sv s = false).

(** No candidate has a strictly positive similarity. *)
Definition none_positive (q : option ndarray) (users : list User) : Prop :=
  ∀ v, v ∈ users →
    ∃ sv, similarity q v = Ok sv ∧ PyFloat.gtb sv PyFloat.zero = false.

(** A face qualifies when its best candidate has a strictly positive
    similarity that reaches the threshold. *)
Definition qualifies (threshold : PyFloat.t) (users : list User)
    (face : option ndarray * BBox) : Prop :=
  ∃ u s, first_best face.1 users u s ∧
         PyFloat.gtb s PyFloat.zero = true ∧
         PyFloat.geb s threshold = true.

(** What one face contributes to the result list: its first best
    candidate when it qualifies, nothing otherwise. *)
Definition face_outcome (threshold : PyFloat.t) (users : list User)
    (face : option ndarray * BBox) (r : option match_result) : Prop :=
  match r with
  | Some m =>
      m_bbox m = face.2 ∧
      first_best face.1 users (m_user m) (m_similarity m) ∧
      PyFloat.gtb (m_similarity m) PyFloat.zero = true ∧
      PyFloat.geb (m_similarity m) threshold = true
  | None => ¬ qualifies threshold users face
  end.

(** The outcome as the specification words it: a result exactly when the
    best similarity reaches the threshold, whatever its sign. *)
Definition face_outcome_as_specified (threshold : PyFloat.t)
    (users : list User) (face : option ndarray * BBox)
    (r : option match_result) : Prop :=
  match r with
  | Some m =>
      m_bbox m = face.2 ∧
      first_best face.1 users (m_user m) (m_similarity m) ∧
      PyFloat.geb (m_similarity m) threshold = true
  | None =>
      ∀ u s, first_best face.1 users u s →
             PyFloat.geb s threshold = false
  end.

(** What the inner loop knows after the candidates [seen]. *)
Definition tracked (q : option ndarray) (seen : list User)
    (best_match : option User) (best_similarity : PyFloat.t) : Prop :=
  PyFloat.geb best_similarity PyFloat.zero = true ∧
  (∀ v, v ∈ seen →
     ∃ sv, similarity q v = Ok sv ∧ PyFloat.gtb sv best_similarity = false) ∧
  match best_match with
  | None => best_similarity = PyFloat.zero
  | Some u =>
      PyFloat.gtb best_similarity PyFloat.zero = true ∧
      ∃ l1 l2, seen = l1 ++ u :: l2 ∧
        similarity q u = Ok best_similarity ∧
        (∀ v, v ∈ l1 →
           ∃ sv, similarity q v = Ok sv ∧
                 PyFloat.geb sv best_similarity = false)
  end.

(** Every stored embedding parses. *)
Definition all_decode (users : list User) : Prop :=
  ∀ u, u ∈ users → ∃ a, str_to_embedding (user_embedding u) = Ok a.

(** *** [find_match], the single-face matcher *)

(** The [for stored_embedding in stored_embeddings] loop.  A stored
    embedding may be [None]; [best_match] holds whatever element won. *)
Fixpoint scan_embeddings (query_embedding : option ndarray)
    (stored_embeddings : list (option ndarray))
    (best_match : option ndarray) (best_similarity : PyFloat.t)
  : option ndarray * PyFloat.t :=
  match stored_embeddings with
  | [] => (best_match, best_similarity)
  | stored_embedding :: rest =>
      let similarity := compare_faces query_embedding stored_embedding in
      if PyFloat.gtb similarity best_similarity
      then scan_embeddings query_embedding rest stored_embedding similarity
      else scan_embeddings query_embedding rest best_match best_similarity
  end.

Definition find_match (query_embedding : option ndarray)
    (stored_embeddings : list (option ndarray))
    (threshold : option PyFloat.t) : option ndarray * PyFloat.t :=
  let threshold := default self_threshold threshold in
  let '(best_match, best_similarity) :=
    scan_embeddings query_embedding stored_embeddings None PyFloat.zero in
  if PyFloat.geb best_similarity threshold
  then (best_match, best_similarity)
  else (None, best_similarity).

(** [a] is the first stored embedding whose similarity [s] no other stored
    embedding exceeds. *)
Definition first_best_stored (q : option ndarray)
    (stored : list (option ndarray)) (a : ndarray) (s : PyFloat.t) : Prop :=
  ∃ l1 l2, stored = l1 ++ Some a :: l2 ∧
    compare_faces q (Some a) = s ∧
    (∀ e, e ∈ l1 → PyFloat.geb (compare_faces q e) s = false) ∧
    (∀ e, e ∈ l2 → PyFloat.gtb (compare_faces q e) s = false).

(** What the loop of [find_match] knows after the embeddings [seen]. *)
Definition tracked_stored (q : option ndarray) (seen : list (option ndarray))
    (best_match : option ndarray) (best_similarity : PyFloat.t) : Prop :=
  PyFloat.geb best_similarity PyFloat.zero = true ∧
  (∀ e, e ∈ seen → PyFloat.gtb (compare_faces q e) best_similarity = false) ∧
  match best_match with
  | None => best_similarity = PyFloat.zero
  | Some a =>
      PyFloat.gtb best_similarity PyFloat.zero = true ∧
      ∃ l1 l2, seen = l1 ++ Some a :: l2 ∧
        compare_faces q (Some a) = best_similarity ∧
        (∀ e, e ∈ l1 → PyFloat.geb (compare_faces q e) best_similarity = false)
  end.

(** The two scans, of rows and of their parsed embeddings, in step. *)
Definition same_best (best_user : option User) (best_stored : option ndarray)
  : Prop :=
  match best_user, best_stored with
  | Some u, Some a => str_to_embedding (user_embedding u) = Ok a
  | None, None => True
  | _, _ => False
  end.

End Matching.

(** *** Detection: [get_embeddings] and [get_embedding] *)
Section Detection.

(** [self.app.get(image)], which may raise ([None]), and the two
    attributes read off a detected face. *)
Context {Image Face ndarray BBox : Type}.
Variable app_get : Image → option (list Face).
Variable face_embedding : Face → option ndarray.
Variable face_bbox : Face → BBox.

Definition get_embeddings (image : Image) : list (option ndarray * BBox) :=
  match app_get image with
  | Some [] => []
  | Some faces => map (λ face, (face_embedding face, face_bbox face)) faces
  | None => []
  end.

Definition get_embedding (image : Image) : option ndarray :=
  match get_embeddings image with
  | [] => None
  | first :: _ => first.1
  end.

End Detection.

End FaceUtils.

(** ** Python values, dictionaries and queues *)

(** The values rows and events carry under their keys. *)
Inductive pyval :=
  | VNone
  | VBool (b : bool)
  | VInt (z : Z)
  | VStr (s : string).

#[global] Instance pyval_eq_dec : EqDecision pyval.
Proof. solve_decision. Defined.

(** [str(v)], as an f-string renders a value. *)
Definition py_str (v : pyval) : string :=
  match v with
  | VNone => "None"
  | VBool true => "True"
  | VBool false => "False"
  | VInt z => pretty z
  | VStr s => s
  end.

(** A [dict] in insertion order, keys unique. *)
Module PyDict.

Section Dict.

Context {K V : Type} `{EqDecision K}.

(** [d.get(k)] *)
Fixpoint get (d : list (K * V)) (k : K) : option V :=
  match d with
  | [] => None
  | (k', v) :: rest => if decide (k' = k) then Some v else get rest k
  end.

(** [k in d] *)
Definition mem (d : list (K * V)) (k : K) : bool :=
  match get d k with Some _ => true | None => false end.

(** [d[k] = v]: an existing key keeps its position. *)
Fixpoint set (d : list (K * V)) (k : K) (v : V) : list (K * V) :=
  match d with
  | [] => [(k, v)]
  | (k', v') :: rest =>
      if decide (k' = k) then (k, v) :: rest else (k', v') :: set rest k v
  end.

(** [del d[k]], for a key the caller knows to be present. *)
Fixpoint del (d : list (K * V)) (k : K) : list (K * V) :=
  match d with
  | [] => []
  | (k', v') :: rest =>
      if decide (k' = k) then rest else (k', v') :: del rest k
  end.

Definition keys (d : list (K * V)) : list K := d.*1.
Definition values (d : list (K * V)) : list V := d.*2.

End Dict.

End PyDict.

(** A row or an event payload: a dict with string keys. *)
Definition pydict := list (string * pyval).

(** [queue.Queue], which [manager.Queue] proxies.  [put] and [get] are the
    blocking calls the code makes: [None] means the caller stays blocked
    and the queue is as it was.  The consumers call [get] only after
    [empty()] has answered [False], which is the case in which [get]
    returns an item. *)
Module PyQueue.

Record t (A : Type) := Queue {
  maxsize : Z;
  items : list A;
  unfinished_tasks : Z
}.
Arguments Queue {A} maxsize items unfinished_tasks.
Arguments maxsize {A} _.
Arguments items {A} _.
Arguments unfinished_tasks {A} _.

Section Ops.

Context {A : Type}.

Definition qsize (q : t A) : Z := Z.of_nat (length (items q)).

(** [0 < self.maxsize <= self._qsize()] *)
Definition full (q : t A) : bool :=
  bool_decide (0 < maxsize q)%Z && bool_decide (maxsize q ≤ qsize q)%Z.

Definition put (q : t A) (item : A) : option (t A) :=
  if full q then None
  else Some (Queue (maxsize q) (items q ++ [item]) (unfinished_tasks q + 1)).

Definition get (q : t A) : option (A * t A) :=
  match items q with
  | [] => None
  | item :: rest => Some (item, Queue (maxsize q) rest (unfinished_tasks q))
  end.

Definition task_done (q : t A) : result (t A) :=
  if bool_decide (unfinished_tasks q - 1 < 0)%Z
  then Raise (PyException "ValueError" "task_done() called too many times")
  else Ok (Queue (maxsize q) (items q) (unfinished_tasks q - 1)).

(** Producers and consumers acting on one queue. *)
Inductive op :=
  | Put (item : A)
  | Get
  | TaskDone.

Definition step (q : t A) (o : op) : t A :=
  match o with
  | Put item => default q (put q item)
  | Get => match get q with Some (_, q') => q' | None => q end
  | TaskDone => match task_done q with Ok q' => q' | Raise _ => q end
  end.

Definition run (q : t A) (ops : list op) : t A := foldl step q ops.

End Ops.

End PyQueue.

(** ** app/dependencies.py *)
Module Dependencies.

(** [manager.Queue(maxsize=100)], twice. *)
Definition processing_results_queue {A : Type} : PyQueue.t A :=
  PyQueue.Queue 100 [] 0.
Definition websocket_responses_queue {A : Type} : PyQueue.t A :=
  PyQueue.Queue 100 [] 0.

(** What holds of a queue of capacity 100 that is within its bound. *)
Definition relay_bound {A : Type} (q : PyQueue.t A) (item : A) : Prop :=
  PyQueue.maxsize q = 100%Z ∧
  (PyQueue.qsize q ≤ 100)%Z ∧
  (PyQueue.qsize q = 100%Z →
     PyQueue.put q item = None ∧
     PyQueue.step q (PyQueue.Put item) = q ∧
     ∀ x q', PyQueue.get q = Some (x, q') →
       ∃ q'', PyQueue.put q' item = Some q'' ∧ PyQueue.qsize q'' = 100%Z) ∧
  ((PyQueue.qsize q < 100)%Z → is_Some (PyQueue.put q item)).

Definition EMPLOYEE_CACHE_TTL : Q := 300.

(** [employee_cache], [employee_cache_last_updated], and a count of the
    calls made to [Employee().query()]. *)
Record directory := Directory {
  employee_cache : list (pyval * pydict);
  employee_cache_last_updated : Q;
  query_calls : nat
}.

(** [manager.dict()] and [manager.Value('d', 0)] at import time. *)
Definition initial_directory : directory := Directory [] 0 0.

(** A dict finds a key by [hash] and [==], which do not tell [True] from
    [1] nor [False] from [0]: [dict_key] gives the form under which two
    values are one key. *)
Definition dict_key (v : pyval) : pyval :=
  match v with
  | VBool b => VInt (if b then 1 else 0)
  | _ => v
  end.

(** [d.get(k)] and [d[k] = v] on a dict keyed by values.  A key the dict
    already holds, in that sense, keeps its place and its own form; only
    the value is replaced. *)
Fixpoint get_item {V : Type} (d : list (pyval * V)) (k : pyval) : option V :=
  match d with
  | [] => None
  | (k', v) :: rest =>
      if decide (dict_key k' = dict_key k) then Some v else get_item rest k
  end.

Fixpoint set_item {V : Type} (d : list (pyval * V)) (k : pyval) (v : V)
  : list (pyval * V) :=
  match d with
  | [] => [(k, v)]
  | (k', v') :: rest =>
      if decide (dict_key k' = dict_key k) then (k', v) :: rest
      else (k', v') :: set_item rest k v
  end.

(** [d.update(other)] *)
Definition update_items {V : Type} (d other : list (pyval * V))
  : list (pyval * V) :=
  foldl (λ acc kv, set_item acc kv.1 kv.2) d other.

(** [{employee["objectId"]: employee for employee in employees}] *)
Fixpoint by_object_id (employees : list pydict) (acc : list (pyval * pydict))
  : result (list (pyval * pydict)) :=
  match employees with
  | [] => Ok acc
  | employee :: rest =>
      match PyDict.get employee "objectId" with
      | Some object_id => by_object_id rest (set_item acc object_id employee)
      | None => Raise (PyException "KeyError" "'objectId'")
      end
  end.

(** The condition under which the cache is refreshed. *)
Definition refresh_due (current_time : Q) (d : directory) : bool :=
  PyFloat.Qltb EMPLOYEE_CACHE_TTL (current_time - employee_cache_last_updated d)
  || bool_decide (employee_cache d = []).

(** [get_cached_employees], run under [employee_cache_lock] and hence as
    one step.  [current_time] is [time.time()] and [store] is what
    [Employee().query()] answers if it is called. *)
Definition get_cached_employees (current_time : Q)
    (store : result (list pydict)) (d : directory)
  : directory * result (list pydict) :=
  if refresh_due current_time d then
    let d := Directory (employee_cache d) (employee_cache_last_updated d)
               (S (query_calls d)) in
    match store with
    | Raise e => (d, Raise e)
    | Ok employees =>
        let d := Directory [] (employee_cache_last_updated d) (query_calls d) in
        match by_object_id employees [] with
        | Raise e => (d, Raise e)
        | Ok fresh =>
            let d := Directory (update_items (employee_cache d) fresh)
                       current_time (query_calls d) in
            (d, Ok (PyDict.values (employee_cache d)))
        end
    end
  else (d, Ok (PyDict.values (employee_cache d))).

End Dependencies.

(** ** app/utils/websocket.py *)
Module Websocket.

(** What callers hand to [broadcast_attendance_update]: the annotated
    [Dict], or the list of updates the queue consumers pass on. *)
Inductive payload :=
  | PList (updates : list pydict)
  | PDict (d : pydict).

(** The JSON messages written to a socket. *)
Inductive message :=
  | AttendanceUpdate (data : pydict)
  | Notification (notification_type text : string)
  | Ping
  | Status (status : string) (detail : option string)
  | MultipleUsers (users : list pydict).

(** Items of [processing_results_queue]: the keys ["type"] and ["data"],
    either of which may be missing. *)
Record event_item := EventItem {
  ev_type : option pyval;
  ev_data : option payload
}.

(** What a finished matching task returns. *)
Record task_result := TaskResult {
  processed_users : list pydict;
  attendance_updates : list pydict;
  last_recognized_users : pydict;
  no_face_count : Z
}.

(** Items of [websocket_responses_queue]; ["error" in item] tells the two
    shapes apart. *)
Inductive response_item :=
  | ErrorItem (client_id : string) (error : string)
  | ResultItem (client_id : string) (r : task_result).

Definition item_client_id (item : response_item) : string :=
  match item with
  | ErrorItem client_id _ => client_id
  | ResultItem client_id _ => client_id
  end.

(** What a consumer loop does between two polls. *)
Inductive loop_event :=
  | Slept (seconds : Q)
  | LoggedError (text : string).

Inductive loop_status :=
  | Running
  | Stopped (e : pyexn).

(** How the body of a loop iteration ends. *)
Inductive body_exit :=
  | Fallthrough
  | Continue.

(** One entry of [asyncio.gather(..., return_exceptions=True)]. *)
Inductive gathered :=
  | Returned (b : bool)
  | Raised (e : pyexn).

(** What [await loop.run_in_executor(thread_pool, lambda:
    websocket.send_json(message))] comes to.  The call runs in a worker
    thread and nothing awaits what it returns.  So a [send_json] that is a
    plain method writes the message; a [send_json] declared [async def]
    only builds a coroutine object, which is dropped: nothing is written
    and nothing is raised; and the call, or the executor once it is shut
    down, may raise an [Exception]. *)
Inductive send_outcome :=
  | Written
  | NotAwaited
  | Failed.

#[global] Instance send_outcome_eq_dec : EqDecision send_outcome.
Proof. solve_decision. Defined.

(** Whether the [try] of [_send_message_to_client] runs to its
    [return True]. *)
Definition goes_through (o : send_outcome) : bool :=
  match o with
  | Failed => false
  | _ => true
  end.

(** [fastapi.WebSocket], the class the module imports, declares
    [async def send_json]: on it every call the thread pool runs is of the
    second kind.  (The pool refuses a call only once
    [shutdown_thread_pool] has shut it down.) *)
Definition fastapi_send_json {WebSocket : Type}
  : WebSocket → message → send_outcome :=
  λ _ _, NotAwaited.

Section Server.

(** The transport: [send_json ws m] is what running
    [websocket.send_json(message)] on the thread pool comes to. *)
Context {WebSocket : Type}.
Variable send_json : WebSocket → message → send_outcome.

(** The module-level objects of [dependencies.py] the functions share,
    and the messages written to the sockets, oldest first. *)
Record world := World {
  active_connections : gmap string WebSocket;
  processing_results_queue : PyQueue.t event_item;
  websocket_responses_queue : PyQueue.t response_item;
  client_pending_tasks : gmap string Z;
  pending_futures : list (nat * string);
  delivered : list (WebSocket * message)
}.

Definition initial_world : world :=
  World ∅ Dependencies.processing_results_queue
    Dependencies.websocket_responses_queue ∅ [] [].

Definition set_active_connections (c : gmap string WebSocket) (w : world) :=
  World c (processing_results_queue w) (websocket_responses_queue w)
    (client_pending_tasks w) (pending_futures w) (delivered w).
Definition set_processing_results_queue (q : PyQueue.t event_item) (w : world) :=
  World (active_connections w) q (websocket_responses_queue w)
    (client_pending_tasks w) (pending_futures w) (delivered w).
Definition set_websocket_responses_queue (q : PyQueue.t response_item)
    (w : world) :=
  World (active_connections w) (processing_results_queue w) q
    (client_pending_tasks w) (pending_futures w) (delivered w).
Definition set_client_pending_tasks (t : gmap string Z) (w : world) :=
  World (active_connections w) (processing_results_queue w)
    (websocket_responses_queue w) t (pending_futures w) (delivered w).
Definition set_pending_futures (f : list (nat * string)) (w : world) :=
  World (active_connections w) (processing_results_queue w)
    (websocket_responses_queue w) (client_pending_tasks w) f (delivered w).
Definition set_delivered (l : list (WebSocket * message)) (w : world) :=
  World (active_connections w) (processing_results_queue w)
    (websocket_responses_queue w) (client_pending_tasks w)
    (pending_futures w) l.

(** A coroutine: it transforms the world and returns or raises; what it
    did before raising stays done. *)
Definition io (A : Type) := world → world * result A.

Definition ret {A} (a : A) : io A := λ w, (w, Ok a).
Definition bind {A B} (m : io A) (k : A → io B) : io B :=
  λ w, match m w with
       | (w', Ok a) => k a w'
       | (w', Raise e) => (w', Raise e)
       end.
Definition modify (f : world → world) : io unit := λ w, (f w, Ok tt).

(** [_send_message_to_client]: an exception becomes [False]; anything
    else, written or not, is reported as [True]. *)
Definition _send_message_to_client (websocket : WebSocket) (m : message)
    (client_id : option string) : io bool :=
  λ w, match send_json websocket m with
       | Written =>
           (set_delivered (delivered w ++ [(websocket, m)]) w, Ok true)
       | NotAwaited => (w, Ok true)
       | Failed => (w, Ok false)
       end.

Definition send_notification (websocket : WebSocket) (text : string)
    (notification_type : string) (client_id : option string) : io bool :=
  _send_message_to_client websocket (Notification notification_type text)
    client_id.

(** [asyncio.gather] over the send tasks, with [return_exceptions=True] *)
Fixpoint gather (tasks : list (io bool)) : world → world * list gathered :=
  λ w, match tasks with
       | [] => (w, [])
       | task :: rest =>
           let '(w1, r) := task w in
           let '(w2, rs) := gather rest w1 in
           (w2, match r with Ok b => Returned b | Raise e => Raised e end :: rs)
       end.

(** [isinstance(r, Exception) or r is False] *)
Definition delivery_failed (r : gathered) : bool :=
  match r with
  | Returned b => negb b
  | Raised e => is_Exception e
  end.

(** [if client_id in active_connections: del active_connections[client_id]] *)
Definition evict (client_id : string) (c : gmap string WebSocket)
  : gmap string WebSocket :=
  match c !! client_id with
  | Some _ => delete client_id c
  | None => c
  end.

(** The fix-up of a deletion event that lacks its ["objectId"]. *)
Definition with_object_id (attendance_data : pydict) : pydict :=
  if bool_decide (PyDict.get attendance_data "action" = Some (VStr "delete"))
     && negb (PyDict.mem attendance_data "objectId")
  then match PyDict.get attendance_data "attendance_id" with
       | Some v => PyDict.set attendance_data "objectId" v
       | None => attendance_data
       end
  else attendance_data.

Definition broadcast_attendance_update (attendance_data : payload) : io unit :=
  λ w,
    if bool_decide (size (active_connections w) = 0) then (w, Ok tt)
    else
      match attendance_data with
      | PList _ =>
          (w, Raise (PyException "AttributeError"
                       "'list' object has no attribute 'get'"))
      | PDict d =>
          let m := AttendanceUpdate (with_object_id d) in
          let connections := map_to_list (active_connections w) in
          let send_tasks :=
            map (λ kv, _send_message_to_client kv.2 m (Some kv.1)) connections in
          let '(w1, results) := gather send_tasks w in
          let disconnected_clients :=
            (filter (λ cr, delivery_failed cr.2 = true)
               (zip connections.*1 results)).*1 in
          (set_active_connections
             (foldl (λ c client_id, evict client_id c)
                (active_connections w1) disconnected_clients) w1,
           Ok tt)
      end.

(** [queue.task_done()] on either queue. *)
Definition events_task_done : io unit :=
  λ w, match PyQueue.task_done (processing_results_queue w) with
       | Ok q => (set_processing_results_queue q w, Ok tt)
       | Raise e => (w, Raise e)
       end.
Definition responses_task_done : io unit :=
  λ w, match PyQueue.task_done (websocket_responses_queue w) with
       | Ok q => (set_websocket_responses_queue q w, Ok tt)
       | Raise e => (w, Raise e)
       end.

(** What [process_queue] does with the item it took. *)
Definition handle_event (item : event_item) : io body_exit :=
  bind (if bool_decide (ev_type item = Some (VStr "attendance_update"))
        then broadcast_attendance_update (default (PList []) (ev_data item))
        else ret tt)
    (λ _, bind events_task_done (λ _, ret Fallthrough)).

(** The [try] body of [process_queue]. *)
Definition process_queue_body : io body_exit :=
  λ w,
    match PyQueue.get (processing_results_queue w) with
    | None => (w, Ok Fallthrough)
    | Some (item, q) => handle_event item (set_processing_results_queue q w)
    end.

(** The summary sent after a non-empty result. *)
Definition summary (processed_users : list pydict) : string :=
  match processed_users with
  | [user] =>
      "Face detected: "
      +:+ py_str (default (VStr "Unknown") (PyDict.get user "name"))
      +:+ " (ID: "
      +:+ py_str (default (VStr "Unknown") (PyDict.get user "employee_id"))
      +:+ ")"
  | _ =>
      "Multiple faces detected: " +:+ pretty (length processed_users)
      +:+ " people identified"
  end.

(** [if not success and client_id in active_connections: del ...] *)
Definition evict_unless (success : bool) (client_id : string) : io unit :=
  modify (λ w, if success then w
               else set_active_connections
                      (evict client_id (active_connections w)) w).

(** A status message, its notification, and the eviction that follows a
    failed status delivery. *)
Definition report (websocket : WebSocket) (client_id : string)
    (m : message) (text notification_type : string) : io unit :=
  bind (_send_message_to_client websocket m (Some client_id)) (λ success,
  bind (send_notification websocket text notification_type (Some client_id))
    (λ _, evict_unless success client_id)).

(** What [process_websocket_responses] does with the item it took. *)
Definition handle_response (item : response_item) : io body_exit :=
  λ w,
    let client_id := item_client_id item in
    match active_connections w !! client_id with
    | None => bind responses_task_done (λ _, ret Continue) w
    | Some websocket =>
        match item with
        | ErrorItem _ error =>
            bind (report websocket client_id
                    (Status "processing_error" (Some error))
                    ("Error processing: " +:+ error) "error")
              (λ _, bind responses_task_done (λ _, ret Continue)) w
        | ResultItem _ r =>
            bind
              (match processed_users r with
               | [] =>
                   if bool_decide (0 < no_face_count r)%Z
                   then report websocket client_id
                          (Status "no_face_detected" None)
                          "No face detected in the image" "warning"
                   else report websocket client_id
                          (Status "no_matching_users" None)
                          "No matching users found" "warning"
               | _ :: _ =>
                   bind (report websocket client_id
                           (MultipleUsers (processed_users r))
                           (summary (processed_users r)) "success")
                     (λ _, match attendance_updates r with
                           | [] => ret tt
                           | _ :: _ =>
                               broadcast_attendance_update
                                 (PList (attendance_updates r))
                           end)
               end)
              (λ _, bind responses_task_done (λ _, ret Fallthrough)) w
        end
    end.

(** The [try] body of [process_websocket_responses]. *)
Definition process_websocket_responses_body : io body_exit :=
  λ w,
    match PyQueue.get (websocket_responses_queue w) with
    | None => (w, Ok Fallthrough)
    | Some (item, q) =>
        handle_response item (set_websocket_responses_queue q w)
    end.

(** One turn of [while True: try: ... except Exception as e: ...]. *)
Definition guarded (prefix : string) (body : io body_exit) (w : world)
  : world * list loop_event * loop_status :=
  match body w with
  | (w', Ok Fallthrough) => (w', [Slept (1 # 10)], Running)
  | (w', Ok Continue) => (w', [], Running)
  | (w', Raise e) =>
      if is_Exception e
      then (w', [LoggedError (prefix +:+ exn_str e); Slept 1], Running)
      else (w', [], Stopped e)
  end.

(** The first [n] turns of a loop. *)
Fixpoint turns (n : nat) (turn : world → world * list loop_event * loop_status)
    (w : world) : world * list loop_event * loop_status :=
  match n with
  | O => (w, [], Running)
  | S n' =>
      match turn w with
      | (w', events, Running) =>
          let '(w'', events', status) := turns n' turn w' in
          (w'', events ++ events', status)
      | stopped => stopped
      end
  end.

Definition process_queue (n : nat) :=
  turns n (guarded "Error processing queue: " process_queue_body).

Definition process_websocket_responses (n : nat) :=
  turns n (guarded "Error processing websocket responses: "
             process_websocket_responses_body).

(** *** Specification vocabulary for coroutines *)

(** Whatever [m] raises is an [Exception]. *)
Definition raises_exceptions_only {A} (m : io A) : Prop :=
  ∀ w w' e, m w = (w', Raise e) → is_Exception e = true.

(** [m] leaves the part [f] of the world as it found it. *)
Definition preserves {A X} (f : world → X) (m : io A) : Prop :=
  ∀ w, f (m w).1 = f w.

(** The reply to a connected client: the status message, the text of the
    notification and its type. *)
Definition reply (item : response_item) : message * string * string :=
  match item with
  | ErrorItem _ error =>
      (Status "processing_error" (Some error),
       "Error processing: " +:+ error, "error")
  | ResultItem _ r =>
      match processed_users r with
      | [] =>
          if bool_decide (0 < no_face_count r)%Z
          then (Status "no_face_detected" None,
                "No face detected in the image", "warning")
          else (Status "no_matching_users" None,
                "No matching users found", "warning")
      | _ :: _ =>
          (MultipleUsers (processed_users r),
           summary (processed_users r), "success")
      end
  end.

(** The side-effect events an item carries. *)
Definition carried_updates (item : response_item) : list pydict :=
  match item with
  | ErrorItem _ _ => []
  | ResultItem _ r =>
      match processed_users r with
      | [] => []
      | _ :: _ => attendance_updates r
      end
  end.

(** What neither a send nor an eviction can change. *)
Definition beyond_sockets (w : world) :=
  (processing_results_queue w, websocket_responses_queue w,
   client_pending_tasks w, pending_futures w).

(** What the event consumer leaves alone. *)
Definition beyond_events (w : world) :=
  (websocket_responses_queue w, client_pending_tasks w, pending_futures w,
   PyQueue.maxsize (processing_results_queue w),
   PyQueue.items (processing_results_queue w)).

(** What the response consumer leaves alone. *)
Definition beyond_responses (w : world) :=
  (processing_results_queue w, client_pending_tasks w, pending_futures w,
   PyQueue.maxsize (websocket_responses_queue w),
   PyQueue.items (websocket_responses_queue w)).

(** *** The completion handler and the task ledger *)

(** The decrement both paths of the handler perform, under
    [client_pending_tasks_lock]. *)
Definition decrement_pending (client_id : string) (w : world) : world :=
  match client_pending_tasks w !! client_id with
  | Some n =>
      set_client_pending_tasks
        (<[client_id := Z.max 0 (n - 1)]> (client_pending_tasks w)) w
  | None => w
  end.

(** An update gains ["objectId"] and ["id"] when it lacks them. *)
Definition with_ids (update : pydict) : pydict :=
  let update :=
    if negb (PyDict.mem update "objectId") then
      match PyDict.get update "attendance_id" with
      | Some v => PyDict.set update "objectId" v
      | None => update
      end
    else update in
  if negb (PyDict.mem update "id") then
    match PyDict.get update "employee_id" with
    | Some v => PyDict.set update "id" v
    | None => update
    end
  else update.

(** Blocking [put]s: [None] while the queue is full. *)
Definition put_response (item : response_item) (w : world) : option world :=
  q ← PyQueue.put (websocket_responses_queue w) item;
  Some (set_websocket_responses_queue q w).
Definition put_event (item : event_item) (w : world) : option world :=
  q ← PyQueue.put (processing_results_queue w) item;
  Some (set_processing_results_queue q w).

(** The [finally] block: the first entry of [pending_futures] whose value
    is the client is deleted. *)
Fixpoint first_key_for (futures : list (nat * string)) (client_id : string)
  : option nat :=
  match futures with
  | [] => None
  | (key, value) :: rest =>
      if decide (value = client_id) then Some key
      else first_key_for rest client_id
  end.

Definition without_first_for (futures : list (nat * string))
    (client_id : string) : list (nat * string) :=
  match first_key_for futures client_id with
  | Some key => PyDict.del futures key
  | None => futures
  end.

Definition forget_future (client_id : string) (w : world) : world :=
  set_pending_futures (without_first_for (pending_futures w) client_id) w.

(** [handle_future_completion]; [future] is what [future.result()] returns
    or raises.  A [put] on a full queue blocks, it does not raise: [None]
    means the handler is still blocked in a [put].  The result is what the
    handler itself returns or lets escape. *)
Definition handle_future_completion (future : result task_result)
    (client_id : string) (w : world) : option (world * result unit) :=
  tried ←
    match future with
    | Raise e => Some (w, Raise e)
    | Ok r =>
        let updates := map with_ids (attendance_updates r) in
        let w := decrement_pending client_id w in
        w ← put_response
              (ResultItem client_id
                 (TaskResult (processed_users r) updates
                    (last_recognized_users r) (no_face_count r))) w;
        w ← match updates with
             | [] => Some w
             | _ :: _ =>
                 put_event
                   (EventItem (Some (VStr "attendance_update"))
                      (Some (PList updates))) w
             end;
        Some (w, Ok tt)
    end;
  handled ←
    match tried with
    | (w, Ok _) => Some (w, Ok tt)
    | (w, Raise e) =>
        if is_Exception e then
          let w := decrement_pending client_id w in
          w ← put_response (ErrorItem client_id (exn_str e)) w;
          Some (w, Ok tt)
        else Some (w, Raise e)
    end;
  Some (forget_future client_id handled.1, handled.2).

(** Modelled from the spec: the route that submits an image is not among
    the sources.  "PendingTask: (taskHandle, connectionId), created at
    submission time"; [submit_image_for_matching] "increments the
    connection's pending-task counter". *)
Definition submit_image_for_matching (future : nat) (client_id : string)
    (w : world) : world :=
  set_pending_futures (PyDict.set (pending_futures w) future client_id)
    (set_client_pending_tasks
       (<[client_id := (default 0 (client_pending_tasks w !! client_id) + 1)%Z]>
          (client_pending_tasks w)) w).

(** [pending_count(connectionId)] and the number of ledger entries that
    reference a connection. *)
Definition pending_count (w : world) (client_id : string) : Z :=
  default 0%Z (client_pending_tasks w !! client_id).
Definition pending_entries (w : world) (client_id : string) : nat :=
  length (filter (λ kv, kv.2 = client_id) (pending_futures w)).

(** The ledger is consistent. *)
Definition ledger_ok (w : world) : Prop :=
  NoDup (pending_futures w).*1 ∧
  ∀ client_id,
    (0 ≤ pending_count w client_id)%Z ∧
    pending_count w client_id = Z.of_nat (pending_entries w client_id).

(** What happens to the server: a submission (of a new future), the
    completion of a task, whose work returned or raised an [Exception], and
    the turns of the two consumer loops. *)
Inductive server_op :=
  | Submit (future : nat) (client_id : string)
  | Complete (outcome : task_result + string * string) (client_id : string)
  | PollEvents
  | PollResponses.

Definition future_of (outcome : task_result + string * string)
  : result task_result :=
  match outcome with
  | inl r => Ok r
  | inr (cls, msg) => Raise (PyException cls msg)
  end.

(** [None]: the operation cannot happen, or has not returned. *)
Definition server_step (w : world) (o : server_op) : option world :=
  match o with
  | Submit future client_id =>
      if PyDict.mem (pending_futures w) future then None
      else Some (submit_image_for_matching future client_id w)
  | Complete outcome client_id =>
      fst <$> handle_future_completion (future_of outcome) client_id w
  | PollEvents =>
      Some (guarded "Error processing queue: " process_queue_body w).1.1
  | PollResponses =>
      Some (guarded "Error processing websocket responses: "
              process_websocket_responses_body w).1.1
  end.

Fixpoint server_run (ops : list server_op) (w : world) : option world :=
  match ops with
  | [] => Some w
  | o :: rest => w' ← server_step w o; server_run rest w'
  end.

End Server.

End Websocket.

(** ** Vocabulary for the pipeline as a whole *)
Module Pipeline.
Import Websocket.

(** What a completion leaves in the response queue, and in the event
    queue. *)
Definition completion_response (outcome : task_result + string * string)
    (client_id : string) : response_item :=
  match outcome with
  | inl r =>
      ResultItem client_id
        (TaskResult (processed_users r) (map with_ids (attendance_updates r))
           (last_recognized_users r) (no_face_count r))
  | inr (_, msg) => ErrorItem client_id msg
  end.

Definition completion_events (outcome : task_result + string * string)
  : list event_item :=
  match outcome with
  | inl r =>
      match map with_ids (attendance_updates r) with
      | [] => []
      | updates =>
          [EventItem (Some (VStr "attendance_update")) (Some (PList updates))]
      end
  | inr _ => []
  end.

(** A relay queue in good order: of capacity 100, within it, and with no
    fewer unfinished tasks than items. *)
Definition queue_ok {A : Type} (q : PyQueue.t A) : Prop :=
  PyQueue.maxsize q = 100%Z ∧
  (PyQueue.qsize q ≤ 100)%Z ∧
  (PyQueue.qsize q ≤ PyQueue.unfinished_tasks q)%Z.

Definition queues_ok {WebSocket : Type}
    (w : world (WebSocket := WebSocket)) : Prop :=
  queue_ok (processing_results_queue w) ∧
  queue_ok (websocket_responses_queue w).

(** From [w] to [w'] nothing written to a socket was taken back or
    reordered, and nobody joined the registry. *)
Definition advances {WebSocket : Type}
    (w w' : world (WebSocket := WebSocket)) : Prop :=
  delivered w `prefix_of` delivered w' ∧
  active_connections w' ⊆ active_connections w.

(** [m] only ever advances the world. *)
Definition advancing {WebSocket A : Type}
    (m : io (WebSocket := WebSocket) A) : Prop :=
  ∀ w, advances w (m w).1.

(** The one exception a turn of a consumer loop can meet. *)
Definition list_has_no_get : pyexn :=
  PyException "AttributeError" "'list' object has no attribute 'get'".

(** An event whose data is not a dict: a list of updates, or missing. *)
Definition carries_list (ev : event_item) : Prop :=
  match ev_data ev with
  | Some (PDict _) => False
  | _ => True
  end.

Definition is_attendance_update (m : message) : bool :=
  match m with
  | AttendanceUpdate _ => true
  | _ => false
  end.

(** From [w] to [w'] nothing was written to a socket and the registry is
    as it was. *)
Definition untouched {WebSocket : Type}
    (w w' : world (WebSocket := WebSocket)) : Prop :=
  delivered w' = delivered w ∧ active_connections w' = active_connections w.

(** What is written to the socket of a connected client for an item of the
    response queue: the status message and its notification, each if its
    call wrote it. *)
Definition answer {WebSocket : Type}
    (send_json : WebSocket → message → send_outcome)
    (ws : WebSocket) (item : response_item) : list (WebSocket * message) :=
  filter (λ p, send_json p.1 p.2 = Written)
    [(ws, (reply item).1.1);
     (ws, Notification (reply item).2 (reply item).1.2)].

End Pipeline.

(** ** Fixtures: concrete collaborators for the worked scenarios *)
Module Fixtures.

(** One-element arrays with exact arithmetic stand in for numpy. *)
Definition arr := PyFloat.t.

Definition norm1 (x : arr) : option PyFloat.t :=
  Some match x with
       | PyFloat.Fin q => PyFloat.Fin (Qabs q)
       | PyFloat.NaN => PyFloat.NaN
       | _ => PyFloat.PosInf
       end.

Definition div1 (x : arr) (n : PyFloat.t) : option arr :=
  Some match x, n with
       | PyFloat.Fin p, PyFloat.Fin q =>
           if Qeq_bool q 0 then
             if Qeq_bool p 0 then PyFloat.NaN
             else if PyFloat.Qltb 0 p then PyFloat.PosInf else PyFloat.NegInf
           else PyFloat.Fin (p / q)
       | _, _ => PyFloat.NaN
       end.

Definition dot1 (a b : arr) : option PyFloat.t :=
  Some match a, b with
       | PyFloat.Fin p, PyFloat.Fin q => PyFloat.Fin (p * q)
       | _, _ => PyFloat.NaN
       end.

(** The stored strings the scenarios use; anything else fails to parse. *)
Definition loads1 (s : string) : result arr :=
  if decide (s = "[1.0]") then Ok (PyFloat.Fin 1)
  else if decide (s = "[-1.0]") then Ok (PyFloat.Fin (-1))
  else if decide (s = "[2.0]") then Ok (PyFloat.Fin 2)
  else if decide (s = "[0.0]") then Ok (PyFloat.Fin 0)
  else Raise (PyException "JSONDecodeError" "Expecting value").

(** Reference rows: an identifier and the stored embedding string. *)
Definition row := (string * string)%type.
Definition row_embedding (u : row) : string := u.2.

Definition emp_pos : row := ("emp-1", "[2.0]").
Definition emp_pos' : row := ("emp-2", "[1.0]").
Definition emp_neg : row := ("emp-3", "[-1.0]").
Definition emp_bad : row := ("emp-4", "not json").

(** A bounding box: [x1, y1, x2, y2]. *)
Definition box := list Z.
Definition box0 : box := [0; 0; 10; 10]%Z.
Definition box1 : box := [20; 0; 30; 10]%Z.

Definition find_matches1 :=
  FaceUtils.find_matches_for_embeddings norm1 div1 dot1 loads1 row_embedding
    (BBox := box).
(** Rows of the employee store. *)
Definition alice : pydict :=
  [("objectId", VStr "e1"); ("name", VStr "Alice");
   ("employee_id", VStr "EMP-1")].
Definition bob : pydict :=
  [("objectId", VStr "e2"); ("name", VStr "Bob"); ("employee_id", VInt 2)].

(** A directory refreshed at time 100 that holds [alice]. *)
Definition stale_directory : Dependencies.directory :=
  Dependencies.Directory [(VStr "e1", alice)] 100 1.

(** A transport whose [send_json] is a plain method that writes.  Sockets
    are numbered; socket 2 is broken: a call on it raises. *)
Definition flaky (ws : nat) (m : Websocket.message) : Websocket.send_outcome :=
  if (ws =? 2)%nat then Websocket.Failed else Websocket.Written.

Definition three_clients : Websocket.world :=
  Websocket.World (<["c1" := 1%nat]> (<["c2" := 2%nat]> (<["c3" := 3%nat]> ∅)))
    Dependencies.processing_results_queue
    Dependencies.websocket_responses_queue ∅ [] [].

(** One working connection. *)
Definition one_client : gmap string nat := <["c1" := 1%nat]> ∅.

(** An attendance update as a finished task reports it. *)
Definition checked_in : pydict :=
  [("employee_id", VStr "EMP-1"); ("attendance_id", VInt 7);
   ("objectId", VInt 7); ("id", VStr "EMP-1")].

(** The response of a task that recognised [alice] and recorded her
    attendance. *)
Definition matched : Websocket.response_item :=
  Websocket.ResultItem "c1" (Websocket.TaskResult [alice] [checked_in] [] 0).

(** The response is waiting in the response queue. *)
Definition answering : Websocket.world :=
  Websocket.World one_client Dependencies.processing_results_queue
    (PyQueue.Queue 100 [matched] 1) ∅ [] [].

(** A deletion event that lacks its ["objectId"]. *)
Definition deletion : pydict :=
  [("action", VStr "delete"); ("attendance_id", VInt 7)].

(** The same world once the consumer has taken the response. *)
Definition answering_taken : Websocket.world :=
  Websocket.World one_client Dependencies.processing_results_queue
    (PyQueue.Queue 100 [] 1) ∅ [] [].

(** The event queue as the completion handler fills it (a list of
    updates), followed by an event whose data is a dict. *)
Definition jammed : Websocket.world :=
  Websocket.World one_client
    (PyQueue.Queue 100
       [Websocket.EventItem (Some (VStr "attendance_update"))
          (Some (Websocket.PList [checked_in]));
        Websocket.EventItem (Some (VStr "attendance_update"))
          (Some (Websocket.PDict deletion))] 2)
    Dependencies.websocket_responses_queue ∅ [] [].

(** One task of ["c1"] is pending, booked under future 1. *)
Definition one_pending : Websocket.world (WebSocket := nat) :=
  Websocket.World ∅ Dependencies.processing_results_queue
    Dependencies.websocket_responses_queue (<["c1" := 1%Z]> ∅)
    [(1%nat, "c1")] [].

(** Three submissions by two clients; the first task of ["c1"] fails, the
    task of ["c2"] recognises [alice]; the consumers take a turn each. *)
Definition busy_day : list Websocket.server_op :=
  [Websocket.Submit 1 "c1"; Websocket.Submit 2 "c1"; Websocket.Submit 3 "c2";
   Websocket.Complete (inr ("ValueError", "no image")) "c1";
   Websocket.PollResponses;
   Websocket.Complete
     (inl (Websocket.TaskResult [alice] [checked_in] [] 0)) "c2";
   Websocket.PollEvents].

(** A detector on numbered images: image 0 shows nobody, image 1 makes
    the detector fail, any other image shows two faces.  A face is its
    embedding and its bounding box. *)
Definition detect1 (image : nat) : option (list (option arr * box)) :=
  match image with
  | 0%nat => Some []
  | 1%nat => None
  | _ => Some [(Some (PyFloat.Fin 1), box0); (Some (PyFloat.Fin (-3)), box1)]
  end.

(** The faces of image 2 and the rows they are matched against. *)
Definition two_faces : list (option arr * box) :=
  [(Some (PyFloat.Fin 1), box0); (Some (PyFloat.Fin (-3)), box1)].
Definition three_rows : list row := [emp_neg; emp_pos; emp_pos'].

End Fixtures.

(** * Part II: properties *)

(** ** Order facts on Python floats *)
Module PyFloatFacts.
Import PyFloat.

Lemma Qltb_lt p q : Qltb p q = true ↔ (p < q)%Q.
Proof.
unfold Qltb. rewrite negb_true_iff.
destruct (Qle_bool q p) eqn:E.
- apply Qle_bool_iff in E. split; [done | intros H; lra].
- split; [intros _ | done].
  destruct (Qlt_le_dec p q) as [|Hle]; [done |].
  apply Qle_bool_iff in Hle. congruence.
Qed.

Lemma Qltb_ge p q : Qltb p q = false ↔ (q <= p)%Q.
Proof.
unfold Qltb. rewrite negb_false_iff. apply Qle_bool_iff.
Qed.

Ltac q_cmp :=
repeat match goal with
| H : Qltb _ _ = true |- _ => apply Qltb_lt in H
| H : Qltb _ _ = false |- _ => apply Qltb_ge in H
| H : Qle_bool _ _ = true |- _ => apply Qle_bool_iff in H
| H : Qle_bool _ _ = false |- _ =>
    apply not_true_iff_false in H; rewrite Qle_bool_iff in H
| |- Qltb _ _ = true => apply Qltb_lt
| |- Qltb _ _ = false => apply Qltb_ge
| |- Qle_bool _ _ = true => apply Qle_bool_iff
| |- Qle_bool _ _ = false =>
    apply not_true_iff_false; rewrite Qle_bool_iff
end.

Ltac cases :=
unfold gtb, geb, zero, half in *;
repeat match goal with x : t |- _ => destruct x end;
simpl in *; try done; q_cmp; try lra.

(** Order facts the matching proofs rely on. *)
Lemma gtb_geb_trans a b c : gtb a b = true → geb b c = true → gtb a c = true.
Proof. intros; cases. Qed.

Lemma geb_gtb_trans a b c : geb a b = true → gtb b c = true → gtb a c = true.
Proof. intros; cases. Qed.

Lemma geb_trans a b c : geb a b = true → geb b c = true → geb a c = true.
Proof. intros; cases. Qed.

Lemma gtb_geb a b : gtb a b = true → geb a b = true.
Proof. intros; cases. Qed.

Lemma gtb_not_geb a b : gtb a b = true → geb b a = false.
Proof. intros; cases. Qed.

Lemma geb_not_gtb a b : geb a b = true → gtb b a = false.
Proof. intros; cases. Qed.

Lemma geb_refl a : is_nan a = false → geb a a = true.
Proof. intros; cases. Qed.

Lemma gtb_irrefl a : gtb a a = false.
Proof. cases. Qed.

Lemma gtb_not_nan_l a b : gtb a b = true → is_nan a = false.
Proof. intros; cases. Qed.

Lemma geb_not_nan_l a b : geb a b = true → is_nan a = false.
Proof. intros; cases. Qed.

Lemma geb_not_nan_r a b : geb a b = true → is_nan b = false.
Proof. intros; cases. Qed.

(** Away from NaN the order is total. *)
Lemma not_gtb_geb a b :
is_nan a = false → is_nan b = false → gtb a b = false → geb b a = true.
Proof. intros; cases. Qed.

End PyFloatFacts.

(** ** The matching policy *)
Module Matching.
Import PyFloatFacts.

Section Policy.

Context {ndarray User BBox : Type}.
Variable np_linalg_norm : ndarray → option PyFloat.t.
Variable np_divide : ndarray → PyFloat.t → option ndarray.
Variable np_dot : ndarray → ndarray → option PyFloat.t.
Variable json_loads_array : string → result ndarray.
Variable user_embedding : User → string.

Local Abbreviation compare_faces :=
  (FaceUtils.compare_faces np_linalg_norm np_divide np_dot).
Local Abbreviation similarity :=
  (FaceUtils.similarity np_linalg_norm np_divide np_dot json_loads_array
     user_embedding).
Local Abbreviation scan_users :=
  (FaceUtils.scan_users np_linalg_norm np_divide np_dot json_loads_array
     user_embedding).
Local Abbreviation match_faces :=
  (FaceUtils.match_faces np_linalg_norm np_divide np_dot json_loads_array
     user_embedding (BBox := BBox)).
Local Abbreviation find_matches_for_embeddings :=
  (FaceUtils.find_matches_for_embeddings np_linalg_norm np_divide np_dot
     json_loads_array user_embedding (BBox := BBox)).
Local Abbreviation first_best :=
  (FaceUtils.first_best np_linalg_norm np_divide np_dot json_loads_array
     user_embedding).
Local Abbreviation none_positive :=
  (FaceUtils.none_positive np_linalg_norm np_divide np_dot json_loads_array
     user_embedding).
Local Abbreviation face_outcome :=
  (FaceUtils.face_outcome np_linalg_norm np_divide np_dot json_loads_array
     user_embedding (BBox := BBox)).
Local Abbreviation qualifies :=
  (FaceUtils.qualifies np_linalg_norm np_divide np_dot json_loads_array
     user_embedding (BBox := BBox)).
Local Abbreviation all_decode :=
  (FaceUtils.all_decode json_loads_array user_embedding).
Local Abbreviation tracked :=
  (FaceUtils.tracked np_linalg_norm np_divide np_dot json_loads_array
     user_embedding).

Lemma below_after_raise sv b s :
  PyFloat.gtb sv b = false → PyFloat.gtb s b = true →
  PyFloat.geb sv s = false.
Proof. intros; PyFloatFacts.cases. Qed.

Lemma not_geb_not_gtb sv s :
  PyFloat.geb sv s = false → PyFloat.gtb sv s = false.
Proof. intros; PyFloatFacts.cases. Qed.

Lemma tracked_init q : tracked q [] None PyFloat.zero.
Proof.
  split; [done |]. split; [| done].
  intros v Hv. by apply elem_of_nil in Hv.
Qed.

Lemma similarity_unfold q u a :
  FaceUtils.str_to_embedding json_loads_array (user_embedding u) = Ok a →
  similarity q u = Ok (compare_faces q (Some a)).
Proof. intros H. unfold FaceUtils.similarity. by rewrite H. Qed.

Lemma similarity_decode q u s :
  similarity q u = Ok s →
  ∃ a, FaceUtils.str_to_embedding json_loads_array (user_embedding u) = Ok a ∧
       s = compare_faces q (Some a).
Proof.
  unfold FaceUtils.similarity.
  destruct (FaceUtils.str_to_embedding _ _) as [a|e]; simpl; [| done].
  intros [= <-]. by exists a.
Qed.

(** One more candidate keeps the loop's knowledge up to date. *)
Lemma tracked_step q seen bm bs user a :
  tracked q seen bm bs →
  FaceUtils.str_to_embedding json_loads_array (user_embedding user) = Ok a →
  let s := compare_faces q (Some a) in
  if PyFloat.gtb s bs
  then tracked q (seen ++ [user]) (Some user) s
  else tracked q (seen ++ [user]) bm bs.
Proof.
  intros (Hge & Hall & Hbm) Ha s.
  pose proof (similarity_unfold q user a Ha) as Hsim. fold s in Hsim.
  destruct (PyFloat.gtb s bs) eqn:Hgt.
  - assert (PyFloat.gtb s PyFloat.zero = true) as Hpos
      by (eapply gtb_geb_trans; eauto).
    split; [by apply gtb_geb |]. split.
    + intros v [Hv | Hv%list_elem_of_singleton]%elem_of_app.
      * destruct (Hall v Hv) as (sv & Hsv & Hle). exists sv. split; [done |].
        apply not_geb_not_gtb. by eapply below_after_raise.
      * subst v. exists s. split; [done | apply gtb_irrefl].
    + split; [done |]. exists seen, []. split; [done |]. split; [done |].
      intros v Hv. destruct (Hall v Hv) as (sv & Hsv & Hle).
      exists sv. split; [done |]. by eapply below_after_raise.
  - split; [done |]. split.
    + intros v [Hv | Hv%list_elem_of_singleton]%elem_of_app; [by apply Hall |].
      subst v. by exists s.
    + destruct bm as [u|]; [| done].
      destruct Hbm as (Hpos & l1 & l2 & -> & Hu & Hl1).
      split; [done |]. exists l1, (l2 ++ [user]).
      by rewrite <- app_assoc.
Qed.

Lemma scan_users_tracked q users :
  ∀ seen bm bs bm' bs',
    tracked q seen bm bs →
    scan_users q users bm bs = Ok (bm', bs') →
    tracked q (seen ++ users) bm' bs'.
Proof.
  induction users as [| user rest IH]; intros seen bm bs bm' bs' Ht; simpl.
  - intros [= <- <-]. by rewrite app_nil_r.
  - destruct (FaceUtils.str_to_embedding _ _) as [a|e] eqn:Ha; simpl; [| done].
    pose proof (tracked_step q seen bm bs user a Ht Ha) as Hstep.
    simpl in Hstep. intros Hscan.
    replace (seen ++ user :: rest) with ((seen ++ [user]) ++ rest)
      by (by rewrite <- app_assoc).
    destruct (PyFloat.gtb _ bs); eapply IH; eauto.
Qed.

(** The loop cannot fail once every stored embedding parses. *)
Lemma scan_users_total q users :
  all_decode users →
  ∀ bm bs, ∃ bm' bs', scan_users q users bm bs = Ok (bm', bs').
Proof.
  induction users as [| user rest IH]; intros Hdec bm bs; simpl; [by eauto |].
  destruct (Hdec user) as [a Ha]; [by left |]. rewrite Ha. simpl.
  assert (all_decode rest) as Hrest by (intros u Hu; apply Hdec; by right).
  destruct (PyFloat.gtb _ bs); by apply IH.
Qed.

(** What the finished inner loop reports about one face. *)
Lemma scan_users_result q users bm bs :
  scan_users q users None PyFloat.zero = Ok (bm, bs) →
  match bm with
  | Some u => first_best q users u bs ∧ PyFloat.gtb bs PyFloat.zero = true
  | None => bs = PyFloat.zero ∧ none_positive q users
  end.
Proof.
  intros Hscan.
  pose proof (scan_users_tracked q users [] None PyFloat.zero bm bs
                (tracked_init q) Hscan) as (Hge & Hall & Hbm).
  simpl in *. destruct bm as [u|].
  - destruct Hbm as (Hpos & l1 & l2 & Heq & Hu & Hl1). split; [| done].
    exists l1, l2. repeat split; try done.
    intros v Hv. apply Hall. rewrite Heq. apply elem_of_app. right. by right.
  - subst bs. split; [done |]. intros v Hv. by apply Hall.
Qed.

(** Two best candidates of one face carry order-equivalent similarities. *)
Lemma first_best_agree q users u s u' s' thr :
  first_best q users u s → first_best q users u' s' →
  PyFloat.gtb s PyFloat.zero = true → PyFloat.gtb s' PyFloat.zero = true →
  PyFloat.geb s thr = PyFloat.geb s' thr.
Proof.
  intros Hb Hb' Hpos Hpos'.
  assert (∀ w t w' t', first_best q users w t → first_best q users w' t' →
            PyFloat.gtb t' PyFloat.zero = true → PyFloat.gtb t' t = false)
    as Hle.
  { intros w t w' t' (l1 & l2 & Heq & Hw & Hl1 & Hl2) (l1' & l2' & Heq' & Hw' & _).
    intros Ht'.
    assert (w' ∈ users) as Hin
      by (rewrite Heq'; apply elem_of_app; right; by left).
    rewrite Heq in Hin.
    apply elem_of_app in Hin as [Hin | [-> | Hin]%elem_of_cons].
    - destruct (Hl1 w' Hin) as (sv & Hsv & Hlt).
      rewrite Hw' in Hsv. injection Hsv as <-. by apply not_geb_not_gtb.
    - rewrite Hw' in Hw. injection Hw as <-. apply gtb_irrefl.
    - destruct (Hl2 w' Hin) as (sv & Hsv & Hlt).
      rewrite Hw' in Hsv. by injection Hsv as <-. }
  pose proof (Hle u s u' s' Hb Hb' Hpos') as H1.
  pose proof (Hle u' s' u s Hb' Hb Hpos) as H2.
  clear Hle Hb Hb'.
  destruct (PyFloat.geb s thr) eqn:E, (PyFloat.geb s' thr) eqn:E';
    try done; PyFloatFacts.cases.
Qed.

(** The outer loop: the result list is the accumulator followed by the
    outcomes of the faces, in order, each decided on its own. *)
Lemma match_faces_outcomes thr users qs :
  ∀ acc ms,
    match_faces thr qs users acc = Ok ms →
    ∃ rs, ms = acc ++ omap id rs ∧ Forall2 (face_outcome thr users) qs rs.
Proof.
  induction qs as [| [q bbox] rest IH]; intros acc ms; simpl.
  - intros [= <-]. exists []. by rewrite app_nil_r.
  - destruct (scan_users q users None PyFloat.zero) as [[bm bs]|e] eqn:Hscan;
      simpl; [| done].
    pose proof (scan_users_result q users bm bs Hscan) as Hres.
    destruct bm as [u|].
    + destruct Hres as [Hbest Hpos].
      destruct (PyFloat.geb bs thr) eqn:Hthr; intros Hrest;
        destruct (IH _ _ Hrest) as (rs & -> & Hrs).
      * exists (Some (FaceUtils.MatchResult u bs bbox) :: rs).
        split; [by rewrite <- app_assoc |]. by constructor.
      * exists (None :: rs). split; [done |]. constructor; [| done].
        intros (u' & s' & Hb' & Hpos' & Hge'). cbn [fst] in *.
        rewrite (first_best_agree q users u bs u' s' thr) in Hthr by done.
        congruence.
    + destruct Hres as [-> Hnone]. intros Hrest.
      destruct (IH _ _ Hrest) as (rs & -> & Hrs).
      exists (None :: rs). split; [done |]. constructor; [| done].
      intros (u' & s' & (l1 & l2 & Heq & Hu' & _) & Hpos' & _).
      cbn [fst] in *.
      destruct (Hnone u') as (sv & Hsv & Hle).
      { rewrite Heq. apply elem_of_app. right. by left. }
      rewrite Hu' in Hsv. injection Hsv as <-. congruence.
Qed.

Lemma match_faces_total thr users qs :
  all_decode users → ∀ acc, ∃ ms, match_faces thr qs users acc = Ok ms.
Proof.
  intros Hdec. induction qs as [| [q bbox] rest IH]; intros acc; simpl;
    [by eauto |].
  destruct (scan_users_total q users Hdec None PyFloat.zero) as (bm & bs & ->).
  simpl. destruct bm; [destruct (PyFloat.geb bs thr) |]; apply IH.
Qed.

(** A face without a positive candidate leaves the trackers untouched. *)
Lemma scan_users_none_positive q users :
  none_positive q users →
  scan_users q users None PyFloat.zero = Ok (None, PyFloat.zero).
Proof.
  induction users as [| user rest IH]; intros Hnone; [done |].
  cbn [FaceUtils.scan_users].
  destruct (Hnone user) as (sv & Hsv & Hle); [by left |].
  apply similarity_decode in Hsv as (a & Ha & ->).
  rewrite Ha. cbn [rbind]. rewrite Hle.
  apply IH. intros v Hv. apply Hnone. by right.
Qed.

Lemma match_faces_skip thr users qs1 q bbox qs2 :
  none_positive q users →
  ∀ acc, match_faces thr (qs1 ++ (q, bbox) :: qs2) users acc
         = match_faces thr (qs1 ++ qs2) users acc.
Proof.
  intros Hnone. induction qs1 as [| [q1 b1] rest IH]; intros acc; simpl.
  - by rewrite (scan_users_none_positive q users Hnone).
  - destruct (scan_users q1 users None PyFloat.zero) as [[bm bs]|e]; simpl;
      [| done].
    destruct bm; [destruct (PyFloat.geb bs thr) |]; apply IH.
Qed.

Lemma match_faces_no_users thr qs :
  ∀ acc, match_faces thr qs [] acc = Ok acc.
Proof. induction qs as [| [q bbox] rest IH]; intros acc; simpl; [done | apply IH]. Qed.

Lemma outcomes_positive thr users qs rs :
  Forall2 (face_outcome thr users) qs rs →
  Forall (λ m, PyFloat.gtb (FaceUtils.m_similarity m) PyFloat.zero = true)
    (omap id rs).
Proof.
  induction 1 as [| face r qs' rs' Hr _ IH]; simpl; [constructor |].
  destruct r as [m|]; simpl; [| done].
  constructor; [| done]. by destruct Hr as (_ & _ & Hpos & _).
Qed.

(** C9: [compare_faces] returns the similarity 0.0, and raises nothing,
    whenever either of its two embeddings is [None], whatever the other
    argument is. *)
Theorem compare_faces_absent :
  (∀ embedding2, compare_faces None embedding2 = PyFloat.zero) ∧
  (∀ embedding1, compare_faces embedding1 None = PyFloat.zero).
Proof.
  split; [done |]. intros embedding1. by destruct embedding1.
Qed.

(** C2, amended: [find_matches_for_embeddings] decides every detected face
    on its own, in order.  A face yields a result exactly when it qualifies:
    some candidate has a strictly positive similarity and the best
    similarity reaches the threshold (0.5 when none is passed).  The result
    carries the face's bounding box and the first candidate that attains
    the best similarity; a face that does not qualify is left out.  The call
    returns a list whenever every stored embedding parses. *)
Theorem best_match_policy qs users threshold :
  (∀ ms, find_matches_for_embeddings qs users threshold = Ok ms →
     ∃ rs, ms = omap id rs ∧
       Forall2 (face_outcome (default FaceUtils.self_threshold threshold) users)
         qs rs) ∧
  (all_decode users →
     ∃ ms, find_matches_for_embeddings qs users threshold = Ok ms).
Proof.
  unfold FaceUtils.find_matches_for_embeddings. split.
  - intros ms Hms. by apply match_faces_outcomes in Hms.
  - intros Hdec. by apply match_faces_total.
Qed.

(** C10: whatever the threshold, every emitted match has a strictly
    positive similarity; an empty candidate list yields the empty result;
    a face none of whose candidates has a positive similarity contributes
    nothing and raises nothing, so that a call in which no face has a
    positive candidate returns the empty list. *)
Theorem positive_matches_only qs users threshold :
  (∀ ms, find_matches_for_embeddings qs users threshold = Ok ms →
     Forall (λ m, PyFloat.gtb (FaceUtils.m_similarity m) PyFloat.zero = true)
       ms) ∧
  find_matches_for_embeddings qs [] threshold = Ok [] ∧
  (∀ q bbox qs', none_positive q users →
     find_matches_for_embeddings (qs ++ (q, bbox) :: qs') users threshold
     = find_matches_for_embeddings (qs ++ qs') users threshold) ∧
  ((∀ face, face ∈ qs → none_positive face.1 users) →
     find_matches_for_embeddings qs users threshold = Ok []).
Proof.
  unfold FaceUtils.find_matches_for_embeddings. repeat split.
  - intros ms Hms. apply match_faces_outcomes in Hms as (rs & -> & Hrs).
    by eapply outcomes_positive.
  - apply match_faces_no_users.
  - intros q bbox qs' Hnone. by apply match_faces_skip.
  - induction qs as [| [q bbox] rest IH]; intros Hall; [done |].
    rewrite (match_faces_skip _ users [] q bbox rest); simpl.
    + apply IH. intros face Hface. apply Hall. by right.
    + apply (Hall (q, bbox)). by left.
Qed.

End Policy.

(** *** Worked scenarios *)

Import Fixtures.

(** C2, as worded, fails: the only candidate of the face has similarity
    -1, which reaches the threshold -1, and still no result is emitted. *)
Lemma threshold_reached_without_match :
  find_matches1 [(Some (PyFloat.Fin 1), box0)] [emp_neg]
    (Some (PyFloat.Fin (-1))) = Ok [] ∧
  FaceUtils.first_best norm1 div1 dot1 loads1 row_embedding
    (Some (PyFloat.Fin 1)) [emp_neg] emp_neg (PyFloat.Fin (-1)) ∧
  PyFloat.geb (PyFloat.Fin (-1)) (PyFloat.Fin (-1)) = true ∧
  ¬ FaceUtils.face_outcome_as_specified norm1 div1 dot1 loads1 row_embedding
      (PyFloat.Fin (-1)) [emp_neg] (Some (PyFloat.Fin 1), box0) None.
Proof.
  assert (FaceUtils.first_best norm1 div1 dot1 loads1 row_embedding
            (Some (PyFloat.Fin 1)) [emp_neg] emp_neg (PyFloat.Fin (-1)))
    as Hbest.
  { exists [], []. repeat split; try done;
      intros v Hv; by apply elem_of_nil in Hv. }
  repeat split; try done.
  intros Hspec. by specialize (Hspec emp_neg (PyFloat.Fin (-1)) Hbest).
Qed.

(** A stored embedding that does not parse makes the whole call raise. *)
Lemma stored_embedding_must_parse :
  find_matches1 [(Some (PyFloat.Fin 1), box0)] [emp_pos; emp_bad] None
  = Raise (PyException "JSONDecodeError" "Expecting value").
Proof. reflexivity. Qed.

Lemma fixtures_decode :
  FaceUtils.all_decode loads1 row_embedding [emp_neg; emp_pos; emp_pos'].
Proof.
  intros u Hu. unfold FaceUtils.str_to_embedding.
  repeat (apply elem_of_cons in Hu as [-> | Hu]); [by eexists .. |].
  by apply elem_of_nil in Hu.
Qed.

(** Two faces against three rows at the default threshold: the first face
    ties on the two positive rows and keeps the first of them. *)
Lemma best_match_policy_witness :
  (∃ rs,
     [FaceUtils.MatchResult emp_pos (PyFloat.Fin (2 # 2)) box0;
      FaceUtils.MatchResult emp_neg (PyFloat.Fin (3 # 3)) box1] = omap id rs ∧
     Forall2
       (FaceUtils.face_outcome norm1 div1 dot1 loads1 row_embedding
          PyFloat.half [emp_neg; emp_pos; emp_pos'])
       [(Some (PyFloat.Fin 1), box0); (Some (PyFloat.Fin (-3)), box1)] rs) ∧
  (∃ ms,
     find_matches1
       [(Some (PyFloat.Fin 1), box0); (Some (PyFloat.Fin (-3)), box1)]
       [emp_neg; emp_pos; emp_pos'] None = Ok ms).
Proof.
  destruct (best_match_policy norm1 div1 dot1 loads1 row_embedding
              [(Some (PyFloat.Fin 1), box0); (Some (PyFloat.Fin (-3)), box1)]
              [emp_neg; emp_pos; emp_pos'] None) as [Hshape Htotal].
  split.
  - apply Hshape. vm_compute. reflexivity.
  - apply Htotal. exact fixtures_decode.
Defined.

Lemma fixture_none_positive :
  FaceUtils.none_positive norm1 div1 dot1 loads1 row_embedding
    (Some (PyFloat.Fin 1)) [emp_neg].
Proof.
  intros v Hv. apply elem_of_cons in Hv as [-> | Hv].
  - by eexists.
  - by apply elem_of_nil in Hv.
Qed.

(** At threshold -1: a face with a positive candidate is matched with a
    positive similarity; a face facing only a negative candidate, or no
    candidate at all, yields nothing. *)
Lemma positive_matches_only_witness :
  Forall (λ m, PyFloat.gtb (FaceUtils.m_similarity m) PyFloat.zero = true)
    [FaceUtils.MatchResult emp_pos (PyFloat.Fin (2 # 2)) box0] ∧
  find_matches1 [(Some (PyFloat.Fin 1), box0)] []
    (Some (PyFloat.Fin (-1))) = Ok [] ∧
  find_matches1 [(Some (PyFloat.Fin 1), box0)] [emp_neg]
    (Some (PyFloat.Fin (-1))) = Ok [] ∧
  find_matches1 ([(Some (PyFloat.Fin 1), box0)] ++ [(Some (PyFloat.Fin 1), box1)])
    [emp_neg] (Some (PyFloat.Fin (-1)))
  = find_matches1 ([(Some (PyFloat.Fin 1), box0)] ++ []) [emp_neg]
      (Some (PyFloat.Fin (-1))).
Proof.
  destruct (positive_matches_only norm1 div1 dot1 loads1 row_embedding
              [(Some (PyFloat.Fin 1), box0)] [emp_neg; emp_pos]
              (Some (PyFloat.Fin (-1))))
    as (Hpos & _).
  destruct (positive_matches_only norm1 div1 dot1 loads1 row_embedding
              [(Some (PyFloat.Fin 1), box0)] [emp_neg]
              (Some (PyFloat.Fin (-1))))
    as (_ & Hempty & Hskip & Hnone).
  split; [| split; [| split]].
  - apply Hpos. vm_compute. reflexivity.
  - exact Hempty.
  - apply Hnone. intros face Hface.
    apply elem_of_cons in Hface as [-> | Hface]; [exact fixture_none_positive |].
    by apply elem_of_nil in Hface.
  - apply (Hskip (Some (PyFloat.Fin 1)) box1 []). exact fixture_none_positive.
Defined.

End Matching.

(** ** The relay queues *)
Module RelayQueue.

Section Bounded.

Context {A : Type}.
Implicit Types (q : PyQueue.t A) (item : A).

Lemma put_full q item :
  PyQueue.full q = true → PyQueue.put q item = None.
Proof. unfold PyQueue.put. by intros ->. Qed.

Lemma put_room q item :
  PyQueue.full q = false →
  ∃ q', PyQueue.put q item = Some q' ∧
        PyQueue.maxsize q' = PyQueue.maxsize q ∧
        PyQueue.items q' = PyQueue.items q ++ [item] ∧
        PyQueue.qsize q' = (PyQueue.qsize q + 1)%Z.
Proof.
  unfold PyQueue.put. intros ->. eexists. split; [done |].
  unfold PyQueue.qsize. simpl. rewrite length_app. simpl.
  repeat split. lia.
Qed.

Lemma full_iff q :
  (0 < PyQueue.maxsize q)%Z →
  PyQueue.full q = true ↔ (PyQueue.maxsize q ≤ PyQueue.qsize q)%Z.
Proof.
  intros Hpos. unfold PyQueue.full.
  rewrite andb_true_iff, !bool_decide_eq_true. tauto.
Qed.

Lemma get_shrinks q x q' :
  PyQueue.get q = Some (x, q') →
  PyQueue.maxsize q' = PyQueue.maxsize q ∧
  PyQueue.items q = x :: PyQueue.items q' ∧
  PyQueue.qsize q' = (PyQueue.qsize q - 1)%Z.
Proof.
  unfold PyQueue.get, PyQueue.qsize.
  destruct (PyQueue.items q) as [| y rest] eqn:E; [done |].
  intros [= <- <-]. simpl. repeat split. lia.
Qed.

(** A bounded queue stays within its bound, whatever is done to it. *)
Lemma step_bounded q o :
  (0 < PyQueue.maxsize q)%Z →
  (PyQueue.qsize q ≤ PyQueue.maxsize q)%Z →
  PyQueue.maxsize (PyQueue.step q o) = PyQueue.maxsize q ∧
  (PyQueue.qsize (PyQueue.step q o) ≤ PyQueue.maxsize q)%Z.
Proof.
  intros Hpos Hle. destruct o as [item | |]; simpl.
  - destruct (PyQueue.full q) eqn:Hfull.
    + by rewrite put_full.
    + destruct (put_room q item Hfull) as (q' & -> & Hm & _ & Hsz). simpl.
      split; [done |]. rewrite Hsz.
      apply not_true_iff_false in Hfull. rewrite full_iff in Hfull by done.
      lia.
  - destruct (PyQueue.get q) as [[x q']|] eqn:Hget; [| done].
    apply get_shrinks in Hget as (Hm & _ & Hsz). split; [done | lia].
  - unfold PyQueue.task_done. by case_bool_decide.
Qed.

Lemma run_bounded ops : ∀ q,
  (0 < PyQueue.maxsize q)%Z →
  (PyQueue.qsize q ≤ PyQueue.maxsize q)%Z →
  PyQueue.maxsize (PyQueue.run q ops) = PyQueue.maxsize q ∧
  (PyQueue.qsize (PyQueue.run q ops) ≤ PyQueue.maxsize q)%Z.
Proof.
  induction ops as [| o rest IH]; intros q Hpos Hle; simpl; [done |].
  destruct (step_bounded q o Hpos Hle) as [Hm Hsz].
  destruct (IH (PyQueue.step q o)) as [Hm' Hsz']; [lia .. |].
  split; [congruence | lia].
Qed.

Lemma relay_bound_holds q item :
  PyQueue.maxsize q = 100%Z → (PyQueue.qsize q ≤ 100)%Z →
  Dependencies.relay_bound q item.
Proof.
  intros Hm Hsz. unfold Dependencies.relay_bound.
  split; [done |]. split; [done |]. split.
  - intros Hfull.
    assert (PyQueue.full q = true) as Hf by (apply full_iff; lia).
    split; [by apply put_full |]. split; [by simpl; rewrite put_full |].
    intros x q' Hget. apply get_shrinks in Hget as (Hm' & _ & Hsz').
    destruct (put_room q' item) as (q'' & -> & _ & _ & Hsz'').
    + apply not_true_iff_false. rewrite full_iff by lia. lia.
    + exists q''. split; [done | lia].
  - intros Hroom. destruct (put_room q item) as (q' & -> & _); [| done].
    apply not_true_iff_false. rewrite full_iff by lia. lia.
Qed.

End Bounded.

(** C7: both relay queues are created with capacity 100.  Whatever
    producers and consumers do, neither ever holds more than 100 items; a
    [put] on a queue that holds 100 items blocks and leaves the queue as it
    was; once an item has been taken off a full queue, a [put] is accepted
    again (and fills the queue); below 100 items a [put] is accepted. *)
Theorem relay_queues_bounded
    (event_ops : list (PyQueue.op (A := Websocket.event_item)))
    (response_ops : list (PyQueue.op (A := Websocket.response_item)))
    (event : Websocket.event_item) (response : Websocket.response_item) :
  Dependencies.relay_bound
    (PyQueue.run Dependencies.processing_results_queue event_ops) event ∧
  Dependencies.relay_bound
    (PyQueue.run Dependencies.websocket_responses_queue response_ops) response.
Proof.
  split.
  - destruct (run_bounded event_ops
                (Dependencies.processing_results_queue
                   (A := Websocket.event_item))) as [Hm Hsz]; [done .. |].
    by apply relay_bound_holds.
  - destruct (run_bounded response_ops
                (Dependencies.websocket_responses_queue
                   (A := Websocket.response_item))) as [Hm Hsz]; [done .. |].
    by apply relay_bound_holds.
Qed.

(** A hundred events fill the event queue: the next [put] blocks, and is
    accepted once one event has been taken. *)
Lemma relay_queues_bounded_witness :
  PyQueue.put
    (PyQueue.run Dependencies.processing_results_queue
       (replicate 100 (PyQueue.Put (Websocket.EventItem None None))))
    (Websocket.EventItem None None) = None ∧
  is_Some
    (PyQueue.put
       (PyQueue.run Dependencies.processing_results_queue
          (replicate 100 (PyQueue.Put (Websocket.EventItem None None))
           ++ [PyQueue.Get]))
       (Websocket.EventItem None None)).
Proof.
  split.
  - destruct (relay_queues_bounded
                (replicate 100 (PyQueue.Put (Websocket.EventItem None None)))
                [] (Websocket.EventItem None None)
                (Websocket.ErrorItem "c1" "boom"))
      as [(_ & _ & Hfull & _) _].
    apply Hfull. vm_compute. reflexivity.
  - destruct (relay_queues_bounded
                (replicate 100 (PyQueue.Put (Websocket.EventItem None None))
                 ++ [PyQueue.Get])
                [] (Websocket.EventItem None None)
                (Websocket.ErrorItem "c1" "boom"))
      as [(_ & _ & _ & Hroom) _].
    apply Hroom. vm_compute. reflexivity.
Defined.

End RelayQueue.

(** ** Dictionaries *)
Module PyDictFacts.

Section Facts.

Context {K V : Type} `{EqDecision K}.
Implicit Types (d other : list (K * V)) (k : K) (v : V).

Lemma get_None d k : PyDict.get d k = None ↔ k ∉ PyDict.keys d.
Proof.
  induction d as [| [k' v'] rest IH]; simpl.
  - split; [intros _; apply not_elem_of_nil | done].
  - rewrite not_elem_of_cons. destruct (decide (k' = k)) as [-> | Hne].
    + split; [done | intros [? _]; done].
    + rewrite IH. split; [intros ?; split; [congruence | done] | tauto].
Qed.

Lemma mem_false d k : PyDict.mem d k = false ↔ k ∉ PyDict.keys d.
Proof.
  unfold PyDict.mem. rewrite <- get_None. by destruct (PyDict.get d k).
Qed.

(** Assigning to a new key appends the entry. *)
Lemma set_fresh d k v : k ∉ PyDict.keys d → PyDict.set d k v = d ++ [(k, v)].
Proof.
  induction d as [| [k' v'] rest IH]; simpl; [done |].
  rewrite not_elem_of_cons. intros [Hne Hnot].
  destruct (decide (k' = k)); [congruence |]. by rewrite IH.
Qed.

Lemma keys_set d k v :
  PyDict.keys (PyDict.set d k v)
  = if PyDict.mem d k then PyDict.keys d else PyDict.keys d ++ [k].
Proof.
  unfold PyDict.mem. induction d as [| [k' v'] rest IH]; simpl; [done |].
  destruct (decide (k' = k)) as [-> | Hne]; simpl; [done |].
  rewrite IH. unfold PyDict.keys. by destruct (PyDict.get rest k).
Qed.

Lemma NoDup_keys_set d k v :
  NoDup (PyDict.keys d) → NoDup (PyDict.keys (PyDict.set d k v)).
Proof.
  intros Hnd. rewrite keys_set. destruct (PyDict.mem d k) eqn:Hmem; [done |].
  apply NoDup_app. split; [done |]. split; [| apply NoDup_singleton].
  intros x Hx ->%list_elem_of_singleton. by apply mem_false in Hmem.
Qed.

(** Deleting a key of a dict removes exactly its entry. *)
Lemma del_split (d1 : list (K * V)) k v (d2 : list (K * V)) :
  k ∉ PyDict.keys d1 → PyDict.del (d1 ++ (k, v) :: d2) k = d1 ++ d2.
Proof.
  induction d1 as [| [k' v'] rest IH]; simpl.
  - intros _. by destruct (decide (k = k)).
  - rewrite not_elem_of_cons. intros [Hne Hnot].
    destruct (decide (k' = k)); [congruence |]. by rewrite IH.
Qed.

End Facts.

End PyDictFacts.

(** ** The directory cache *)
Module DirectoryCache.
Import Dependencies.

(** Assigning under a key the dict does not hold appends the entry. *)
Lemma set_item_fresh {V} (d : list (pyval * V)) k v :
  dict_key k ∉ dict_key <$> PyDict.keys d → set_item d k v = d ++ [(k, v)].
Proof.
  induction d as [| [k' v'] rest IH]; simpl; [done |].
  rewrite not_elem_of_cons. intros [Hne Hnot].
  destruct (decide (dict_key k' = dict_key k)); [congruence |].
  by rewrite IH.
Qed.

Lemma keys_set_item_mem {V} (d : list (pyval * V)) k v :
  dict_key k ∈ dict_key <$> PyDict.keys d →
  dict_key <$> PyDict.keys (set_item d k v) = dict_key <$> PyDict.keys d.
Proof.
  induction d as [| [k' v'] rest IH]; simpl; [by intros ?%elem_of_nil |].
  destruct (decide (dict_key k' = dict_key k)) as [Heq | Hne]; simpl; [done |].
  intros [? | Hin]%elem_of_cons; [congruence |].
  f_equal. by apply IH.
Qed.

(** No two keys of a dict are one key. *)
Lemma NoDup_keys_set_item {V} (d : list (pyval * V)) k v :
  NoDup (dict_key <$> PyDict.keys d) →
  NoDup (dict_key <$> PyDict.keys (set_item d k v)).
Proof.
  intros Hnd.
  destruct (decide (dict_key k ∈ dict_key <$> PyDict.keys d)) as [Hin | Hnot].
  - by rewrite keys_set_item_mem.
  - rewrite set_item_fresh by done.
    unfold PyDict.keys. rewrite !fmap_app. simpl.
    apply NoDup_app. split; [done |]. split; [| apply NoDup_singleton].
    by intros x Hx ->%list_elem_of_singleton.
Qed.

(** Updating an empty dict with a dict gives that dict back. *)
Lemma update_items_app {V} (d other : list (pyval * V)) :
  NoDup (dict_key <$> PyDict.keys (d ++ other)) →
  update_items d other = d ++ other.
Proof.
  unfold update_items. revert d.
  induction other as [| [k v] rest IH]; intros d Hnd; simpl.
  - by rewrite app_nil_r.
  - replace (d ++ (k, v) :: rest) with ((d ++ [(k, v)]) ++ rest) in *
      by (by rewrite <- app_assoc).
    rewrite set_item_fresh; [by apply IH |].
    unfold PyDict.keys in *. rewrite !fmap_app in Hnd.
    apply NoDup_app in Hnd as [Hnd _].
    apply NoDup_app in Hnd as (_ & Hdisj & _).
    intros Hin. apply (Hdisj _ Hin). by left.
Qed.

Lemma update_items_nil {V} (other : list (pyval * V)) :
  NoDup (dict_key <$> PyDict.keys other) → update_items [] other = other.
Proof. intros Hnd. by apply (update_items_app []). Qed.

Lemma by_object_id_NoDup employees : ∀ acc fresh,
  NoDup (dict_key <$> PyDict.keys acc) →
  by_object_id employees acc = Ok fresh →
  NoDup (dict_key <$> PyDict.keys fresh).
Proof.
  induction employees as [| employee rest IH]; intros acc fresh Hnd; simpl.
  - by intros [= <-].
  - destruct (PyDict.get employee "objectId") as [object_id|]; [| done].
    apply IH. by apply NoDup_keys_set_item.
Qed.

Lemma refresh_due_later t t' d :
  (t <= t')%Q → refresh_due t d = true → refresh_due t' d = true.
Proof.
  unfold refresh_due. intros Hle.
  rewrite !orb_true_iff, !PyFloatFacts.Qltb_lt.
  intros [Hold | Hempty]; [left; lra | by right].
Qed.

Lemma refresh_not_due t d :
  (t - employee_cache_last_updated d <= EMPLOYEE_CACHE_TTL)%Q →
  employee_cache d ≠ [] → refresh_due t d = false.
Proof.
  intros Hle Hne. unfold refresh_due. apply orb_false_iff. split.
  - by apply PyFloatFacts.Qltb_ge.
  - by apply bool_decide_eq_false.
Qed.

(** A read that refreshes: one query, the snapshot replaced as a whole. *)
Lemma read_refresh t d employees fresh :
  refresh_due t d = true → by_object_id employees [] = Ok fresh →
  get_cached_employees t (Ok employees) d
  = (Directory fresh t (S (query_calls d)), Ok (PyDict.values fresh)).
Proof.
  intros Hdue Hfresh. unfold get_cached_employees. rewrite Hdue, Hfresh.
  simpl. rewrite update_items_nil; [done |].
  eapply (by_object_id_NoDup employees []); [apply NoDup_nil_2 | done].
Qed.

Lemma read_cached t store d :
  refresh_due t d = false →
  get_cached_employees t store d = (d, Ok (PyDict.values (employee_cache d))).
Proof. intros Hdue. unfold get_cached_employees. by rewrite Hdue. Qed.

(** After a read that returned, the value returned is the snapshot. *)
Lemma read_returns_snapshot t store d d' snapshot :
  get_cached_employees t store d = (d', Ok snapshot) →
  snapshot = PyDict.values (employee_cache d').
Proof.
  unfold get_cached_employees. destruct (refresh_due t d).
  - destruct store as [employees | e]; [| done]. simpl.
    destruct (by_object_id employees []) as [fresh | e]; [| done].
    by intros [= <- <-].
  - by intros [= <- <-].
Qed.

(** C4, amended: a read refreshes exactly when more than 300 seconds have
    passed since the last refresh or the snapshot is empty.  A refreshing
    read queries the store once, replaces the snapshot as a whole, sets the
    timestamp to the time of the call and returns the new values; any other
    read queries nothing, changes nothing and returns the snapshot.  Hence a
    second read within the TTL window of the last refresh, on a snapshot
    that is not empty, makes no query and returns what the first returned. *)
Theorem cache_read t store d :
  EMPLOYEE_CACHE_TTL = 300%Q ∧
  (refresh_due t d = true ↔
     (EMPLOYEE_CACHE_TTL < t - employee_cache_last_updated d)%Q
     ∨ employee_cache d = []) ∧
  (refresh_due t d = true →
     ∀ employees fresh,
       store = Ok employees → by_object_id employees [] = Ok fresh →
       get_cached_employees t store d
       = (Directory fresh t (S (query_calls d)), Ok (PyDict.values fresh))) ∧
  (refresh_due t d = false →
     get_cached_employees t store d
     = (d, Ok (PyDict.values (employee_cache d)))) ∧
  (∀ d1 snapshot t2 store2,
     get_cached_employees t store d = (d1, Ok snapshot) →
     (t2 - employee_cache_last_updated d1 <= EMPLOYEE_CACHE_TTL)%Q →
     employee_cache d1 ≠ [] →
     get_cached_employees t2 store2 d1 = (d1, Ok snapshot)).
Proof.
  split; [done |]. split; [| split; [| split]].
  - unfold refresh_due.
    by rewrite orb_true_iff, PyFloatFacts.Qltb_lt, bool_decide_eq_true.
  - intros Hdue employees fresh -> Hfresh. by apply read_refresh.
  - apply read_cached.
  - intros d1 snapshot t2 store2 Hfirst Hwindow Hne.
    rewrite read_cached by (by apply refresh_not_due).
    by rewrite (read_returns_snapshot _ _ _ _ _ Hfirst).
Qed.

(** C5: when the query of a due refresh raises, the exception reaches the
    caller, the snapshot and the timestamp stay as they were (one more
    query has been counted), and any later read queries the store again. *)
Theorem cache_refresh_failure t e d :
  refresh_due t d = true →
  get_cached_employees t (Raise e) d
  = (Directory (employee_cache d) (employee_cache_last_updated d)
       (S (query_calls d)), Raise e) ∧
  ∀ t' store',
    (t <= t')%Q →
    query_calls
      (get_cached_employees t' store' (get_cached_employees t (Raise e) d).1).1
    = S (S (query_calls d)).
Proof.
  intros Hdue.
  assert (get_cached_employees t (Raise e) d
          = (Directory (employee_cache d) (employee_cache_last_updated d)
               (S (query_calls d)), Raise e)) as Hfail
    by (unfold get_cached_employees; by rewrite Hdue).
  split; [done |]. intros t' store' Hle. rewrite Hfail. simpl.
  assert (refresh_due t'
            (Directory (employee_cache d) (employee_cache_last_updated d)
               (S (query_calls d))) = true) as Hagain
    by (by apply (refresh_due_later t t' d)).
  unfold get_cached_employees. rewrite Hagain. simpl.
  destruct store' as [employees | e']; [| done].
  by destruct (by_object_id employees []).
Qed.

Import Fixtures.

(** C4, as worded, fails: the store is empty at the first read, so the
    snapshot stays empty, and a second read one second later queries the
    store again and returns something else. *)
Lemma empty_snapshot_is_refetched :
  get_cached_employees 1000 (Ok []) initial_directory
  = (Directory [] 1000 1, Ok []) ∧
  (1001 - 1000 <= EMPLOYEE_CACHE_TTL)%Q ∧
  get_cached_employees 1001 (Ok [alice]) (Directory [] 1000 1)
  = (Directory [(VStr "e1", alice)] 1001 2, Ok [alice]).
Proof.
  split; [reflexivity |]. split; [| reflexivity].
  vm_compute. discriminate.
Qed.

(** A first read at time 1000 loads two rows; a read 300 seconds later is
    served from the snapshot. *)
Lemma cache_read_witness :
  get_cached_employees 1000 (Ok [alice; bob]) initial_directory
  = (Directory [(VStr "e1", alice); (VStr "e2", bob)] 1000 1,
     Ok [alice; bob]) ∧
  get_cached_employees 1300 (Raise PyCancelled)
    (Directory [(VStr "e1", alice); (VStr "e2", bob)] 1000 1)
  = (Directory [(VStr "e1", alice); (VStr "e2", bob)] 1000 1,
     Ok [alice; bob]).
Proof.
  destruct (cache_read 1000 (Ok [alice; bob]) initial_directory)
    as (_ & _ & Hrefresh & _ & Hagain).
  assert (get_cached_employees 1000 (Ok [alice; bob]) initial_directory
          = (Directory [(VStr "e1", alice); (VStr "e2", bob)] 1000 1,
             Ok [alice; bob])) as Hfirst.
  { apply (Hrefresh eq_refl [alice; bob]); reflexivity. }
  split; [exact Hfirst |].
  apply (Hagain _ _ 1300%Q (Raise PyCancelled) Hfirst); [| done].
  vm_compute. discriminate.
Defined.

(** The store is down when a stale directory is read at time 1000. *)
Lemma cache_refresh_failure_witness :
  get_cached_employees 1000
    (Raise (PyException "ConnectionError" "store down")) stale_directory
  = (Directory [(VStr "e1", alice)] 100 2,
     Raise (PyException "ConnectionError" "store down")) ∧
  query_calls
    (get_cached_employees 1001 (Ok [alice; bob])
       (get_cached_employees 1000
          (Raise (PyException "ConnectionError" "store down"))
          stale_directory).1).1 = 3.
Proof.
  destruct (cache_refresh_failure 1000
              (PyException "ConnectionError" "store down") stale_directory)
    as [Hfail Hnext]; [reflexivity |].
  split; [exact Hfail |].
  apply Hnext. vm_compute. discriminate.
Defined.

End DirectoryCache.

(** ** The broadcaster *)
Module Broadcaster.
Import Websocket.

Section Fanout.

Context {WebSocket : Type}.
Variable send_json : WebSocket → message → send_outcome.

Local Abbreviation _send_message_to_client :=
  (Websocket._send_message_to_client send_json).
Local Abbreviation broadcast_attendance_update :=
  (Websocket.broadcast_attendance_update send_json).

Implicit Types (w : world (WebSocket := WebSocket)) (m : message)
  (c : gmap string WebSocket).

(** The sends of a broadcast, gathered: what was written, and what each
    task reported. *)
Lemma gather_sends m (connections : list (string * WebSocket)) : ∀ w,
  gather (map (λ kv, _send_message_to_client kv.2 m (Some kv.1)) connections) w
  = (set_delivered
       (delivered w
        ++ ((λ kv, (kv.2, m))
              <$> filter (λ kv, send_json kv.2 m = Written) connections)) w,
     (λ kv, Returned (goes_through (send_json kv.2 m))) <$> connections).
Proof.
  induction connections as [| [client_id ws] rest IH]; intros w; simpl.
  - rewrite app_nil_r. by destruct w.
  - unfold Websocket._send_message_to_client at 1. simpl.
    rewrite filter_cons. simpl.
    destruct (send_json ws m) eqn:Hsend; simpl.
    + rewrite IH. simpl. by rewrite <- app_assoc.
    + rewrite IH. simpl. by destruct w.
    + rewrite IH. simpl. by destruct w.
Qed.

(** The clients whose gathered result is a failure. *)
Lemma disconnected_clients m (connections : list (string * WebSocket)) :
  (filter (λ cr, delivery_failed cr.2 = true)
     (zip connections.*1
        ((λ kv, Returned (goes_through (send_json kv.2 m))) <$> connections))).*1
  = (filter (λ kv, send_json kv.2 m = Failed) connections).*1.
Proof.
  induction connections as [| [client_id ws] rest IH]; simpl; [done |].
  rewrite !filter_cons. simpl.
  destruct (send_json ws m); simpl; [exact IH | exact IH | f_equal; exact IH].
Qed.

Lemma evict_delete client_id c : evict client_id c = delete client_id c.
Proof.
  unfold evict. destruct (c !! client_id) eqn:E; [done |].
  by rewrite delete_id.
Qed.

(** Removal is idempotent, and harmless for a client already gone. *)
Lemma evict_idempotent client_id c :
  evict client_id (evict client_id c) = evict client_id c.
Proof. rewrite !evict_delete. apply delete_delete_eq. Qed.

Lemma evict_absent client_id c : c !! client_id = None → evict client_id c = c.
Proof. unfold evict. by intros ->. Qed.

Lemma lookup_evict_all (clients : list string) : ∀ c client_id,
  foldl (λ c client_id, evict client_id c) c clients !! client_id
  = if decide (client_id ∈ clients) then None else c !! client_id.
Proof.
  induction clients as [| x rest IH]; intros c client_id; cbn [foldl].
  - case_decide as Hin; [by apply elem_of_nil in Hin | done].
  - rewrite IH, evict_delete.
    destruct (decide (client_id ∈ rest)) as [Hin | Hnotin];
      destruct (decide (client_id ∈ x :: rest)) as [Hin' | Hnotin'];
      try done.
    + exfalso. apply Hnotin'. by right.
    + apply elem_of_cons in Hin' as [-> | ?]; [| done].
      apply lookup_delete_eq.
    + apply lookup_delete_ne. intros ->. apply Hnotin'. by left.
Qed.

(** What the registry looks like after the failed clients are removed. *)
Lemma lookup_after_removal m c client_id :
  foldl (λ c client_id, evict client_id c) c
    (filter (λ kv, send_json kv.2 m = Failed) (map_to_list c)).*1 !! client_id
  = ws ← c !! client_id;
    if goes_through (send_json ws m) then Some ws else None.
Proof.
  rewrite lookup_evict_all.
  destruct (decide _) as [Hin | Hnotin].
  - apply list_elem_of_fmap in Hin
      as ([x ws'] & -> & [Hfail Hin]%list_elem_of_filter).
    apply elem_of_map_to_list in Hin. simpl in *. rewrite Hin. simpl.
    by rewrite Hfail.
  - destruct (c !! client_id) as [ws|] eqn:Hc; [| done]. simpl.
    destruct (send_json ws m) eqn:Hsend; [done | done |].
    exfalso. apply Hnotin.
    apply list_elem_of_fmap. exists (client_id, ws). split; [done |].
    apply list_elem_of_filter. split; [done |].
    by apply elem_of_map_to_list.
Qed.

(** What a broadcast of a dict does to the world: the message is on the
    wire of the sockets whose call wrote it, and the clients whose send
    raised are gone. *)
Lemma broadcast_dict (d : pydict) w :
  ∃ w',
    broadcast_attendance_update (PDict d) w = (w', Ok tt) ∧
    (∀ client_id,
       active_connections w' !! client_id
       = ws ← active_connections w !! client_id;
         if goes_through (send_json ws (AttendanceUpdate (with_object_id d)))
         then Some ws else None) ∧
    delivered w'
    = delivered w
      ++ ((λ kv, (kv.2, AttendanceUpdate (with_object_id d)))
            <$> filter (λ kv, send_json kv.2
                                (AttendanceUpdate (with_object_id d))
                              = Written)
                  (map_to_list (active_connections w))) ∧
    beyond_sockets w' = beyond_sockets w.
Proof.
  unfold Websocket.broadcast_attendance_update. case_bool_decide as Hsize.
  - exists w. apply map_size_empty_inv in Hsize.
    rewrite Hsize, map_to_list_empty, filter_nil. simpl.
    rewrite app_nil_r. repeat split; try done.
    all: intros client_id; by rewrite lookup_empty.
  - rewrite gather_sends, disconnected_clients.
    eexists. split; [done |]. simpl. repeat split; try done.
    all: intros client_id; apply lookup_after_removal.
Qed.

End Fanout.

(** Sends that are not awaited write nothing and evict nobody. *)
Lemma broadcast_dict_not_awaited {WebSocket : Type} (d : pydict)
    (w : world (WebSocket := WebSocket)) :
  ∃ w',
    Websocket.broadcast_attendance_update fastapi_send_json (PDict d) w
    = (w', Ok tt) ∧
    delivered w' = delivered w ∧
    active_connections w' = active_connections w ∧
    beyond_sockets w' = beyond_sockets w.
Proof.
  destruct (broadcast_dict fastapi_send_json d w)
    as (w' & Hrun & Hreg & Hsent & Hframe).
  exists w'. split; [exact Hrun |]. split; [| split; [| exact Hframe]].
  - rewrite Hsent.
    assert (∀ (m : message) (l : list (string * WebSocket)),
              filter (λ kv, fastapi_send_json kv.2 m = Written) l = [])
      as Hnone.
    { intros m l. induction l as [| kv l IH]; [done |].
      rewrite filter_cons. by destruct (decide _). }
    rewrite Hnone. simpl. by rewrite app_nil_r.
  - apply map_eq. intros client_id. rewrite Hreg.
    by destruct (active_connections w !! client_id).
Qed.

(** C6, where the code departs from it: the sends are handed to the thread
    pool as calls of [websocket.send_json], which on [fastapi.WebSocket] is
    a coroutine function, and the coroutine a call returns is never
    awaited.  So a broadcast of an event over such connections changes
    nothing, whatever the registry and whatever state the connections are
    in: no socket receives the message, every send task reports success,
    and no connection is removed. *)
Theorem broadcast_not_awaited {WebSocket : Type} (d : pydict)
    (w : world (WebSocket := WebSocket)) :
  Websocket.broadcast_attendance_update fastapi_send_json (PDict d) w
  = (w, Ok tt).
Proof.
  destruct (broadcast_dict_not_awaited d w)
    as (w' & -> & Hsent & Hreg & Hframe).
  f_equal. unfold beyond_sockets in Hframe. injection Hframe as He Hr Hc Hp.
  destruct w, w'. simpl in *. by subst.
Qed.

Import Fixtures.

(** Three registered [fastapi.WebSocket]s, whatever state they are in:
    after one broadcast nothing is on the wire and all of them, the second
    included, are still registered. *)
Lemma broadcast_not_awaited_witness :
  Websocket.broadcast_attendance_update fastapi_send_json (PDict deletion)
    three_clients = (three_clients, Ok tt) ∧
  delivered three_clients = [] ∧
  active_connections three_clients !! "c2" = Some 2%nat.
Proof.
  split; [apply (broadcast_not_awaited deletion three_clients) |].
  split; reflexivity.
Defined.

End Broadcaster.

(** ** The two consumer loops *)
Module Consumers.
Import Websocket.

Section Loops.

Context {WebSocket : Type}.
Variable send_json : WebSocket → message → send_outcome.

Local Abbreviation _send_message_to_client :=
  (Websocket._send_message_to_client send_json).
Local Abbreviation send_notification :=
  (Websocket.send_notification send_json).
Local Abbreviation report := (Websocket.report send_json).
Local Abbreviation broadcast_attendance_update :=
  (Websocket.broadcast_attendance_update send_json).
Local Abbreviation process_queue_body :=
  (Websocket.process_queue_body send_json).
Local Abbreviation process_websocket_responses_body :=
  (Websocket.process_websocket_responses_body send_json).
Local Abbreviation process_queue := (Websocket.process_queue send_json).
Local Abbreviation process_websocket_responses :=
  (Websocket.process_websocket_responses send_json).
Local Abbreviation world := (Websocket.world (WebSocket := WebSocket)).
Local Abbreviation io := (Websocket.io (WebSocket := WebSocket)).
Local Abbreviation beyond_sockets :=
  (Websocket.beyond_sockets (WebSocket := WebSocket)).
Local Abbreviation beyond_events :=
  (Websocket.beyond_events (WebSocket := WebSocket)).
Local Abbreviation beyond_responses :=
  (Websocket.beyond_responses (WebSocket := WebSocket)).
Local Abbreviation evict_unless :=
  (Websocket.evict_unless (WebSocket := WebSocket)).
Local Abbreviation events_task_done :=
  (Websocket.events_task_done (WebSocket := WebSocket)).
Local Abbreviation responses_task_done :=
  (Websocket.responses_task_done (WebSocket := WebSocket)).

Implicit Types (w : world).

(** *** Composition *)

Lemma bind_run {A B} (m : io A) (k : A → io B) w :
  bind m k w
  = match m w with
    | (w', Ok a) => k a w'
    | (w', Raise e) => (w', Raise e)
    end.
Proof. done. Qed.

Lemma raises_bind {A B} (m : io A) (k : A → io B) :
  raises_exceptions_only m → (∀ a, raises_exceptions_only (k a)) →
  raises_exceptions_only (bind m k).
Proof.
  intros Hm Hk w w' e. rewrite bind_run.
  destruct (m w) as [w1 [a | e1]] eqn:Hrun.
  - apply Hk.
  - intros [= <- <-]. by eapply Hm.
Qed.

Lemma raises_ret {A} (a : A) :
  raises_exceptions_only (ret a : io A).
Proof. by intros w w' e. Qed.

Lemma raises_modify (f : world → world) : raises_exceptions_only (modify f).
Proof. by intros w w' e. Qed.

Lemma preserves_bind {A B X} (f : world → X) (m : io A) (k : A → io B) :
  preserves f m → (∀ a, preserves f (k a)) → preserves f (bind m k).
Proof.
  intros Hm Hk w. rewrite bind_run. specialize (Hm w).
  destruct (m w) as [w1 [a | e1]]; simpl in *; [| done].
  by rewrite Hk.
Qed.

Lemma preserves_ret {A X} (f : world → X) (a : A) : preserves f (ret a).
Proof. by intros w. Qed.

(** *** Sends, replies, broadcasts *)

Lemma send_never_raises ws m client_id :
  raises_exceptions_only (_send_message_to_client ws m client_id).
Proof.
  intros w w' e. unfold Websocket._send_message_to_client.
  by destruct (send_json ws m).
Qed.

Lemma send_frame ws m client_id :
  preserves beyond_sockets (_send_message_to_client ws m client_id).
Proof.
  intros w. unfold Websocket._send_message_to_client.
  by destruct (send_json ws m).
Qed.

Lemma evict_unless_frame success client_id :
  preserves beyond_sockets (evict_unless success client_id).
Proof. intros w. unfold Websocket.evict_unless, modify. by destruct success. Qed.

Lemma report_raises ws client_id m text notification_type :
  raises_exceptions_only (report ws client_id m text notification_type).
Proof.
  apply raises_bind; [apply send_never_raises |]. intros success.
  apply raises_bind; [apply send_never_raises |]. intros _.
  apply raises_modify.
Qed.

Lemma report_frame ws client_id m text notification_type :
  preserves beyond_sockets (report ws client_id m text notification_type).
Proof.
  apply preserves_bind; [apply send_frame |]. intros success.
  apply preserves_bind; [apply send_frame |]. intros _.
  apply evict_unless_frame.
Qed.

Lemma broadcast_raises attendance_data :
  raises_exceptions_only (broadcast_attendance_update attendance_data).
Proof.
  intros w w' e. unfold Websocket.broadcast_attendance_update.
  case_bool_decide; [done |].
  destruct attendance_data as [updates | d]; [by intros [= <- <-] |].
  by destruct (gather _ w).
Qed.

Lemma broadcast_frame attendance_data :
  preserves beyond_sockets (broadcast_attendance_update attendance_data).
Proof.
  intros w. destruct attendance_data as [updates | d].
  - unfold Websocket.broadcast_attendance_update. by case_bool_decide.
  - by destruct (Broadcaster.broadcast_dict send_json d w)
      as (w' & -> & _ & _ & Hframe).
Qed.

(** A broadcast handed a list fails as soon as someone is connected. *)
Lemma broadcast_list updates w :
  broadcast_attendance_update (PList updates) w
  = if bool_decide (size (active_connections w) = 0) then (w, Ok tt)
    else (w, Raise (PyException "AttributeError"
                      "'list' object has no attribute 'get'")).
Proof. done. Qed.

Lemma events_task_done_raises :
  raises_exceptions_only events_task_done.
Proof.
  intros w w' e. unfold Websocket.events_task_done, PyQueue.task_done.
  case_bool_decide; [by intros [= <- <-] | done].
Qed.

Lemma responses_task_done_raises :
  raises_exceptions_only responses_task_done.
Proof.
  intros w w' e. unfold Websocket.responses_task_done, PyQueue.task_done.
  case_bool_decide; [by intros [= <- <-] | done].
Qed.

Lemma sockets_to_events {A} (m : io A) :
  preserves beyond_sockets m → preserves beyond_events m.
Proof.
  intros H w. specialize (H w).
  unfold Websocket.beyond_sockets, Websocket.beyond_events in *. congruence.
Qed.

Lemma sockets_to_responses {A} (m : io A) :
  preserves beyond_sockets m → preserves beyond_responses m.
Proof.
  intros H w. specialize (H w).
  unfold Websocket.beyond_sockets, Websocket.beyond_responses in *. congruence.
Qed.

Lemma events_task_done_frame : preserves beyond_events events_task_done.
Proof.
  intros w. unfold Websocket.events_task_done, PyQueue.task_done.
  by case_bool_decide.
Qed.

Lemma responses_task_done_frame :
  preserves beyond_responses responses_task_done.
Proof.
  intros w. unfold Websocket.responses_task_done, PyQueue.task_done.
  by case_bool_decide.
Qed.

(** *** The bodies of the two loops *)

(** *** The bodies of the two loops *)

Local Abbreviation handle_event := (Websocket.handle_event send_json).
Local Abbreviation handle_response := (Websocket.handle_response send_json).

Lemma handle_event_raises item : raises_exceptions_only (handle_event item).
Proof.
  apply raises_bind.
  - case_bool_decide; [apply broadcast_raises | apply raises_ret].
  - intros _. apply raises_bind; [apply events_task_done_raises |].
    intros _. apply raises_ret.
Qed.

Lemma handle_event_frame item : preserves beyond_events (handle_event item).
Proof.
  apply preserves_bind.
  - case_bool_decide; [| apply preserves_ret].
    apply sockets_to_events, broadcast_frame.
  - intros _. apply preserves_bind; [apply events_task_done_frame |].
    intros _. apply preserves_ret.
Qed.

Lemma handle_response_raises item :
  raises_exceptions_only (handle_response item).
Proof.
  intros w w' e. unfold Websocket.handle_response.
  destruct (active_connections w !! item_client_id item) as [ws|].
  - destruct item as [client_id error | client_id r].
    + apply raises_bind; [apply report_raises |]. intros _.
      apply raises_bind; [apply responses_task_done_raises |].
      intros _. apply raises_ret.
    + apply raises_bind.
      * destruct (processed_users r) as [| user rest].
        -- case_bool_decide; apply report_raises.
        -- apply raises_bind; [apply report_raises |]. intros _.
           destruct (attendance_updates r);
             [apply raises_ret | apply broadcast_raises].
      * intros _. apply raises_bind; [apply responses_task_done_raises |].
        intros _. apply raises_ret.
  - apply raises_bind; [apply responses_task_done_raises |].
    intros _. apply raises_ret.
Qed.

Lemma handle_response_frame item :
  preserves beyond_responses (handle_response item).
Proof.
  intros w. unfold Websocket.handle_response.
  destruct (active_connections w !! item_client_id item) as [ws|].
  - destruct item as [client_id error | client_id r].
    + apply preserves_bind; [apply sockets_to_responses, report_frame |].
      intros _. apply preserves_bind; [apply responses_task_done_frame |].
      intros _. apply preserves_ret.
    + apply preserves_bind.
      * destruct (processed_users r) as [| user rest].
        -- case_bool_decide; apply sockets_to_responses, report_frame.
        -- apply preserves_bind; [apply sockets_to_responses, report_frame |].
           intros _. destruct (attendance_updates r);
             [apply preserves_ret |].
           apply sockets_to_responses, broadcast_frame.
      * intros _. apply preserves_bind; [apply responses_task_done_frame |].
        intros _. apply preserves_ret.
  - apply preserves_bind; [apply responses_task_done_frame |].
    intros _. apply preserves_ret.
Qed.

Lemma process_queue_body_raises : raises_exceptions_only process_queue_body.
Proof.
  intros w w' e. unfold Websocket.process_queue_body.
  destruct (PyQueue.get (processing_results_queue w)) as [[item q]|];
    [apply handle_event_raises | done].
Qed.

Lemma process_websocket_responses_body_raises :
  raises_exceptions_only process_websocket_responses_body.
Proof.
  intros w w' e. unfold Websocket.process_websocket_responses_body.
  destruct (PyQueue.get (websocket_responses_queue w)) as [[item q]|];
    [apply handle_response_raises | done].
Qed.

(** A turn of the event loop takes the head of the event queue, if there
    is one, and touches nothing beyond the sockets. *)
Lemma process_queue_body_frame w :
  beyond_events (process_queue_body w).1
  = (websocket_responses_queue w, client_pending_tasks w, pending_futures w,
     PyQueue.maxsize (processing_results_queue w),
     tail (PyQueue.items (processing_results_queue w))).
Proof.
  unfold Websocket.process_queue_body, PyQueue.get.
  destruct (PyQueue.items (processing_results_queue w)) as [| item rest] eqn:E.
  - unfold Websocket.beyond_events. simpl. by rewrite E.
  - by rewrite handle_event_frame.
Qed.

Lemma process_websocket_responses_body_frame w :
  beyond_responses (process_websocket_responses_body w).1
  = (processing_results_queue w, client_pending_tasks w, pending_futures w,
     PyQueue.maxsize (websocket_responses_queue w),
     tail (PyQueue.items (websocket_responses_queue w))).
Proof.
  unfold Websocket.process_websocket_responses_body, PyQueue.get.
  destruct (PyQueue.items (websocket_responses_queue w)) as [| item rest] eqn:E.
  - unfold Websocket.beyond_responses. simpl. by rewrite E.
  - by rewrite handle_response_frame.
Qed.

(** *** The loops *)

(** What a turn does, by the way its body ended. *)
Lemma guarded_turn prefix (body : io body_exit) w :
  raises_exceptions_only body →
  guarded prefix body w
  = match body w with
    | (w', Ok Fallthrough) => (w', [Slept (1 # 10)], Running)
    | (w', Ok Continue) => (w', [], Running)
    | (w', Raise e) =>
        (w', [LoggedError (prefix +:+ exn_str e); Slept 1], Running)
    end.
Proof.
  intros Hraises. unfold guarded.
  destruct (body w) as [w' [[|] | e]] eqn:Hbody; try done.
  by rewrite (Hraises w w' e Hbody).
Qed.

Lemma guarded_running prefix (body : io body_exit) w :
  raises_exceptions_only body → (guarded prefix body w).2 = Running.
Proof.
  intros Hraises. rewrite guarded_turn by done.
  by destruct (body w) as [w' [[|] | e]].
Qed.

Lemma guarded_world prefix (body : io body_exit) w :
  (guarded prefix body w).1.1 = (body w).1.
Proof.
  unfold guarded. destruct (body w) as [w' [[|] | e]]; try done.
  by destruct (is_Exception e).
Qed.

Lemma turns_running n (turn : world → world * list loop_event * loop_status) :
  (∀ w, (turn w).2 = Running) → ∀ w, (turns n turn w).2 = Running.
Proof.
  intros Hturn. induction n as [| n IH]; intros w; simpl; [done |].
  specialize (Hturn w). destruct (turn w) as [[w' events] status].
  simpl in Hturn. subst status. specialize (IH w').
  by destruct (turns n turn w') as [[w'' events'] status'].
Qed.

(** The world after [S n] turns of a loop that keeps running. *)
Lemma turns_world n (turn : world → world * list loop_event * loop_status) w :
  (∀ w, (turn w).2 = Running) →
  (turns (S n) turn w).1.1 = (turns n turn (turn w).1.1).1.1.
Proof.
  intros Hturn. simpl. specialize (Hturn w).
  destruct (turn w) as [[w' events] status]. simpl in *. subst status.
  by destruct (turns n turn w') as [[w'' events'] status'].
Qed.

Lemma process_queue_drains n : ∀ w,
  PyQueue.items (processing_results_queue (process_queue n w).1.1)
  = drop n (PyQueue.items (processing_results_queue w)).
Proof.
  unfold Websocket.process_queue.
  induction n as [| n IH]; intros w; [by rewrite drop_0 |].
  rewrite turns_world
    by (intros w0; apply guarded_running, process_queue_body_raises).
  rewrite IH, guarded_world.
  pose proof (process_queue_body_frame w) as Hframe.
  unfold Websocket.beyond_events in Hframe.
  injection Hframe as _ _ _ _ ->.
  destruct (PyQueue.items (processing_results_queue w)); simpl;
    by rewrite ?drop_nil.
Qed.

Lemma process_websocket_responses_drains n : ∀ w,
  PyQueue.items
    (websocket_responses_queue (process_websocket_responses n w).1.1)
  = drop n (PyQueue.items (websocket_responses_queue w)).
Proof.
  unfold Websocket.process_websocket_responses.
  induction n as [| n IH]; intros w; [by rewrite drop_0 |].
  rewrite turns_world
    by (intros w0; apply guarded_running,
          process_websocket_responses_body_raises).
  rewrite IH, guarded_world.
  pose proof (process_websocket_responses_body_frame w) as Hframe.
  unfold Websocket.beyond_responses in Hframe.
  injection Hframe as _ _ _ _ ->.
  destruct (PyQueue.items (websocket_responses_queue w)); simpl;
    by rewrite ?drop_nil.
Qed.

(** C8: neither consumer loop stops because of an error raised while an
    item is processed.  However many turns have gone by, and whatever
    happened in them, both loops are still running, and each turn has taken
    the next item off its queue.  A turn whose body raised logs the error
    and sleeps 1 second; a turn whose body ran to its end sleeps 0.1
    second (and a turn left by [continue] does not sleep). *)
Theorem consumers_never_stop n w :
  (process_queue n w).2 = Running ∧
  (process_websocket_responses n w).2 = Running ∧
  PyQueue.items (processing_results_queue (process_queue n w).1.1)
  = drop n (PyQueue.items (processing_results_queue w)) ∧
  PyQueue.items
    (websocket_responses_queue (process_websocket_responses n w).1.1)
  = drop n (PyQueue.items (websocket_responses_queue w)) ∧
  process_queue 1 w
  = match process_queue_body w with
    | (w', Ok Fallthrough) => (w', [Slept (1 # 10)], Running)
    | (w', Ok Continue) => (w', [], Running)
    | (w', Raise e) =>
        (w', [LoggedError ("Error processing queue: " +:+ exn_str e);
              Slept 1], Running)
    end ∧
  process_websocket_responses 1 w
  = match process_websocket_responses_body w with
    | (w', Ok Fallthrough) => (w', [Slept (1 # 10)], Running)
    | (w', Ok Continue) => (w', [], Running)
    | (w', Raise e) =>
        (w', [LoggedError
                ("Error processing websocket responses: " +:+ exn_str e);
              Slept 1], Running)
    end.
Proof.
  split; [| split; [| split; [| split; [| split]]]].
  - apply turns_running. intros w0.
    apply guarded_running, process_queue_body_raises.
  - apply turns_running. intros w0.
    apply guarded_running, process_websocket_responses_body_raises.
  - apply process_queue_drains.
  - apply process_websocket_responses_drains.
  - unfold Websocket.process_queue. simpl.
    rewrite guarded_turn by apply process_queue_body_raises.
    destruct (process_queue_body w) as [w' [[|] | e]]; simpl;
      by rewrite ?app_nil_r.
  - unfold Websocket.process_websocket_responses. simpl.
    rewrite guarded_turn by apply process_websocket_responses_body_raises.
    destruct (process_websocket_responses_body w) as [w' [[|] | e]]; simpl;
      by rewrite ?app_nil_r.
Qed.

End Loops.

Import Fixtures.

(** The event loop meets an event it cannot broadcast, logs the error,
    backs off, and broadcasts the next event in the following turn (on the
    writing transport [flaky]). *)
Lemma consumers_never_stop_witness :
  (Websocket.process_queue flaky 2 jammed).2 = Running ∧
  (Websocket.process_queue flaky 2 jammed).1.2
  = [LoggedError
       "Error processing queue: 'list' object has no attribute 'get'";
     Slept 1; Slept (1 # 10)] ∧
  PyQueue.items
    (processing_results_queue (Websocket.process_queue flaky 2 jammed).1.1)
  = [] ∧
  delivered (Websocket.process_queue flaky 2 jammed).1.1
  = [(1%nat, AttendanceUpdate (with_object_id deletion))].
Proof.
  destruct (consumers_never_stop flaky 2 jammed) as (Hrun & _ & Hdrain & _).
  split; [exact Hrun |]. split; [vm_compute; reflexivity |].
  split; [exact Hdrain | vm_compute; reflexivity].
Defined.

End Consumers.

(** ** The response consumer *)
Module Responses.
Import Websocket.

Section Replies.

Context {WebSocket : Type}.
Variable send_json : WebSocket → message → send_outcome.

Local Abbreviation report := (Websocket.report send_json).
Local Abbreviation broadcast_attendance_update :=
  (Websocket.broadcast_attendance_update send_json).
Local Abbreviation handle_response := (Websocket.handle_response send_json).
Local Abbreviation process_websocket_responses_body :=
  (Websocket.process_websocket_responses_body send_json).
Local Abbreviation world := (Websocket.world (WebSocket := WebSocket)).
Local Abbreviation responses_task_done :=
  (Websocket.responses_task_done (WebSocket := WebSocket)).

Implicit Types (w : world).

(** The world once the status message and its notification have been
    tried: what a call wrote is on the wire, and the client is evicted when
    the send of the status message raised. *)
Lemma report_run ws client_id m text notification_type w :
  report ws client_id m text notification_type w
  = (set_active_connections
       (if goes_through (send_json ws m) then active_connections w
        else evict client_id (active_connections w))
       (set_delivered
          (delivered w
           ++ filter (λ p, send_json p.1 p.2 = Written)
                [(ws, m); (ws, Notification notification_type text)]) w),
     Ok tt).
Proof.
  unfold Websocket.report, Websocket.send_notification, bind,
    Websocket._send_message_to_client, evict_unless, modify.
  rewrite !filter_cons, filter_nil. simpl.
  destruct (send_json ws m) eqn:Hm;
    destruct (send_json ws (Notification notification_type text)) eqn:Hn;
    simpl; rewrite ?Hn; destruct w; simpl; rewrite <- ?app_assoc, ?app_nil_r;
    done.
Qed.

(** A response whose client is gone is dropped: nothing is sent. *)
Lemma handle_response_absent item w :
  active_connections w !! item_client_id item = None →
  handle_response item w = bind responses_task_done (λ _, ret Continue) w.
Proof. unfold Websocket.handle_response. by intros ->. Qed.

(** A response whose client is connected: the reply, then the broadcast
    of the updates it carries, if any, handed over as a list. *)
Lemma handle_response_connected item w ws :
  active_connections w !! item_client_id item = Some ws →
  handle_response item w
  = bind (bind (report ws (item_client_id item) (reply item).1.1
                  (reply item).1.2 (reply item).2)
            (λ _, match carried_updates item with
                  | [] => ret tt
                  | _ :: _ =>
                      broadcast_attendance_update
                        (PList (carried_updates item))
                  end))
      (λ _, bind responses_task_done
              (λ _, ret match item with
                        | ErrorItem _ _ => Continue
                        | ResultItem _ _ => Fallthrough
                        end)) w.
Proof.
  unfold Websocket.handle_response. intros ->.
  destruct item as [client_id error | client_id r]; simpl.
  - unfold bind at 1 3 4. by rewrite !report_run.
  - destruct (processed_users r) as [| user rest]; simpl.
    + unfold bind at 1 3 4.
      case_bool_decide; by rewrite !report_run.
    + done.
Qed.

(** C3, where the code departs from it: a response that carries updates
    never reaches the event queue.  After the reply the consumer hands the
    list of updates to [broadcast_attendance_update] itself, which raises
    [AttributeError] on a list as soon as a connection is registered, so
    the updates are neither queued nor broadcast. *)
Theorem updates_bypass_event_queue item w ws :
  active_connections w !! item_client_id item = Some ws →
  carried_updates item ≠ [] →
  processing_results_queue (handle_response item w).1
  = processing_results_queue w ∧
  (size (active_connections
           (report ws (item_client_id item) (reply item).1.1
              (reply item).1.2 (reply item).2 w).1) ≠ 0 →
   handle_response item w
   = ((report ws (item_client_id item) (reply item).1.1 (reply item).1.2
         (reply item).2 w).1,
      Raise (PyException "AttributeError"
               "'list' object has no attribute 'get'"))).
Proof.
  intros Hws Hupdates. split.
  - pose proof (Consumers.handle_response_frame send_json item w) as Hframe.
    unfold beyond_responses in Hframe. by injection Hframe.
  - intros Hsize. rewrite (handle_response_connected item w ws Hws).
    destruct (carried_updates item) as [| update rest]; [done |].
    unfold bind at 1 2. rewrite report_run in *. simpl in *.
    unfold Websocket.broadcast_attendance_update.
    by rewrite bool_decide_eq_false_2.
Qed.

End Replies.

Import Fixtures.

(** The response of a task that recognised one employee and recorded an
    attendance, on the writing transport [flaky]: the client gets the match
    list and the summary, and then the turn ends in the error handler with
    the event queue still empty. *)
Lemma updates_bypass_event_queue_witness :
  processing_results_queue
    (Websocket.handle_response flaky matched answering_taken).1
  = Dependencies.processing_results_queue ∧
  (Websocket.handle_response flaky matched answering_taken).2
  = Raise (PyException "AttributeError"
             "'list' object has no attribute 'get'") ∧
  Websocket.process_websocket_responses flaky 1 answering
  = (Websocket.World one_client Dependencies.processing_results_queue
       (PyQueue.Queue 100 [] 1) ∅ []
       [(1%nat, MultipleUsers [alice]);
        (1%nat, Notification "success" "Face detected: Alice (ID: EMP-1)")],
     [LoggedError
        "Error processing websocket responses: 'list' object has no attribute 'get'";
      Slept 1],
     Running).
Proof.
  destruct (updates_bypass_event_queue flaky matched answering_taken 1%nat
              eq_refl ltac:(done)) as [Hqueue Hraise].
  split; [exact Hqueue |]. split.
  - rewrite Hraise; [done |]. vm_compute. discriminate.
  - vm_compute. reflexivity.
Defined.

End Responses.

(** ** The task ledger *)
Module Ledger.
Import Websocket.

Section Accounting.

Context {WebSocket : Type}.
Variable send_json : WebSocket → message → send_outcome.

Local Abbreviation world := (Websocket.world (WebSocket := WebSocket)).
Local Abbreviation server_step := (Websocket.server_step send_json).
Local Abbreviation server_run := (Websocket.server_run send_json).
Local Abbreviation handle_future_completion :=
  (Websocket.handle_future_completion (WebSocket := WebSocket)).
Local Abbreviation initial_world :=
  (Websocket.initial_world (WebSocket := WebSocket)).

Implicit Types (w : world) (futures : list (nat * string)).

(** The part of the world the ledger lives in. *)
Lemma put_response_ledger item w w' :
  put_response item w = Some w' →
  client_pending_tasks w' = client_pending_tasks w ∧
  pending_futures w' = pending_futures w.
Proof.
  unfold put_response.
  destruct (PyQueue.put (websocket_responses_queue w) item); [| done].
  by intros [= <-].
Qed.

Lemma put_event_ledger item w w' :
  put_event item w = Some w' →
  client_pending_tasks w' = client_pending_tasks w ∧
  pending_futures w' = pending_futures w.
Proof.
  unfold put_event.
  destruct (PyQueue.put (processing_results_queue w) item); [| done].
  by intros [= <-].
Qed.

Lemma decrement_pending_futures client_id w :
  pending_futures (decrement_pending client_id w) = pending_futures w.
Proof.
  unfold decrement_pending. by destruct (client_pending_tasks w !! client_id).
Qed.

(** Whichever path the handler takes, it decrements once and forgets one
    future of the client. *)
Lemma handler_ledger outcome client_id w w' r :
  handle_future_completion (future_of outcome) client_id w = Some (w', r) →
  r = Ok tt ∧
  client_pending_tasks w'
  = client_pending_tasks (decrement_pending client_id w) ∧
  pending_futures w' = without_first_for (pending_futures w) client_id.
Proof.
  unfold Websocket.handle_future_completion.
  destruct outcome as [result | [cls msg]]; simpl.
  - destruct (put_response _ (decrement_pending client_id w))
      as [w1|] eqn:Hput; simpl; [| done].
    apply put_response_ledger in Hput as [Hc Hp].
    rewrite decrement_pending_futures in Hp.
    destruct (map with_ids (attendance_updates result)) as [| u us]; simpl.
    + intros [= <- <-]. simpl. by rewrite Hp, Hc.
    + destruct (put_event _ w1) as [w2|] eqn:Hput'; simpl; [| done].
      apply put_event_ledger in Hput' as [Hc' Hp'].
      intros [= <- <-]. simpl. by rewrite Hp', Hp, Hc', Hc.
  - destruct (put_response _ (decrement_pending client_id w))
      as [w1|] eqn:Hput; simpl; [| done].
    apply put_response_ledger in Hput as [Hc Hp].
    rewrite decrement_pending_futures in Hp.
    intros [= <- <-]. simpl. by rewrite Hp, Hc.
Qed.

(** With room in both queues the handler returns. *)
Lemma handler_returns outcome client_id w :
  PyQueue.full (websocket_responses_queue w) = false →
  PyQueue.full (processing_results_queue w) = false →
  is_Some (handle_future_completion (future_of outcome) client_id w).
Proof.
  intros Hr He. unfold Websocket.handle_future_completion.
  assert (∀ item, ∃ w1, put_response item (decrement_pending client_id w)
                        = Some w1 ∧
            processing_results_queue w1 = processing_results_queue w)
    as Hput.
  { intros item. unfold put_response, PyQueue.put, decrement_pending.
    destruct (client_pending_tasks w !! client_id); simpl; rewrite Hr; simpl;
      by eexists. }
  destruct outcome as [result | [cls msg]]; simpl.
  - destruct (Hput (ResultItem client_id
                      (TaskResult (processed_users result)
                         (map with_ids (attendance_updates result))
                         (last_recognized_users result)
                         (no_face_count result)))) as (w1 & -> & Hq).
    simpl. destruct (map with_ids (attendance_updates result)); simpl;
      [done |].
    unfold put_event, PyQueue.put. rewrite Hq, He. by simpl.
  - destruct (Hput (ErrorItem client_id msg)) as (w1 & -> & _). by simpl.
Qed.

(** *** Counting the entries of a client *)

Local Abbreviation entries futures client_id :=
  (length (filter (λ kv : nat * string, kv.2 = client_id) futures)).

Lemma first_key_for_Some futures client_id key :
  first_key_for futures client_id = Some key →
  ∃ l1 l2, futures = l1 ++ (key, client_id) :: l2 ∧
           ∀ kv, kv ∈ l1 → kv.2 ≠ client_id.
Proof.
  induction futures as [| [k v] rest IH]; simpl; [done |].
  destruct (decide (v = client_id)) as [-> | Hne].
  - intros [= ->]. exists [], rest. split; [done |].
    intros kv Hkv. by apply elem_of_nil in Hkv.
  - intros Hrest. destruct (IH Hrest) as (l1 & l2 & -> & Hl1).
    exists ((k, v) :: l1), l2. split; [done |].
    intros kv [-> | Hkv]%elem_of_cons; [done | by apply Hl1].
Qed.

Lemma first_key_for_None futures client_id :
  first_key_for futures client_id = None → entries futures client_id = 0.
Proof.
  induction futures as [| [k v] rest IH]; simpl; [done |].
  destruct (decide (v = client_id)) as [-> | Hne]; [done |].
  intros Hrest. rewrite filter_cons_False by done. by apply IH.
Qed.

(** The [finally] block removes one entry of the client, if it has any,
    and no entry of anybody else. *)
Lemma without_first_for_entries futures client_id :
  NoDup futures.*1 →
  NoDup (without_first_for futures client_id).*1 ∧
  ∀ c, entries (without_first_for futures client_id) c
       = if decide (c = client_id) then pred (entries futures client_id)
         else entries futures c.
Proof.
  intros Hnd. unfold without_first_for.
  destruct (first_key_for futures client_id) as [key|] eqn:Hfirst.
  - apply first_key_for_Some in Hfirst as (l1 & l2 & -> & Hl1).
    rewrite fmap_app, fmap_cons in Hnd. simpl in Hnd.
    apply NoDup_app in Hnd as (Hnd1 & Hdisj & [Hkey Hnd2]%NoDup_cons).
    assert (key ∉ PyDict.keys l1) as Hfresh.
    { intros Hin. apply (Hdisj key Hin). by left. }
    rewrite PyDictFacts.del_split by done. split.
    + rewrite fmap_app. apply NoDup_app. split; [done |]. split; [| done].
      intros x Hx Hx'. apply (Hdisj x Hx). by right.
    + intros c. rewrite !filter_app, !length_app.
      destruct (decide (c = client_id)) as [-> | Hne].
      * rewrite filter_cons_True by done. simpl. lia.
      * by rewrite filter_cons_False by (simpl; congruence).
  - split; [done |]. intros c. case_decide as Hc; [| done]. subst c.
    by rewrite (first_key_for_None _ _ Hfirst).
Qed.

(** A submission adds one entry for its client. *)
Lemma submit_entries futures future client_id :
  PyDict.mem futures future = false → NoDup futures.*1 →
  NoDup (PyDict.set futures future client_id).*1 ∧
  ∀ c, entries (PyDict.set futures future client_id) c
       = if decide (c = client_id) then S (entries futures client_id)
         else entries futures c.
Proof.
  intros Hfresh%PyDictFacts.mem_false Hnd.
  rewrite PyDictFacts.set_fresh by done. split.
  - rewrite fmap_app. apply NoDup_app. split; [done |].
    split; [| apply NoDup_singleton].
    intros x Hx ->%list_elem_of_singleton. done.
  - intros c. rewrite filter_app, length_app.
    destruct (decide (c = client_id)) as [-> | Hne].
    + rewrite filter_cons_True by done. simpl. lia.
    + rewrite filter_cons_False by (simpl; congruence). simpl. lia.
Qed.

(** *** The counters *)

Lemma pending_count_decrement client_id w c :
  default 0%Z (client_pending_tasks (decrement_pending client_id w) !! c)
  = if decide (c = client_id)
    then Z.max 0 (pending_count w client_id - 1)
    else pending_count w c.
Proof.
  unfold decrement_pending, pending_count.
  destruct (client_pending_tasks w !! client_id) as [n|] eqn:Hn; simpl.
  - destruct (decide (c = client_id)) as [-> | Hne].
    + by rewrite lookup_insert_eq.
    + by rewrite lookup_insert_ne.
  - destruct (decide (c = client_id)) as [-> | Hne]; [| done].
    by rewrite Hn.
Qed.

(** The ledger of a world is made of two of its fields. *)
Lemma ledger_ok_same w w' :
  client_pending_tasks w' = client_pending_tasks w →
  pending_futures w' = pending_futures w →
  ledger_ok w → ledger_ok w'.
Proof.
  unfold ledger_ok, pending_count, pending_entries. by intros -> ->.
Qed.

Lemma submit_ok future client_id w :
  PyDict.mem (pending_futures w) future = false →
  ledger_ok w → ledger_ok (submit_image_for_matching future client_id w).
Proof.
  intros Hfresh [Hnd Hcount].
  destruct (submit_entries (pending_futures w) future client_id Hfresh Hnd)
    as [Hnd' Hentries].
  split; [done |]. intros c.
  unfold pending_count, pending_entries in *. simpl. rewrite Hentries.
  destruct (Hcount c) as [Hpos Heq]. destruct (Hcount client_id) as [Hpos' Heq'].
  destruct (decide (c = client_id)) as [-> | Hne].
  - rewrite lookup_insert_eq. simpl. lia.
  - by rewrite lookup_insert_ne.
Qed.

Lemma complete_ok outcome client_id w w' r :
  handle_future_completion (future_of outcome) client_id w = Some (w', r) →
  ledger_ok w → ledger_ok w'.
Proof.
  intros (_ & Htasks & Hfutures)%handler_ledger [Hnd Hcount].
  destruct (without_first_for_entries (pending_futures w) client_id Hnd)
    as [Hnd' Hentries].
  split; [by rewrite Hfutures |]. intros c.
  unfold pending_count at 1 2, pending_entries.
  rewrite Htasks, Hfutures, pending_count_decrement, Hentries.
  destruct (Hcount c) as [Hpos Heq]. destruct (Hcount client_id) as [Hpos' Heq'].
  unfold pending_entries in *.
  destruct (decide (c = client_id)) as [-> | Hne]; [lia | done].
Qed.

Lemma step_ok o w w' : server_step w o = Some w' → ledger_ok w → ledger_ok w'.
Proof.
  destruct o as [future client_id | outcome client_id | |]; simpl.
  - destruct (PyDict.mem (pending_futures w) future) eqn:Hfresh; [done |].
    intros [= <-]. by apply submit_ok.
  - destruct (handle_future_completion _ client_id w) as [[w1 r]|] eqn:Hrun;
      [| done].
    simpl. intros [= <-]. by eapply complete_ok.
  - intros [= <-]. rewrite Consumers.guarded_world.
    pose proof (Consumers.process_queue_body_frame send_json w) as Hframe.
    unfold beyond_events in Hframe. injection Hframe as _ Hc Hp _ _.
    by apply ledger_ok_same.
  - intros [= <-]. rewrite Consumers.guarded_world.
    pose proof (Consumers.process_websocket_responses_body_frame send_json w)
      as Hframe.
    unfold beyond_responses in Hframe. injection Hframe as _ Hc Hp _ _.
    by apply ledger_ok_same.
Qed.

Lemma run_ok ops : ∀ w w',
  server_run ops w = Some w' → ledger_ok w → ledger_ok w'.
Proof.
  induction ops as [| o rest IH]; intros w w'; simpl.
  - by intros [= <-].
  - destruct (server_step w o) as [w1|] eqn:Hstep; [| done]. simpl.
    intros Hrest Hok. eapply IH; [done |]. by eapply step_ok.
Qed.

Lemma initial_ok : ledger_ok initial_world.
Proof.
  split; [apply NoDup_nil_2 |]. intros c.
  unfold pending_count, pending_entries. simpl. by rewrite lookup_empty.
Qed.

(** C1, amended: on the success path and on the error path alike, the
    completion handler decrements the counter of its client exactly once,
    clamping at zero, and touches no other counter; it returns whenever the
    queues have room.  Hence after any sequence of submissions, completions
    whose work returned or raised an [Exception], and consumer turns, every
    counter is non-negative and equals the number of ledger entries that
    reference its connection. *)
Theorem pending_counter_invariant :
  (∀ outcome client_id w w' r,
     handle_future_completion (future_of outcome) client_id w = Some (w', r) →
     r = Ok tt ∧
     client_pending_tasks w'
     = match client_pending_tasks w !! client_id with
       | Some n => <[client_id := Z.max 0 (n - 1)]> (client_pending_tasks w)
       | None => client_pending_tasks w
       end ∧
     ∀ c, pending_count w' c
          = if decide (c = client_id)
            then Z.max 0 (pending_count w client_id - 1)
            else pending_count w c) ∧
  (∀ outcome client_id w,
     PyQueue.full (websocket_responses_queue w) = false →
     PyQueue.full (processing_results_queue w) = false →
     is_Some (handle_future_completion (future_of outcome) client_id w)) ∧
  ledger_ok initial_world ∧
  (∀ ops w w',
     ledger_ok w → server_run ops w = Some w' →
     ∀ client_id,
       (0 ≤ pending_count w' client_id)%Z ∧
       pending_count w' client_id = Z.of_nat (pending_entries w' client_id)).
Proof.
  split; [| split; [| split]].
  - intros outcome client_id w w' r Hrun.
    apply handler_ledger in Hrun as (-> & Htasks & _).
    split; [done |]. split.
    + rewrite Htasks. unfold decrement_pending.
      by destruct (client_pending_tasks w !! client_id).
    + intros c. unfold pending_count at 1.
      by rewrite Htasks, pending_count_decrement.
  - apply handler_returns.
  - apply initial_ok.
  - intros ops w w' Hok Hrun. by apply (run_ok ops w w' Hrun Hok).
Qed.

End Accounting.

Import Fixtures.

(** After [busy_day] one task of ["c1"] is still pending and none of
    ["c2"]. *)
Lemma pending_counter_invariant_witness :
  ∃ w',
    Websocket.server_run flaky busy_day Websocket.initial_world = Some w' ∧
    pending_count w' "c1" = 1%Z ∧ pending_entries w' "c1" = 1 ∧
    pending_count w' "c2" = 0%Z ∧ pending_entries w' "c2" = 0 ∧
    ((0 ≤ pending_count w' "c1")%Z ∧
     pending_count w' "c1" = Z.of_nat (pending_entries w' "c1")).
Proof.
  destruct (pending_counter_invariant flaky) as (_ & _ & Hinit & Hrun).
  eexists. split; [vm_compute; reflexivity |].
  repeat (split; [vm_compute; reflexivity |]).
  apply (Hrun busy_day Websocket.initial_world _ Hinit).
  vm_compute. reflexivity.
Defined.

(** C1, as worded, fails: the work of the one pending task of ["c1"] ends
    in [KeyboardInterrupt], which [except Exception] does not catch.  The
    decrement is skipped, the [finally] block deletes the ledger entry all
    the same, and the exception leaves the handler: from a consistent
    ledger, the counter of ["c1"] stays 1 with no entry left. *)
Lemma interrupted_work_breaks_ledger :
  ledger_ok one_pending ∧
  Websocket.handle_future_completion
    (Raise (PyBaseException "KeyboardInterrupt" "")) "c1" one_pending
  = Some (Websocket.World ∅ Dependencies.processing_results_queue
            Dependencies.websocket_responses_queue (<["c1" := 1%Z]> ∅) [] [],
          Raise (PyBaseException "KeyboardInterrupt" "")) ∧
  pending_count
    (Websocket.World (∅ : gmap string nat)
       Dependencies.processing_results_queue
       Dependencies.websocket_responses_queue (<["c1" := 1%Z]> ∅) [] [])
    "c1" = 1%Z ∧
  pending_entries
    (Websocket.World (∅ : gmap string nat)
       Dependencies.processing_results_queue
       Dependencies.websocket_responses_queue (<["c1" := 1%Z]> ∅) [] [])
    "c1" = 0%nat ∧
  ¬ ledger_ok
      (Websocket.World (∅ : gmap string nat)
         Dependencies.processing_results_queue
         Dependencies.websocket_responses_queue (<["c1" := 1%Z]> ∅) [] []).
Proof.
  split.
  { apply (run_ok fastapi_send_json [Submit 1 "c1"] initial_world);
      [by vm_compute | apply initial_ok]. }
  split; [by vm_compute |]. split; [by vm_compute |].
  split; [by vm_compute |].
  intros [_ Hcount]. destruct (Hcount "c1") as [_ Heq].
  vm_compute in Heq. discriminate.
Qed.

End Ledger.

(** ** More on the matching policy: [find_match], thresholds, detection *)
Module SingleMatch.
Import PyFloatFacts.

Section Policy.

Context {ndarray User BBox : Type}.
Variable np_linalg_norm : ndarray → option PyFloat.t.
Variable np_divide : ndarray → PyFloat.t → option ndarray.
Variable np_dot : ndarray → ndarray → option PyFloat.t.
Variable json_loads_array : string → result ndarray.
Variable user_embedding : User → string.

Local Abbreviation compare_faces :=
  (FaceUtils.compare_faces np_linalg_norm np_divide np_dot).
Local Abbreviation scan_embeddings :=
  (FaceUtils.scan_embeddings np_linalg_norm np_divide np_dot).
Local Abbreviation find_match :=
  (FaceUtils.find_match np_linalg_norm np_divide np_dot).
Local Abbreviation first_best_stored :=
  (FaceUtils.first_best_stored np_linalg_norm np_divide np_dot).
Local Abbreviation tracked_stored :=
  (FaceUtils.tracked_stored np_linalg_norm np_divide np_dot).
Local Abbreviation scan_users :=
  (FaceUtils.scan_users np_linalg_norm np_divide np_dot json_loads_array
     user_embedding).
Local Abbreviation match_faces :=
  (FaceUtils.match_faces np_linalg_norm np_divide np_dot json_loads_array
     user_embedding (BBox := BBox)).
Local Abbreviation find_matches_for_embeddings :=
  (FaceUtils.find_matches_for_embeddings np_linalg_norm np_divide np_dot
     json_loads_array user_embedding (BBox := BBox)).
Local Abbreviation face_outcome :=
  (FaceUtils.face_outcome np_linalg_norm np_divide np_dot json_loads_array
     user_embedding (BBox := BBox)).
Local Abbreviation same_best :=
  (FaceUtils.same_best json_loads_array user_embedding).
Local Abbreviation str_to_embedding :=
  (FaceUtils.str_to_embedding json_loads_array).

Implicit Types (q : option ndarray) (stored seen : list (option ndarray)).

Lemma compare_none_r q : compare_faces q None = PyFloat.zero.
Proof. by destruct q. Qed.

Lemma positive_is_some q e b :
  PyFloat.geb b PyFloat.zero = true →
  PyFloat.gtb (compare_faces q e) b = true → ∃ a, e = Some a.
Proof.
  intros Hb Hgt. destruct e as [a|]; [by exists a |].
  rewrite compare_none_r in Hgt.
  pose proof (gtb_geb_trans _ _ _ Hgt Hb) as Hzero.
  by rewrite gtb_irrefl in Hzero.
Qed.

Lemma tracked_stored_step q seen bm bs e :
  tracked_stored q seen bm bs →
  if PyFloat.gtb (compare_faces q e) bs
  then tracked_stored q (seen ++ [e]) e (compare_faces q e)
  else tracked_stored q (seen ++ [e]) bm bs.
Proof.
  intros (Hge & Hall & Hbm).
  destruct (PyFloat.gtb (compare_faces q e) bs) eqn:Hgt.
  - destruct (positive_is_some q e bs Hge Hgt) as [a ->].
    assert (PyFloat.gtb (compare_faces q (Some a)) PyFloat.zero = true)
      as Hpos by (eapply gtb_geb_trans; eauto).
    split; [by apply gtb_geb |]. split.
    + intros x [Hx | Hx%list_elem_of_singleton]%elem_of_app.
      * apply Matching.not_geb_not_gtb.
        eapply Matching.below_after_raise; [by apply Hall | done].
      * subst x. apply gtb_irrefl.
    + split; [done |]. exists seen, []. split; [done |]. split; [done |].
      intros x Hx. eapply Matching.below_after_raise; [by apply Hall | done].
  - split; [done |]. split.
    + intros x [Hx | Hx%list_elem_of_singleton]%elem_of_app; [by apply Hall |].
      by subst x.
    + destruct bm as [a|]; [| done].
      destruct Hbm as (Hpos & l1 & l2 & -> & Ha & Hl1).
      split; [done |]. exists l1, (l2 ++ [e]). by rewrite <- app_assoc.
Qed.

Lemma scan_embeddings_tracked q stored : ∀ seen bm bs,
  tracked_stored q seen bm bs →
  tracked_stored q (seen ++ stored)
    (scan_embeddings q stored bm bs).1 (scan_embeddings q stored bm bs).2.
Proof.
  induction stored as [| e rest IH]; intros seen bm bs Ht; simpl.
  - by rewrite app_nil_r.
  - pose proof (tracked_stored_step q seen bm bs e Ht) as Hstep.
    replace (seen ++ e :: rest) with ((seen ++ [e]) ++ rest)
      by (by rewrite <- app_assoc).
    destruct (PyFloat.gtb _ bs); by apply IH.
Qed.

Lemma scan_embeddings_result q stored :
  tracked_stored q stored
    (scan_embeddings q stored None PyFloat.zero).1
    (scan_embeddings q stored None PyFloat.zero).2.
Proof.
  apply (scan_embeddings_tracked q stored [] None PyFloat.zero).
  split; [done |]. split; [| done]. intros e He. by apply elem_of_nil in He.
Qed.


(** The scan over rows and the scan over their parsed embeddings move
    together. *)
Lemma scans_agree q (users : list User) (arrays : list ndarray) :
  Forall2 (λ u a, str_to_embedding (user_embedding u) = Ok a) users arrays →
  ∀ bmu bme bs, same_best bmu bme →
    ∃ bmu',
      scan_users q users bmu bs
      = Ok (bmu', (scan_embeddings q (Some <$> arrays) bme bs).2) ∧
      same_best bmu' (scan_embeddings q (Some <$> arrays) bme bs).1.
Proof.
  induction 1 as [| u a users' arrays' Hua _ IH]; intros bmu bme bs Hsame.
  - by exists bmu.
  - cbn [FaceUtils.scan_users FaceUtils.scan_embeddings fmap list_fmap].
    rewrite Hua. cbn [rbind].
    destruct (PyFloat.gtb (compare_faces q (Some a)) bs); by apply IH.
Qed.

(** X3: On one face the batch matcher and [find_match] agree: when the
    rows' embeddings parse to the stored embeddings, the batch matcher emits a
    result exactly when [find_match] returns an embedding, for a row that
    parses to that embedding and with the same similarity. *)
Theorem batch_agrees_with_find_match q (bbox : BBox) (users : list User)
    (arrays : list ndarray) threshold :
  Forall2 (λ u a, str_to_embedding (user_embedding u) = Ok a) users arrays →
  match find_match q (Some <$> arrays) threshold with
  | (Some a, s) =>
      ∃ u, find_matches_for_embeddings [(q, bbox)] users threshold
           = Ok [FaceUtils.MatchResult u s bbox] ∧
           str_to_embedding (user_embedding u) = Ok a
  | (None, _) =>
      find_matches_for_embeddings [(q, bbox)] users threshold = Ok []
  end.
Proof.
  intros Hparse.
  destruct (scans_agree q users arrays Hparse None None PyFloat.zero I)
    as (bmu & Hscan & Hsame).
  unfold FaceUtils.find_match, FaceUtils.find_matches_for_embeddings.
  cbn [FaceUtils.match_faces]. rewrite Hscan. cbn [rbind].
  destruct (scan_embeddings q (Some <$> arrays) None PyFloat.zero)
    as [bme bs]. simpl in *.
  destruct bmu as [u|], bme as [a|]; try done;
    destruct (PyFloat.geb bs (default FaceUtils.self_threshold threshold));
    simpl; try done.
  by exists u.
Qed.

(** Raising the threshold only removes results: what is matched at a
    threshold is, in the same order, among what is matched at any lower
    one, and the call fails at one threshold only if it fails at the
    other. *)
Lemma match_faces_monotone thr thr' users qs :
  PyFloat.leb thr thr' = true →
  ∀ acc acc' ms,
    acc' `sublist_of` acc →
    match_faces thr qs users acc = Ok ms →
    ∃ ms', match_faces thr' qs users acc' = Ok ms' ∧ ms' `sublist_of` ms.
Proof.
  intros Hle. induction qs as [| [q bbox] rest IH]; intros acc acc' ms Hsub;
    simpl.
  - intros [= <-]. by exists acc'.
  - destruct (scan_users q users None PyFloat.zero) as [[bm bs]|e]; simpl;
      [| done].
    destruct bm as [u|]; [| by apply IH].
    destruct (PyFloat.geb bs thr') eqn:Hhigh.
    + assert (PyFloat.geb bs thr = true) as ->
        by (eapply geb_trans; [exact Hhigh | exact Hle]).
      apply IH. by apply sublist_app.
    + destruct (PyFloat.geb bs thr); apply IH; [| done].
      by apply sublist_inserts_r.
Qed.

(** X4: Raising the threshold never adds a match: for a batch that is
    matched at a threshold, the same batch is matched at any higher threshold, and
    its results are among those of the lower threshold, in the same
    order. *)
Theorem threshold_monotone qs users thr thr' ms :
  PyFloat.leb thr thr' = true →
  find_matches_for_embeddings qs users (Some thr) = Ok ms →
  ∃ ms', find_matches_for_embeddings qs users (Some thr') = Ok ms' ∧
         ms' `sublist_of` ms.
Proof.
  intros Hle. unfold FaceUtils.find_matches_for_embeddings. simpl.
  by apply match_faces_monotone.
Qed.

Lemma outcomes_in_order thr users qs (rs : list (option FaceUtils.match_result)) :
  Forall2 (face_outcome thr users) qs rs →
  (FaceUtils.m_bbox <$> omap id rs) `sublist_of` qs.*2 ∧
  Forall (λ m, FaceUtils.m_user m ∈ users) (omap id rs).
Proof.
  induction 1 as [| face r qs' rs' Hr _ [IHs IHu]]; simpl; [done |].
  destruct r as [m|]; simpl.
  - destruct Hr as (Hbox & (l1 & l2 & Hin & _) & _). rewrite Hbox. split.
    + by apply sublist_skip.
    + constructor; [| done]. rewrite Hin. apply elem_of_app. right. by left.
  - split; [by apply sublist_cons | done].
Qed.

(** X5: The batch matcher answers with at most one result per detected
    face, in the order of the faces, each carrying the bounding box of its face
    and a row of the population it was given. *)
Theorem one_result_per_face qs users threshold ms :
  find_matches_for_embeddings qs users threshold = Ok ms →
  (FaceUtils.m_bbox <$> ms) `sublist_of` qs.*2 ∧
  (length ms ≤ length qs)%nat ∧
  Forall (λ m, FaceUtils.m_user m ∈ users) ms.
Proof.
  unfold FaceUtils.find_matches_for_embeddings. intros Hms.
  apply Matching.match_faces_outcomes in Hms as (rs & -> & Hrs). simpl.
  destruct (outcomes_in_order _ _ _ _ Hrs) as [Hsub Hin].
  split; [done |]. split; [| done].
  apply sublist_length in Hsub. by rewrite !length_fmap in Hsub.
Qed.

End Policy.

(** *** Detection *)
Section Detection.

Context {Image Face ndarray User BBox : Type}.
Variable app_get : Image → option (list Face).
Variable face_embedding : Face → option ndarray.
Variable face_bbox : Face → BBox.
Variable np_linalg_norm : ndarray → option PyFloat.t.
Variable np_divide : ndarray → PyFloat.t → option ndarray.
Variable np_dot : ndarray → ndarray → option PyFloat.t.
Variable json_loads_array : string → result ndarray.
Variable user_embedding : User → string.

Local Abbreviation get_embeddings :=
  (FaceUtils.get_embeddings app_get face_embedding face_bbox).
Local Abbreviation get_embedding :=
  (FaceUtils.get_embedding app_get face_embedding face_bbox).
Local Abbreviation compare_faces :=
  (FaceUtils.compare_faces np_linalg_norm np_divide np_dot).
Local Abbreviation scan_embeddings :=
  (FaceUtils.scan_embeddings np_linalg_norm np_divide np_dot).
Local Abbreviation find_match :=
  (FaceUtils.find_match np_linalg_norm np_divide np_dot).
Local Abbreviation find_matches_for_embeddings :=
  (FaceUtils.find_matches_for_embeddings np_linalg_norm np_divide np_dot
     json_loads_array user_embedding (BBox := BBox)).

Lemma scan_embeddings_no_query (stored : list (option ndarray)) :
  scan_embeddings None stored None PyFloat.zero = (None, PyFloat.zero).
Proof. induction stored as [| e rest IH]; simpl; [done | exact IH]. Qed.

Lemma find_match_no_query (stored : list (option ndarray)) threshold :
  find_match None stored threshold = (None, PyFloat.zero).
Proof.
  unfold FaceUtils.find_match. rewrite scan_embeddings_no_query.
  by destruct (PyFloat.geb _ _).
Qed.

(** X6: An image in which detection raises or finds no face gives no
    embeddings, and therefore never matches: the batch matcher returns the
    empty list, whatever the rows hold (no stored embedding is parsed), and
    the single-face path has no query embedding, finds no match and
    reports similarity 0.0, whatever the threshold. *)
Theorem no_face_no_match image :
  app_get image = None ∨ app_get image = Some [] →
  get_embeddings image = [] ∧
  get_embedding image = None ∧
  (∀ (users : list User) threshold,
     find_matches_for_embeddings (get_embeddings image) users threshold
     = Ok []) ∧
  (∀ stored threshold,
     find_match (get_embedding image) stored threshold
     = (None, PyFloat.zero)).
Proof.
  intros Hnone.
  assert (get_embeddings image = []) as Hempty
    by (unfold FaceUtils.get_embeddings; by destruct Hnone as [-> | ->]).
  assert (get_embedding image = None) as Hfirst
    by (unfold FaceUtils.get_embedding; by rewrite Hempty).
  split; [done |]. split; [done |]. split.
  - intros users threshold. by rewrite Hempty.
  - intros stored threshold. rewrite Hfirst. apply find_match_no_query.
Qed.

(** When faces are detected there is one embedding per face, in order, and
    the single-face path takes the embedding of the first. *)
Theorem detected_faces image faces :
  app_get image = Some faces →
  get_embeddings image
  = (λ face, (face_embedding face, face_bbox face)) <$> faces ∧
  get_embedding image = head faces ≫= face_embedding.
Proof.
  intros Hfaces. unfold FaceUtils.get_embedding, FaceUtils.get_embeddings.
  rewrite Hfaces. by destruct faces.
Qed.

End Detection.

Import Fixtures.

Lemma three_rows_parse :
  Forall2 (λ u a, FaceUtils.str_to_embedding loads1 (row_embedding u) = Ok a)
    three_rows [PyFloat.Fin (-1); PyFloat.Fin 2; PyFloat.Fin 1].
Proof. repeat constructor. Qed.

(** The first face of image 2 against the three rows, at the default
    threshold: both paths settle on the first of the two tied rows. *)
Lemma batch_agrees_with_find_match_witness :
  ∃ u, find_matches1 [(Some (PyFloat.Fin 1), box0)] three_rows None
       = Ok [FaceUtils.MatchResult u (PyFloat.Fin (2 # 2)) box0] ∧
       FaceUtils.str_to_embedding loads1 (row_embedding u)
       = Ok (PyFloat.Fin 2).
Proof.
  exact (batch_agrees_with_find_match norm1 div1 dot1 loads1 row_embedding
           (Some (PyFloat.Fin 1)) box0 three_rows
           [PyFloat.Fin (-1); PyFloat.Fin 2; PyFloat.Fin 1] None
           three_rows_parse).
Defined.

(** Both faces match at the default threshold 0.5; none does at 2. *)
Lemma threshold_monotone_witness :
  ∃ ms', find_matches1 two_faces three_rows (Some (PyFloat.Fin 2)) = Ok ms' ∧
         ms' `sublist_of`
           [FaceUtils.MatchResult emp_pos (PyFloat.Fin (2 # 2)) box0;
            FaceUtils.MatchResult emp_neg (PyFloat.Fin (3 # 3)) box1].
Proof.
  apply (threshold_monotone norm1 div1 dot1 loads1 row_embedding two_faces
           three_rows PyFloat.half (PyFloat.Fin 2)); reflexivity.
Defined.

Lemma one_result_per_face_witness :
  (FaceUtils.m_bbox
     <$> [FaceUtils.MatchResult emp_pos (PyFloat.Fin (2 # 2)) box0;
          FaceUtils.MatchResult emp_neg (PyFloat.Fin (3 # 3)) box1])
    `sublist_of` two_faces.*2 ∧
  (length [FaceUtils.MatchResult emp_pos (PyFloat.Fin (2 # 2)) box0;
           FaceUtils.MatchResult emp_neg (PyFloat.Fin (3 # 3)) box1]
   ≤ length two_faces)%nat ∧
  Forall (λ m, FaceUtils.m_user m ∈ three_rows)
    [FaceUtils.MatchResult emp_pos (PyFloat.Fin (2 # 2)) box0;
     FaceUtils.MatchResult emp_neg (PyFloat.Fin (3 # 3)) box1].
Proof.
  apply (one_result_per_face norm1 div1 dot1 loads1 row_embedding two_faces
           three_rows None).
  reflexivity.
Defined.

(** Image 1 makes the detector fail; image 2 shows two faces. *)
Lemma no_face_no_match_witness :
  FaceUtils.get_embeddings detect1 fst snd 1%nat = [] ∧
  FaceUtils.get_embedding detect1 fst snd 1%nat = None ∧
  find_matches1 (FaceUtils.get_embeddings detect1 fst snd 1%nat)
    [emp_pos; emp_bad] None = Ok [] ∧
  FaceUtils.find_match norm1 div1 dot1
    (FaceUtils.get_embedding detect1 fst snd 1%nat)
    [Some (PyFloat.Fin 2)] (Some (PyFloat.Fin (-1)))
  = (None, PyFloat.zero).
Proof.
  destruct (no_face_no_match detect1 fst snd norm1 div1 dot1 loads1
              row_embedding 1%nat (or_introl eq_refl))
    as (Hempty & Hfirst & Hbatch & Hsingle).
  split; [exact Hempty |]. split; [exact Hfirst |].
  split; [apply Hbatch | apply Hsingle].
Defined.

Lemma detected_faces_witness :
  FaceUtils.get_embeddings detect1 fst snd 2%nat = two_faces ∧
  FaceUtils.get_embedding detect1 fst snd 2%nat = Some (PyFloat.Fin 1).
Proof.
  exact (detected_faces detect1 fst snd 2%nat two_faces eq_refl).
Defined.

End SingleMatch.

(** ** The identifier fix-ups of events *)
Module FixUps.
Import Websocket.

Lemma get_set_eq {K V} `{EqDecision K} (d : list (K * V)) k v :
  PyDict.get (PyDict.set d k v) k = Some v.
Proof.
  induction d as [| [k' v'] rest IH]; simpl.
  - by rewrite decide_True.
  - destruct (decide (k' = k)) as [-> | Hne]; simpl.
    + by rewrite decide_True.
    + by rewrite decide_False.
Qed.

Lemma get_set_ne {K V} `{EqDecision K} (d : list (K * V)) k k' v :
  k ≠ k' → PyDict.get (PyDict.set d k v) k' = PyDict.get d k'.
Proof.
  intros Hne. induction d as [| [k0 v0] rest IH]; simpl.
  - by rewrite decide_False.
  - destruct (decide (k0 = k)) as [-> | Hne0]; simpl.
    + by rewrite !decide_False.
    + destruct (decide (k0 = k')); [done | exact IH].
Qed.

(** Filling a key from another one, when it is missing: the step both
    fix-ups are made of. *)
Lemma fill_get (d : pydict) (target source k : string) :
  PyDict.get
    (if negb (PyDict.mem d target) then
       match PyDict.get d source with
       | Some v => PyDict.set d target v
       | None => d
       end
     else d) k
  = if decide (k = target)
    then match PyDict.get d target with
         | Some v => Some v
         | None => PyDict.get d source
         end
    else PyDict.get d k.
Proof.
  unfold PyDict.mem.
  destruct (PyDict.get d target) as [v|] eqn:Ht; simpl.
  - destruct (decide (k = target)) as [-> | Hne]; [done | done].
  - destruct (PyDict.get d source) as [v|] eqn:Hs.
    + destruct (decide (k = target)) as [-> | Hne].
      * apply get_set_eq.
      * by apply get_set_ne.
    + destruct (decide (k = target)) as [-> | Hne]; done.
Qed.

(** What the handler's fix-up does to the keys of an update. *)
Lemma with_ids_get (update : pydict) k :
  PyDict.get (with_ids update) k
  = if decide (k = "id")
    then match PyDict.get update "id" with
         | Some v => Some v
         | None => PyDict.get update "employee_id"
         end
    else if decide (k = "objectId")
    then match PyDict.get update "objectId" with
         | Some v => Some v
         | None => PyDict.get update "attendance_id"
         end
    else PyDict.get update k.
Proof.
  unfold with_ids. rewrite fill_get.
  destruct (decide (k = "id")) as [-> | Hid].
  - by rewrite !fill_get.
  - by rewrite fill_get.
Qed.

(** One filling step, done twice, is done once; and it does not undo what
    a filling step for another key did. *)
Lemma fill_fixed (d : pydict) (target source : string) :
  (PyDict.get d target = None → PyDict.get d source = None) →
  (if negb (PyDict.mem d target) then
     match PyDict.get d source with
     | Some v => PyDict.set d target v
     | None => d
     end
   else d) = d.
Proof.
  unfold PyDict.mem. intros Hfixed.
  destruct (PyDict.get d target) as [v|]; simpl; [done |].
  by rewrite Hfixed.
Qed.

(** X7: The handler's fix-up never overwrites an identifier an update
    already has, fills ["objectId"] from ["attendance_id"] and ["id"] from
    ["employee_id"] when they are missing, leaves every other key as it
    is, and changes nothing when applied again. *)
Theorem with_ids_fills (update : pydict) :
  (∀ k,
     PyDict.get (with_ids update) k
     = if decide (k = "id")
       then match PyDict.get update "id" with
            | Some v => Some v
            | None => PyDict.get update "employee_id"
            end
       else if decide (k = "objectId")
       then match PyDict.get update "objectId" with
            | Some v => Some v
            | None => PyDict.get update "attendance_id"
            end
       else PyDict.get update k) ∧
  with_ids (with_ids update) = with_ids update.
Proof.
  split; [apply with_ids_get |].
  unfold with_ids at 1.
  rewrite (fill_fixed (with_ids update) "objectId" "attendance_id").
  - apply fill_fixed. rewrite !with_ids_get. simpl.
    by destruct (PyDict.get update "id").
  - rewrite !with_ids_get. simpl.
    by destruct (PyDict.get update "objectId").
Qed.

(** X8: The broadcaster's fix-up only touches ["objectId"], and only on a
    deletion event that lacks it: such an event gains an ["objectId"] equal
    to its ["attendance_id"], if it has one.  Every other key is broadcast
    as it came, an ["objectId"] that is present is never overwritten, and
    the fix-up changes nothing when applied again. *)
Theorem with_object_id_fills (attendance_data : pydict) :
  (∀ k,
     PyDict.get (with_object_id attendance_data) k
     = if decide (k = "objectId")
       then match PyDict.get attendance_data "objectId" with
            | Some v => Some v
            | None =>
                if decide (PyDict.get attendance_data "action"
                           = Some (VStr "delete"))
                then PyDict.get attendance_data "attendance_id"
                else None
            end
       else PyDict.get attendance_data k) ∧
  with_object_id (with_object_id attendance_data)
  = with_object_id attendance_data.
Proof.
  assert (∀ d k,
     PyDict.get (with_object_id d) k
     = if decide (k = "objectId")
       then match PyDict.get d "objectId" with
            | Some v => Some v
            | None =>
                if decide (PyDict.get d "action" = Some (VStr "delete"))
                then PyDict.get d "attendance_id"
                else None
            end
       else PyDict.get d k) as Hget.
  { intros d k. unfold with_object_id, PyDict.mem.
    destruct (PyDict.get d "objectId") as [v|] eqn:Ho; simpl.
    - rewrite andb_false_r.
      destruct (decide (k = "objectId")) as [Hk | Hk]; [| reflexivity].
      rewrite Hk. exact Ho.
    - rewrite andb_true_r. case_bool_decide as Hact.
      + destruct (decide (PyDict.get d "action" = Some (VStr "delete")))
          as [_ | Hn]; [| done].
        destruct (PyDict.get d "attendance_id") as [v|] eqn:Ha.
        * destruct (decide (k = "objectId")) as [Hk | Hk].
          -- rewrite Hk. apply get_set_eq.
          -- apply get_set_ne. congruence.
        * destruct (decide (k = "objectId")) as [Hk | Hk]; [| reflexivity].
          rewrite Hk. exact Ho.
      + destruct (decide (PyDict.get d "action" = Some (VStr "delete")))
          as [Hy | _]; [done |].
        destruct (decide (k = "objectId")) as [Hk | Hk]; [| reflexivity].
        rewrite Hk. exact Ho. }
  split; [apply Hget |].
  unfold with_object_id at 1. unfold PyDict.mem. rewrite !Hget. simpl.
  destruct (PyDict.get attendance_data "objectId") as [v|] eqn:Ho; simpl.
  - by rewrite andb_false_r.
  - destruct (decide (PyDict.get attendance_data "action"
                      = Some (VStr "delete"))) as [Hact | Hact].
    + destruct (PyDict.get attendance_data "attendance_id") as [v|] eqn:Ha;
        simpl.
      * by rewrite andb_false_r.
      * by rewrite andb_true_r, bool_decide_eq_true_2.
    + by rewrite bool_decide_eq_false_2.
Qed.

End FixUps.

(** ** From a completion to the response consumer *)
Module Completion.
Import Websocket Pipeline Fixtures.

Section Answers.

Context {WebSocket : Type}.
Variable send_json : WebSocket → message → send_outcome.

Local Abbreviation world := (Websocket.world (WebSocket := WebSocket)).
Local Abbreviation handle_future_completion :=
  (Websocket.handle_future_completion (WebSocket := WebSocket)).
Local Abbreviation handle_response := (Websocket.handle_response send_json).
Local Abbreviation report := (Websocket.report send_json).
Local Abbreviation server_step := (Websocket.server_step send_json).
Local Abbreviation responses_task_done :=
  (Websocket.responses_task_done (WebSocket := WebSocket)).

Implicit Types (w : world).

(** The decrement touches the counters only. *)
Lemma decrement_pending_rest client_id w :
  active_connections (decrement_pending client_id w) = active_connections w ∧
  processing_results_queue (decrement_pending client_id w)
  = processing_results_queue w ∧
  websocket_responses_queue (decrement_pending client_id w)
  = websocket_responses_queue w ∧
  delivered (decrement_pending client_id w) = delivered w.
Proof.
  unfold decrement_pending. by destruct (client_pending_tasks w !! client_id).
Qed.

Lemma put_response_effect item w w1 :
  put_response item w = Some w1 →
  PyQueue.full (websocket_responses_queue w) = false ∧
  w1 = set_websocket_responses_queue
         (PyQueue.Queue (PyQueue.maxsize (websocket_responses_queue w))
            (PyQueue.items (websocket_responses_queue w) ++ [item])
            (PyQueue.unfinished_tasks (websocket_responses_queue w) + 1)) w.
Proof.
  unfold put_response, PyQueue.put.
  destruct (PyQueue.full (websocket_responses_queue w)); simpl; [done |].
  by intros [= <-].
Qed.

Lemma put_event_effect item w w1 :
  put_event item w = Some w1 →
  PyQueue.full (processing_results_queue w) = false ∧
  w1 = set_processing_results_queue
         (PyQueue.Queue (PyQueue.maxsize (processing_results_queue w))
            (PyQueue.items (processing_results_queue w) ++ [item])
            (PyQueue.unfinished_tasks (processing_results_queue w) + 1)) w.
Proof.
  unfold put_event, PyQueue.put.
  destruct (PyQueue.full (processing_results_queue w)); simpl; [done |].
  by intros [= <-].
Qed.

(** Everything a returning handler did outside the ledger. *)
Lemma handler_effect outcome client_id w w' r :
  handle_future_completion (future_of outcome) client_id w = Some (w', r) →
  active_connections w' = active_connections w ∧
  delivered w' = delivered w ∧
  PyQueue.full (websocket_responses_queue w) = false ∧
  websocket_responses_queue w'
  = PyQueue.Queue (PyQueue.maxsize (websocket_responses_queue w))
      (PyQueue.items (websocket_responses_queue w)
       ++ [completion_response outcome client_id])
      (PyQueue.unfinished_tasks (websocket_responses_queue w) + 1) ∧
  match completion_events outcome with
  | [] => processing_results_queue w' = processing_results_queue w
  | events =>
      PyQueue.full (processing_results_queue w) = false ∧
      processing_results_queue w'
      = PyQueue.Queue (PyQueue.maxsize (processing_results_queue w))
          (PyQueue.items (processing_results_queue w) ++ events)
          (PyQueue.unfinished_tasks (processing_results_queue w) + 1)
  end.
Proof.
  destruct (decrement_pending_rest client_id w) as (Ha & He & Hr & Hd).
  unfold Websocket.handle_future_completion, completion_events,
    completion_response.
  destruct outcome as [result | [cls msg]]; simpl.
  - destruct (put_response _ (decrement_pending client_id w))
      as [w1|] eqn:Hput; simpl; [| done].
    apply put_response_effect in Hput as [Hfull ->].
    rewrite Hr in *.
    destruct (map with_ids (attendance_updates result)) as [| u us] eqn:Hu;
      simpl.
    + intros [= <- <-]. simpl. by rewrite Ha, He, Hd.
    + destruct (put_event _ _) as [w2|] eqn:Hput'; simpl; [| done].
      apply put_event_effect in Hput' as [Hfull' ->]. simpl in *.
      intros [= <- <-]. simpl. by rewrite Ha, He, Hd in *.
  - destruct (put_response _ (decrement_pending client_id w))
      as [w1|] eqn:Hput; simpl; [| done].
    apply put_response_effect in Hput as [Hfull ->].
    rewrite Hr in *. intros [= <- <-]. simpl. by rewrite Ha, He, Hd.
Qed.

(** What a returning handler adds to the event queue, and to the wire. *)
Lemma completion_effect outcome client_id w w' r :
  handle_future_completion (future_of outcome) client_id w = Some (w', r) →
  PyQueue.items (processing_results_queue w')
  = PyQueue.items (processing_results_queue w) ++ completion_events outcome ∧
  delivered w' = delivered w.
Proof.
  intros (_ & Hd & _ & _ & He)%handler_effect. split; [| done].
  destruct (completion_events outcome) as [| ev evs].
  - by rewrite He, app_nil_r.
  - by destruct He as [_ ->].
Qed.

(** X9: A completion that returns leaves exactly one response at the tail
    of the response queue, addressed to the client of the task: the result
    with its updates fixed up, or the text of the exception.  It leaves one
    event at the tail of the event queue when the result carries updates,
    none otherwise, and it writes to no socket and evicts nobody. *)
Theorem completion_outputs outcome client_id w w' r :
  handle_future_completion (future_of outcome) client_id w = Some (w', r) →
  PyQueue.items (websocket_responses_queue w')
  = PyQueue.items (websocket_responses_queue w)
    ++ [completion_response outcome client_id] ∧
  item_client_id (completion_response outcome client_id) = client_id ∧
  PyQueue.items (processing_results_queue w')
  = PyQueue.items (processing_results_queue w) ++ completion_events outcome ∧
  active_connections w' = active_connections w ∧
  delivered w' = delivered w.
Proof.
  intros (Ha & Hd & _ & Hr & He)%handler_effect.
  rewrite Hr. simpl. split; [done |].
  split; [by destruct outcome as [? | [? ?]] |].
  split; [| done].
  destruct (completion_events outcome) as [| ev evs].
  - by rewrite He, app_nil_r.
  - by destruct He as [_ ->].
Qed.

(** What is written to the socket of a connected client for an item, and
    whether the client stays registered, whatever else the turn does. *)
Lemma answer_sent item w ws :
  active_connections w !! item_client_id item = Some ws →
  delivered (handle_response item w).1
  = delivered w ++ answer send_json ws item ∧
  active_connections (handle_response item w).1
  = if goes_through (send_json ws (reply item).1.1) then active_connections w
    else delete (item_client_id item) (active_connections w).
Proof.
  intros Hws.
  rewrite (Responses.handle_response_connected send_json item w ws Hws).
  unfold bind. rewrite Responses.report_run.
  assert (Hev : evict (item_client_id item) (active_connections w)
                = delete (item_client_id item) (active_connections w))
    by (unfold evict; by rewrite Hws).
  rewrite Hev. unfold answer.
  destruct (carried_updates item) as [| u us]; simpl.
  - unfold Websocket.responses_task_done.
    destruct (PyQueue.task_done _); simpl; done.
  - rewrite Consumers.broadcast_list.
    case_bool_decide; simpl; [| done].
    unfold Websocket.responses_task_done.
    destruct (PyQueue.task_done _); simpl; done.
Qed.

(** X10: A task completes for a connected client while the response queue
    is empty, and the response consumer takes its next turn.  The turn
    takes the response of exactly that completion, leaving the queue empty
    again, and runs the two sends of its case on the socket of that
    client.  The wire gains those of the two messages whose call wrote
    them, and nothing else; the client stays registered unless the send of
    the status message raised.  Where [send_json] is a coroutine function
    the wire gains nothing and the client stays. *)
Theorem completion_reaches_consumer outcome client_id ws w w1 w2 :
  PyQueue.items (websocket_responses_queue w) = [] →
  active_connections w !! client_id = Some ws →
  server_step w (Complete outcome client_id) = Some w1 →
  server_step w1 PollResponses = Some w2 →
  PyQueue.items (websocket_responses_queue w2) = [] ∧
  delivered w2
  = delivered w
    ++ answer send_json ws (completion_response outcome client_id) ∧
  active_connections w2
  = (if goes_through
          (send_json ws (reply (completion_response outcome client_id)).1.1)
     then active_connections w
     else delete client_id (active_connections w)) ∧
  ((∀ m, send_json ws m = NotAwaited) →
   delivered w2 = delivered w ∧ active_connections w2 = active_connections w).
Proof.
  intros Hempty Hws Hcomplete Hpoll. simpl in Hcomplete, Hpoll.
  destruct (handle_future_completion (future_of outcome) client_id w)
    as [[w1' r]|] eqn:Hh; simpl in Hcomplete; [| done].
  injection Hcomplete as ->.
  apply handler_effect in Hh as (Ha & Hd & _ & Hr & _).
  injection Hpoll as <-. rewrite Consumers.guarded_world.
  assert (PyQueue.items
            (websocket_responses_queue
               (Websocket.process_websocket_responses_body send_json w1).1)
          = []) as Hdrained.
  { pose proof (Consumers.process_websocket_responses_body_frame
                  send_json w1) as Hf.
    unfold Websocket.beyond_responses in Hf. injection Hf as _ _ _ _ ->.
    by rewrite Hr, Hempty. }
  split; [exact Hdrained |]. clear Hdrained.
  unfold Websocket.process_websocket_responses_body.
  rewrite Hr, Hempty. simpl.
  set (item := completion_response outcome client_id).
  assert (Hid : item_client_id item = client_id)
    by (subst item; by destruct outcome as [? | [? ?]]).
  set (w0 := set_websocket_responses_queue _ w1).
  assert (Hws0 : active_connections w0 !! item_client_id item = Some ws)
    by (rewrite Hid; simpl; by rewrite Ha).
  destruct (answer_sent item w0 ws Hws0) as [Hsent Hreg].
  rewrite Hsent, Hreg, Hid. simpl. rewrite Ha, Hd.
  split; [done |]. split; [done |]. intros Hcoroutine.
  unfold answer. rewrite !filter_cons, filter_nil. simpl.
  rewrite !Hcoroutine. simpl. by rewrite app_nil_r.
Qed.

End Answers.

(** A task that recorded an attendance without its identifiers completes
    for ["c1"]: the response and the event carry the update fixed up. *)
Lemma completion_outputs_witness :
  ∃ w' r,
    Websocket.handle_future_completion
      (future_of
         (inl (TaskResult [alice]
                 [[("employee_id", VStr "EMP-1"); ("attendance_id", VInt 7)]]
                 [] 0))) "c1" three_clients = Some (w', r) ∧
    PyQueue.items (websocket_responses_queue w') = [matched] ∧
    PyQueue.items (processing_results_queue w')
    = [EventItem (Some (VStr "attendance_update"))
         (Some (PList [checked_in]))] ∧
    delivered w' = [].
Proof.
  eexists _, _. split; [vm_compute; reflexivity |].
  edestruct (completion_outputs
               (inl (TaskResult [alice]
                       [[("employee_id", VStr "EMP-1");
                         ("attendance_id", VInt 7)]] [] 0))
               "c1" (three_clients : Websocket.world))
    as (Hr & _ & He & _ & Hd); [vm_compute; reflexivity |].
  split; [exact Hr |]. split; [exact He | exact Hd].
Defined.

(** A task that found no face completes for ["c1"], whose socket is a
    [fastapi.WebSocket]: the response is taken, nothing reaches the wire
    and the client stays registered. *)
Lemma completion_reaches_consumer_witness :
  ∃ w1 w2,
    Websocket.server_step fastapi_send_json three_clients
      (Complete (inl (TaskResult [] [] [] 1)) "c1") = Some w1 ∧
    Websocket.server_step fastapi_send_json w1 PollResponses = Some w2 ∧
    PyQueue.items (websocket_responses_queue w1)
    = [ResultItem "c1" (TaskResult [] [] [] 1)] ∧
    PyQueue.items (websocket_responses_queue w2) = [] ∧
    delivered w2 = [] ∧
    active_connections w2 = active_connections three_clients.
Proof.
  pose (w1 := default three_clients
                (Websocket.server_step fastapi_send_json three_clients
                   (Complete (inl (TaskResult [] [] [] 1)) "c1"))).
  pose (w2 := default w1
                (Websocket.server_step fastapi_send_json w1 PollResponses)).
  assert (H1 : Websocket.server_step fastapi_send_json three_clients
                 (Complete (inl (TaskResult [] [] [] 1)) "c1") = Some w1)
    by (vm_compute; reflexivity).
  assert (H2 : Websocket.server_step fastapi_send_json w1 PollResponses
               = Some w2)
    by (vm_compute; reflexivity).
  exists w1, w2. split; [exact H1 |]. split; [exact H2 |].
  split; [vm_compute; reflexivity |].
  destruct (completion_reaches_consumer fastapi_send_json
              (inl (TaskResult [] [] [] 1)) "c1" 1%nat three_clients w1 w2
              eq_refl eq_refl H1 H2) as (Hq & _ & _ & Hnone).
  split; [exact Hq |]. by apply Hnone.
Defined.

End Completion.

(** ** What holds in every state the server can reach *)
Module Reachable.
Import Websocket Pipeline Fixtures.

Section Invariants.

Context {WebSocket : Type}.
Variable send_json : WebSocket → message → send_outcome.

Local Abbreviation world := (Websocket.world (WebSocket := WebSocket)).
Local Abbreviation io := (Websocket.io (WebSocket := WebSocket)).
Local Abbreviation beyond_sockets :=
  (Websocket.beyond_sockets (WebSocket := WebSocket)).
Local Abbreviation events_task_done :=
  (Websocket.events_task_done (WebSocket := WebSocket)).
Local Abbreviation responses_task_done :=
  (Websocket.responses_task_done (WebSocket := WebSocket)).
Local Abbreviation evict_unless :=
  (Websocket.evict_unless (WebSocket := WebSocket)).
Local Abbreviation _send_message_to_client :=
  (Websocket._send_message_to_client send_json).
Local Abbreviation report := (Websocket.report send_json).
Local Abbreviation broadcast_attendance_update :=
  (Websocket.broadcast_attendance_update send_json).
Local Abbreviation handle_event := (Websocket.handle_event send_json).
Local Abbreviation handle_response := (Websocket.handle_response send_json).
Local Abbreviation process_queue_body :=
  (Websocket.process_queue_body send_json).
Local Abbreviation process_websocket_responses_body :=
  (Websocket.process_websocket_responses_body send_json).
Local Abbreviation server_step := (Websocket.server_step send_json).
Local Abbreviation server_run := (Websocket.server_run send_json).

Implicit Types (w : world).

(** *** The queues stay in good order *)

(** Only the call with a list raises. *)
Lemma broadcast_raise attendance_data w w' e :
  broadcast_attendance_update attendance_data w = (w', Raise e) →
  e = list_has_no_get.
Proof.
  destruct attendance_data as [updates | d].
  - rewrite Consumers.broadcast_list. case_bool_decide; [done |].
    by intros [= _ <-].
  - by destruct (Broadcaster.broadcast_dict send_json d w) as (w1 & -> & _).
Qed.

(** The end of a turn of the event consumer, once an item was taken. *)
Lemma events_tail (m : io unit) (x : body_exit) w :
  preserves beyond_sockets m →
  (∀ w0 w' e, m w0 = (w', Raise e) → e = list_has_no_get) →
  PyQueue.maxsize (processing_results_queue w) = 100%Z →
  (PyQueue.qsize (processing_results_queue w) + 1
   ≤ PyQueue.unfinished_tasks (processing_results_queue w))%Z →
  (PyQueue.qsize (processing_results_queue w) ≤ 100)%Z →
  queue_ok
    (processing_results_queue
       (bind m (λ _, bind events_task_done (λ _, ret x)) w).1) ∧
  websocket_responses_queue
    (bind m (λ _, bind events_task_done (λ _, ret x)) w).1
  = websocket_responses_queue w ∧
  ∀ e, (bind m (λ _, bind events_task_done (λ _, ret x)) w).2 = Raise e →
       e = list_has_no_get.
Proof.
  intros Hframe Hraise Hm Hu Hs. unfold bind.
  unfold PyQueue.qsize in Hu, Hs.
  pose proof (Hframe w) as Hf.
  destruct (m w) as [w1 [[] | e]] eqn:Em; simpl in Hf;
    unfold Websocket.beyond_sockets in Hf; injection Hf as He Hr _ _.
  - unfold Websocket.events_task_done, PyQueue.task_done. rewrite He.
    case_bool_decide; [lia |]. simpl.
    split; [| by split].
    unfold queue_ok, PyQueue.qsize in *. simpl. lia.
  - simpl. rewrite He, Hr. split; [| split; [done |]].
    + unfold queue_ok, PyQueue.qsize. lia.
    + intros e' [= <-]. eapply Hraise, Em.
Qed.

(** The end of a turn of the response consumer, once an item was taken. *)
Lemma responses_tail (m : io unit) (x : body_exit) w :
  preserves beyond_sockets m →
  (∀ w0 w' e, m w0 = (w', Raise e) → e = list_has_no_get) →
  PyQueue.maxsize (websocket_responses_queue w) = 100%Z →
  (PyQueue.qsize (websocket_responses_queue w) + 1
   ≤ PyQueue.unfinished_tasks (websocket_responses_queue w))%Z →
  (PyQueue.qsize (websocket_responses_queue w) ≤ 100)%Z →
  queue_ok
    (websocket_responses_queue
       (bind m (λ _, bind responses_task_done (λ _, ret x)) w).1) ∧
  processing_results_queue
    (bind m (λ _, bind responses_task_done (λ _, ret x)) w).1
  = processing_results_queue w ∧
  ∀ e, (bind m (λ _, bind responses_task_done (λ _, ret x)) w).2 = Raise e →
       e = list_has_no_get.
Proof.
  intros Hframe Hraise Hm Hu Hs. unfold bind.
  unfold PyQueue.qsize in Hu, Hs.
  pose proof (Hframe w) as Hf.
  destruct (m w) as [w1 [[] | e]] eqn:Em; simpl in Hf;
    unfold Websocket.beyond_sockets in Hf; injection Hf as He Hr _ _.
  - unfold Websocket.responses_task_done, PyQueue.task_done. rewrite Hr.
    case_bool_decide; [lia |]. simpl.
    split; [| by split].
    unfold queue_ok, PyQueue.qsize in *. simpl. lia.
  - simpl. rewrite He, Hr. split; [| split; [done |]].
    + unfold queue_ok, PyQueue.qsize. lia.
    + intros e' [= <-]. eapply Hraise, Em.
Qed.

Lemma process_queue_body_ok w :
  queues_ok w →
  queues_ok (process_queue_body w).1 ∧
  ∀ e, (process_queue_body w).2 = Raise e → e = list_has_no_get.
Proof.
  intros [(Hm & Hs & Hu) Hr].
  unfold Websocket.process_queue_body, PyQueue.get.
  unfold PyQueue.qsize in Hs, Hu.
  destruct (PyQueue.items (processing_results_queue w)) as [| item rest] eqn:E;
    simpl.
  { split; [| done]. split; [| done]. unfold queue_ok, PyQueue.qsize.
    rewrite E. done. }
  simpl in Hs, Hu. unfold Websocket.handle_event.
  edestruct (events_tail
               (if bool_decide (ev_type item = Some (VStr "attendance_update"))
                then broadcast_attendance_update
                       (default (PList []) (ev_data item))
                else ret tt) Fallthrough
               (set_processing_results_queue
                  (PyQueue.Queue
                     (PyQueue.maxsize (processing_results_queue w)) rest
                     (PyQueue.unfinished_tasks (processing_results_queue w)))
                  w))
    as (Hq & Hresp & Hraise).
  - case_bool_decide.
    + apply Consumers.broadcast_frame.
    + by apply Consumers.preserves_ret.
  - intros w0 w' e. case_bool_decide; [apply broadcast_raise | done].
  - done.
  - unfold PyQueue.qsize. simpl. lia.
  - unfold PyQueue.qsize. simpl. lia.
  - split; [| exact Hraise]. split; [exact Hq |]. by rewrite Hresp.
Qed.

Lemma process_websocket_responses_body_ok w :
  queues_ok w →
  queues_ok (process_websocket_responses_body w).1 ∧
  ∀ e, (process_websocket_responses_body w).2 = Raise e →
       e = list_has_no_get.
Proof.
  intros [He (Hm & Hs & Hu)].
  unfold Websocket.process_websocket_responses_body, PyQueue.get.
  unfold PyQueue.qsize in Hs, Hu.
  destruct (PyQueue.items (websocket_responses_queue w)) as [| item rest] eqn:E;
    simpl.
  { split; [| done]. split; [done |]. unfold queue_ok, PyQueue.qsize.
    rewrite E. done. }
  simpl in Hs, Hu.
  set (w0 := set_websocket_responses_queue _ w).
  assert (Hok : ∀ (m : io unit) (x : body_exit),
            preserves beyond_sockets m →
            (∀ w1 w' e, m w1 = (w', Raise e) → e = list_has_no_get) →
            queues_ok
              (bind m (λ _, bind responses_task_done (λ _, ret x)) w0).1 ∧
            ∀ e, (bind m (λ _, bind responses_task_done (λ _, ret x)) w0).2
                 = Raise e → e = list_has_no_get).
  { intros m x Hframe Hraise.
    destruct (responses_tail m x w0 Hframe Hraise) as (Hq & Hev & Hr).
    - done.
    - unfold PyQueue.qsize. simpl. lia.
    - unfold PyQueue.qsize. simpl. lia.
    - split; [| exact Hr]. split; [by rewrite Hev | exact Hq]. }
  destruct (active_connections w0 !! item_client_id item) as [ws|] eqn:Hws.
  - rewrite (Responses.handle_response_connected send_json item w0 ws Hws).
    apply Hok.
    + apply Consumers.preserves_bind; [apply Consumers.report_frame |].
      intros _. destruct (carried_updates item).
      * by apply Consumers.preserves_ret.
      * apply Consumers.broadcast_frame.
    + intros w1 w' e. unfold bind at 1. rewrite Responses.report_run.
      destruct (carried_updates item); [done | apply broadcast_raise].
  - rewrite (Responses.handle_response_absent send_json item w0 Hws).
    apply (Hok (ret tt) Continue); [by apply Consumers.preserves_ret | done].
Qed.

Lemma step_queues_ok w o w' :
  queues_ok w → server_step w o = Some w' → queues_ok w'.
Proof.
  intros Hok. destruct o as [future client_id | outcome client_id | |]; simpl.
  - destruct (PyDict.mem _ _); [done |]. by intros [= <-].
  - destruct (Websocket.handle_future_completion _ _ _) as [[w1 r]|] eqn:Hh;
      simpl; [| done].
    intros [= <-].
    apply Completion.handler_effect in Hh as (_ & _ & Hfull & Hr & He).
    destruct Hok as [(Hm & Hs & Hu) (Hm' & Hs' & Hu')].
    split.
    + destruct (completion_events outcome) as [| ev evs] eqn:Hev.
      * rewrite He. done.
      * destruct He as [Hfull' ->].
        apply not_true_iff_false in Hfull'.
        rewrite RelayQueue.full_iff in Hfull' by lia.
        assert (length (ev :: evs) = 1%nat) as Hlen.
        { unfold completion_events in Hev.
          destruct outcome as [r' | ?]; [| done].
          destruct (map with_ids (attendance_updates r')); [done |].
          by injection Hev as <- <-. }
        unfold queue_ok, PyQueue.qsize in *. simpl.
        rewrite length_app, Hlen. lia.
    + rewrite Hr. apply not_true_iff_false in Hfull.
      rewrite RelayQueue.full_iff in Hfull by lia.
      unfold queue_ok, PyQueue.qsize in *. simpl.
      rewrite length_app. simpl. lia.
  - intros [= <-]. rewrite Consumers.guarded_world.
    by apply process_queue_body_ok.
  - intros [= <-]. rewrite Consumers.guarded_world.
    by apply process_websocket_responses_body_ok.
Qed.

Lemma run_queues_ok ops : ∀ w w',
  queues_ok w → server_run ops w = Some w' → queues_ok w'.
Proof.
  induction ops as [| o rest IH]; intros w w' Hok; simpl.
  - by intros [= <-].
  - destruct (server_step w o) as [w1|] eqn:Hstep; simpl; [| done].
    apply IH. by eapply step_queues_ok.
Qed.

(** X11: From a state in which each relay queue has capacity 100, holds at
    most 100 items and has at least as many unfinished tasks as items (the state
    at start-up is one), the server reaches only such states.  So
    [task_done] never raises in a consumer, and the one exception a turn of
    either consumer can meet is the [AttributeError] of a broadcast that
    was handed a list. *)
Theorem queues_stay_in_order ops w0 w :
  queues_ok w0 →
  server_run ops w0 = Some w →
  queues_ok (initial_world (WebSocket := WebSocket)) ∧
  queues_ok w ∧
  (∀ e, (process_queue_body w).2 = Raise e → e = list_has_no_get) ∧
  (∀ e, (process_websocket_responses_body w).2 = Raise e →
        e = list_has_no_get).
Proof.
  intros Hok0 Hrun.
  assert (queues_ok w) as Hok by (by eapply run_queues_ok).
  split; [by vm_compute |]. split; [exact Hok |]. split.
  - by apply process_queue_body_ok.
  - by apply process_websocket_responses_body_ok.
Qed.

(** *** Nothing is taken back *)

Lemma advances_refl w : advances w w.
Proof. by split. Qed.

Lemma advances_trans w1 w2 w3 :
  advances w1 w2 → advances w2 w3 → advances w1 w3.
Proof.
  intros [Hd Hc] [Hd' Hc']. split; [by etrans | by etrans].
Qed.

(** Only the wire and the registry count. *)
Lemma advances_same w w1 w' :
  delivered w1 = delivered w →
  active_connections w1 = active_connections w →
  advances w1 w' → advances w w'.
Proof. unfold advances. by intros -> ->. Qed.

Lemma advances_to_same w w1 w' :
  delivered w' = delivered w1 →
  active_connections w' = active_connections w1 →
  advances w w1 → advances w w'.
Proof. unfold advances. by intros -> ->. Qed.

Lemma advancing_ret {A} (a : A) : advancing (ret a : io A).
Proof. intros w. apply advances_refl. Qed.

Lemma advancing_bind {A B} (m : io A) (k : A → io B) :
  advancing m → (∀ a, advancing (k a)) → advancing (bind m k).
Proof.
  intros Hm Hk w. unfold bind. specialize (Hm w).
  destruct (m w) as [w1 [a | e]]; simpl in *; [| exact Hm].
  eapply advances_trans; [exact Hm | apply Hk].
Qed.

Lemma advancing_send ws m client_id :
  advancing (_send_message_to_client ws m client_id).
Proof.
  intros w. unfold Websocket._send_message_to_client.
  destruct (send_json ws m); [| apply advances_refl ..].
  split; simpl; [by apply prefix_app_r | done].
Qed.

Lemma advancing_evict_unless success client_id :
  advancing (evict_unless success client_id).
Proof.
  intros w. unfold Websocket.evict_unless, modify. simpl.
  destruct success; [apply advances_refl |].
  split; simpl; [done |].
  rewrite Broadcaster.evict_delete. apply delete_subseteq.
Qed.

Lemma advancing_report ws client_id m text notification_type :
  advancing (report ws client_id m text notification_type).
Proof.
  apply advancing_bind; [apply advancing_send |]. intros success.
  apply advancing_bind; [apply advancing_send |]. intros _.
  apply advancing_evict_unless.
Qed.

Lemma advancing_broadcast attendance_data :
  advancing (broadcast_attendance_update attendance_data).
Proof.
  intros w. destruct attendance_data as [updates | d].
  - rewrite Consumers.broadcast_list. case_bool_decide; apply advances_refl.
  - destruct (Broadcaster.broadcast_dict send_json d w)
      as (w' & -> & Hreg & Hd & _). simpl. split.
    + rewrite Hd. by apply prefix_app_r.
    + apply map_subseteq_spec. intros client_id ws. rewrite Hreg.
      destruct (active_connections w !! client_id) as [ws'|]; simpl; [| done].
      by destruct (goes_through (send_json ws' _)); [intros [= <-] |].
Qed.

Lemma advancing_events_task_done : advancing events_task_done.
Proof.
  intros w. unfold Websocket.events_task_done.
  destruct (PyQueue.task_done _); simpl; [by split | apply advances_refl].
Qed.

Lemma advancing_responses_task_done : advancing responses_task_done.
Proof.
  intros w. unfold Websocket.responses_task_done.
  destruct (PyQueue.task_done _); simpl; [by split | apply advances_refl].
Qed.

Lemma advancing_process_queue_body : advancing process_queue_body.
Proof.
  intros w. unfold Websocket.process_queue_body.
  destruct (PyQueue.get _) as [[item q]|]; [| apply advances_refl].
  apply (advances_same w (set_processing_results_queue q w)); [done .. |].
  apply advancing_bind.
  - case_bool_decide; [apply advancing_broadcast | apply advancing_ret].
  - intros _. apply advancing_bind; [apply advancing_events_task_done |].
    intros _. apply advancing_ret.
Qed.

Lemma advancing_process_websocket_responses_body :
  advancing process_websocket_responses_body.
Proof.
  intros w. unfold Websocket.process_websocket_responses_body.
  destruct (PyQueue.get _) as [[item q]|]; [| apply advances_refl].
  apply (advances_same w (set_websocket_responses_queue q w)); [done .. |].
  set (w0 := set_websocket_responses_queue q w).
  assert (Hdone : ∀ x : body_exit,
            advancing (bind responses_task_done (λ _, ret x))).
  { intros x. apply advancing_bind; [apply advancing_responses_task_done |].
    intros _. apply advancing_ret. }
  destruct (active_connections w0 !! item_client_id item) as [ws|] eqn:Hws.
  - rewrite (Responses.handle_response_connected send_json item w0 ws Hws).
    apply advancing_bind; [| intros _; apply Hdone].
    apply advancing_bind; [apply advancing_report |]. intros _.
    destruct (carried_updates item);
      [apply advancing_ret | apply advancing_broadcast].
  - rewrite (Responses.handle_response_absent send_json item w0 Hws).
    apply Hdone.
Qed.

Lemma step_advances w o w' : server_step w o = Some w' → advances w w'.
Proof.
  destruct o as [future client_id | outcome client_id | |]; simpl.
  - destruct (PyDict.mem _ _); [done |]. intros [= <-]. by split.
  - destruct (Websocket.handle_future_completion _ _ _) as [[w1 r]|] eqn:Hh;
      simpl; [| done].
    intros [= <-].
    apply Completion.handler_effect in Hh as (Ha & Hd & _).
    apply (advances_to_same w w w1); [done .. | apply advances_refl].
  - intros [= <-]. rewrite Consumers.guarded_world.
    apply advancing_process_queue_body.
  - intros [= <-]. rewrite Consumers.guarded_world.
    apply advancing_process_websocket_responses_body.
Qed.

(** X12: Whatever the server does, by submissions, completions and turns of
    the two consumers, what was written to the sockets stays written, in the
    order it was written, and the registry of connections only loses
    entries: none of these functions registers a client or gives an evicted
    client its socket back. *)
Theorem never_retracts ops : ∀ w w',
  server_run ops w = Some w' →
  delivered w `prefix_of` delivered w' ∧
  ∀ client_id ws,
    active_connections w' !! client_id = Some ws →
    active_connections w !! client_id = Some ws.
Proof.
  assert (Hrun : ∀ w w', server_run ops w = Some w' → advances w w').
  { induction ops as [| o rest IH]; intros w w'; simpl.
    - intros [= <-]. apply advances_refl.
    - destruct (server_step w o) as [w1|] eqn:Hstep; simpl; [| done].
      intros Hrest. eapply advances_trans; [by eapply step_advances |].
      by apply IH. }
  intros w w' [Hd Hc]%Hrun. split; [exact Hd |].
  intros client_id ws. by apply map_subseteq_spec.
Qed.

(** *** Updates of completed tasks *)

Lemma completion_events_carry_lists outcome :
  Forall carries_list (completion_events outcome).
Proof.
  unfold completion_events. destruct outcome as [r | ?]; [| done].
  destruct (map with_ids (attendance_updates r)); [done |].
  by apply Forall_singleton.
Qed.

Lemma answer_has_no_update ws item :
  Forall (λ p, is_attendance_update p.2 = false) (answer send_json ws item).
Proof.
  unfold answer. apply Forall_forall. intros p [_ Hin]%list_elem_of_filter.
  apply elem_of_cons in Hin as [-> | Hin]; simpl.
  - destruct item as [? ? | ? r]; simpl; [done |].
    destruct (processed_users r); [| done]. by case_bool_decide.
  - by apply list_elem_of_singleton in Hin as ->.
Qed.

(** A turn of the event consumer on an event that carries a list writes to
    no socket. *)
Lemma handle_list_event item w :
  carries_list item → delivered (handle_event item w).1 = delivered w.
Proof.
  intros Hlist. unfold Websocket.handle_event, bind.
  assert (∃ updates, default (PList []) (ev_data item) = PList updates)
    as [updates ->].
  { unfold carries_list in Hlist.
    destruct (ev_data item) as [[updates | d] |]; simpl; [| done |];
      by eexists. }
  case_bool_decide; simpl.
  - rewrite Consumers.broadcast_list. case_bool_decide; simpl; [| done].
    unfold Websocket.events_task_done.
    by destruct (PyQueue.task_done _).
  - unfold Websocket.events_task_done.
    by destruct (PyQueue.task_done _).
Qed.

Lemma step_sends_no_update w o w' :
  Forall carries_list (PyQueue.items (processing_results_queue w)) →
  server_step w o = Some w' →
  Forall carries_list (PyQueue.items (processing_results_queue w')) ∧
  ∃ sent,
    delivered w' = delivered w ++ sent ∧
    Forall (λ p, is_attendance_update p.2 = false) sent.
Proof.
  intros Hlists.
  destruct o as [future client_id | outcome client_id | |]; simpl.
  - destruct (PyDict.mem _ _); [done |]. intros [= <-]. simpl.
    split; [done |]. exists []. by rewrite app_nil_r.
  - destruct (Websocket.handle_future_completion _ _ _) as [[w1 r]|] eqn:Hh;
      simpl; [| done].
    intros [= <-].
    apply Completion.completion_effect in Hh as (Hev & Hd). split.
    + rewrite Hev. apply Forall_app. split; [done |].
      apply completion_events_carry_lists.
    + exists []. by rewrite app_nil_r.
  - intros [= <-]. rewrite Consumers.guarded_world. split.
    + pose proof (Consumers.process_queue_body_frame send_json w) as Hf.
      unfold Websocket.beyond_events in Hf. injection Hf as _ _ _ _ ->.
      destruct (PyQueue.items (processing_results_queue w)); [done |].
      by eapply Forall_cons_1.
    + exists []. rewrite app_nil_r.
      unfold Websocket.process_queue_body, PyQueue.get.
      destruct (PyQueue.items (processing_results_queue w))
        as [| item rest] eqn:E; [done |].
      rewrite handle_list_event; [done |].
      by apply Forall_cons_1 in Hlists as [? _].
  - intros [= <-]. rewrite Consumers.guarded_world. split.
    + pose proof (Consumers.process_websocket_responses_body_frame
                    send_json w) as Hf.
      unfold Websocket.beyond_responses in Hf. by injection Hf as -> _ _ _ _.
    + unfold Websocket.process_websocket_responses_body.
      destruct (PyQueue.get _) as [[item q]|];
        [| exists []; by rewrite app_nil_r].
      set (w0 := set_websocket_responses_queue q w).
      destruct (active_connections w0 !! item_client_id item) as [ws|] eqn:Hws.
      * destruct (Completion.answer_sent send_json item w0 ws Hws)
          as [Hsent _].
        exists (answer send_json ws item). split; [exact Hsent |].
        apply answer_has_no_update.
      * rewrite (Responses.handle_response_absent send_json item w0 Hws).
        exists []. rewrite app_nil_r. unfold bind.
        unfold Websocket.responses_task_done.
        by destruct (PyQueue.task_done _).
Qed.

(** X13: The events the completion handler enqueues carry a list of
    updates, and the event consumer hands that list to a broadcast that can only
    send a dict.  So, from a state whose event queue holds no dict, nothing
    the server does sends an attendance update to any socket: the updates
    recorded by completed tasks never reach a client. *)
Theorem task_updates_never_delivered ops : ∀ w0 w,
  Forall carries_list (PyQueue.items (processing_results_queue w0)) →
  server_run ops w0 = Some w →
  Forall carries_list (PyQueue.items (processing_results_queue w)) ∧
  ∃ sent,
    delivered w = delivered w0 ++ sent ∧
    Forall (λ p, is_attendance_update p.2 = false) sent.
Proof.
  induction ops as [| o rest IH]; intros w0 w Hlists; simpl.
  - intros [= <-]. split; [done |]. exists []. by rewrite app_nil_r.
  - destruct (server_step w0 o) as [w1|] eqn:Hstep; simpl; [| done].
    intros Hrest.
    destruct (step_sends_no_update w0 o w1 Hlists Hstep)
      as (Hlists1 & sent1 & Hd1 & Hno1).
    destruct (IH w1 w Hlists1 Hrest) as (Hlists' & sent & Hd & Hno).
    split; [exact Hlists' |]. exists (sent1 ++ sent).
    split; [by rewrite Hd, Hd1, app_assoc | by apply Forall_app].
Qed.

End Invariants.

(** *** Sends that nobody awaits *)

Section NotAwaited.

Context {WebSocket : Type}.

Local Abbreviation world := (Websocket.world (WebSocket := WebSocket)).
Local Abbreviation io := (Websocket.io (WebSocket := WebSocket)).
Local Abbreviation send_json :=
  (fastapi_send_json (WebSocket := WebSocket)).
Local Abbreviation events_task_done :=
  (Websocket.events_task_done (WebSocket := WebSocket)).
Local Abbreviation responses_task_done :=
  (Websocket.responses_task_done (WebSocket := WebSocket)).
Local Abbreviation server_step := (Websocket.server_step send_json).
Local Abbreviation server_run := (Websocket.server_run send_json).

Implicit Types (w : world).

Lemma untouched_trans w1 w2 w3 :
  untouched w1 w2 → untouched w2 w3 → untouched w1 w3.
Proof. intros [Hd Ha] [Hd' Ha']. split; congruence. Qed.

Lemma untouched_bind {A B} (m : io A) (k : A → io B) w :
  untouched w (m w).1 → (∀ a w1, untouched w1 (k a w1).1) →
  untouched w (bind m k w).1.
Proof.
  intros Hm Hk. unfold bind. destruct (m w) as [w1 [a | e]]; simpl in *.
  - eapply untouched_trans; [exact Hm | apply Hk].
  - exact Hm.
Qed.

Lemma broadcast_untouched attendance_data w :
  untouched w
    (Websocket.broadcast_attendance_update send_json attendance_data w).1.
Proof.
  destruct attendance_data as [updates | d].
  - rewrite Consumers.broadcast_list. by case_bool_decide.
  - by destruct (Broadcaster.broadcast_dict_not_awaited d w)
      as (w' & -> & Hd & Ha & _).
Qed.

Lemma events_task_done_untouched w : untouched w (events_task_done w).1.
Proof.
  unfold Websocket.events_task_done. by destruct (PyQueue.task_done _).
Qed.

Lemma responses_task_done_untouched w :
  untouched w (responses_task_done w).1.
Proof.
  unfold Websocket.responses_task_done. by destruct (PyQueue.task_done _).
Qed.

Lemma handle_event_untouched item w :
  untouched w (Websocket.handle_event send_json item w).1.
Proof.
  unfold Websocket.handle_event. apply untouched_bind.
  - case_bool_decide; [apply broadcast_untouched | done].
  - intros _ w1. apply untouched_bind; [apply events_task_done_untouched |].
    by intros.
Qed.

Lemma handle_response_untouched item w :
  untouched w (Websocket.handle_response send_json item w).1.
Proof.
  assert (∀ (x : body_exit) w1,
            untouched w1 (bind responses_task_done (λ _, ret x) w1).1)
    as Hdone.
  { intros x w1. apply untouched_bind;
      [apply responses_task_done_untouched | by intros]. }
  destruct (active_connections w !! item_client_id item) as [ws|] eqn:Hws.
  - rewrite (Responses.handle_response_connected send_json item w ws Hws).
    apply untouched_bind; [| intros _; apply Hdone].
    apply untouched_bind.
    + rewrite Responses.report_run. simpl. split; [| done].
      simpl. by rewrite app_nil_r.
    + intros _ w1. destruct (carried_updates item);
        [done | apply broadcast_untouched].
  - rewrite (Responses.handle_response_absent send_json item w Hws).
    apply Hdone.
Qed.

Lemma step_untouched w o w' : server_step w o = Some w' → untouched w w'.
Proof.
  destruct o as [future client_id | outcome client_id | |]; simpl.
  - destruct (PyDict.mem _ _); [done |]. by intros [= <-].
  - destruct (Websocket.handle_future_completion _ _ _) as [[w1 r]|] eqn:Hh;
      simpl; [| done].
    intros [= <-].
    by apply Completion.handler_effect in Hh as (Ha & Hd & _).
  - intros [= <-]. rewrite Consumers.guarded_world.
    unfold Websocket.process_queue_body.
    destruct (PyQueue.get _) as [[item q]|]; [| done].
    by destruct (handle_event_untouched item
                   (set_processing_results_queue q w)).
  - intros [= <-]. rewrite Consumers.guarded_world.
    unfold Websocket.process_websocket_responses_body.
    destruct (PyQueue.get _) as [[item q]|]; [| done].
    by destruct (handle_response_untouched item
                   (set_websocket_responses_queue q w)).
Qed.

(** X16: On [fastapi.WebSocket], whose [send_json] is a coroutine function
    that the code calls in a worker thread and never awaits, the server
    never writes to a socket and never removes a connection, as long as the
    thread pool runs the calls: whatever sequence of submissions,
    completions and consumer turns runs, the wire and the registry are as
    they were before it. *)
Theorem nothing_reaches_a_socket ops : ∀ w w',
  server_run ops w = Some w' →
  delivered w' = delivered w ∧ active_connections w' = active_connections w.
Proof.
  induction ops as [| o rest IH]; intros w w'; simpl.
  - by intros [= <-].
  - destruct (server_step w o) as [w1|] eqn:Hstep; simpl; [| done].
    intros Hrest. apply step_untouched in Hstep.
    apply IH in Hrest. by eapply untouched_trans.
Qed.

End NotAwaited.

(** From [jammed], the event consumer meets the list, a task completes
    and the response consumer answers: the queues stay in good order, with
    one unfinished task more than items in the event queue. *)
Lemma queues_stay_in_order_witness :
  ∃ w,
    Websocket.server_run flaky
      [PollEvents; Complete (inl (TaskResult [alice] [checked_in] [] 0)) "c1";
       PollResponses] jammed = Some w ∧
    PyQueue.qsize (processing_results_queue w) = 2%Z ∧
    PyQueue.unfinished_tasks (processing_results_queue w) = 3%Z ∧
    (queues_ok w ∧
     (∀ e, (Websocket.process_queue_body flaky w).2 = Raise e →
           e = list_has_no_get) ∧
     (∀ e, (Websocket.process_websocket_responses_body flaky w).2 = Raise e →
           e = list_has_no_get)).
Proof.
  eexists. split; [vm_compute; reflexivity |].
  split; [vm_compute; reflexivity |]. split; [vm_compute; reflexivity |].
  apply (queues_stay_in_order flaky
           [PollEvents;
            Complete (inl (TaskResult [alice] [checked_in] [] 0)) "c1";
            PollResponses] jammed).
  - vm_compute. repeat split; discriminate.
  - vm_compute. reflexivity.
Defined.

(** On the writing transport [flaky], a broadcast evicts the broken client
    ["c2"] of [three_clients]; the two working clients keep their sockets
    and the message stays on the wire. *)
Lemma never_retracts_witness :
  ∃ w',
    Websocket.server_run flaky [PollEvents; PollResponses]
      (set_processing_results_queue
         (PyQueue.Queue 100
            [EventItem (Some (VStr "attendance_update"))
               (Some (PDict deletion))] 1) three_clients) = Some w' ∧
    active_connections w' !! "c2" = None ∧
    ([] `prefix_of` delivered w' ∧
     ∀ client_id ws,
       active_connections w' !! client_id = Some ws →
       active_connections three_clients !! client_id = Some ws).
Proof.
  eexists. split; [vm_compute; reflexivity |].
  split; [vm_compute; reflexivity |].
  apply (never_retracts flaky [PollEvents; PollResponses]
           (set_processing_results_queue
              (PyQueue.Queue 100
                 [EventItem (Some (VStr "attendance_update"))
                    (Some (PDict deletion))] 1) three_clients)).
  vm_compute. reflexivity.
Defined.

(** A task that recorded the attendance of [alice] completes for ["c1"];
    both consumers take a turn.  On the writing transport [flaky] the
    client is told who was recognised; the event with the update is taken
    off the queue and nothing is sent for it. *)
Lemma task_updates_never_delivered_witness :
  ∃ w,
    Websocket.server_run flaky
      [Complete (inl (TaskResult [alice] [checked_in] [] 0)) "c1";
       PollResponses; PollEvents] three_clients = Some w ∧
    delivered w
    = [(1%nat, MultipleUsers [alice]);
       (1%nat, Notification "success" "Face detected: Alice (ID: EMP-1)")] ∧
    PyQueue.items (processing_results_queue w) = [] ∧
    (Forall carries_list (PyQueue.items (processing_results_queue w)) ∧
     ∃ sent,
       delivered w = delivered three_clients ++ sent ∧
       Forall (λ p, is_attendance_update p.2 = false) sent).
Proof.
  eexists. split; [vm_compute; reflexivity |].
  split; [vm_compute; reflexivity |]. split; [vm_compute; reflexivity |].
  apply (task_updates_never_delivered flaky
           [Complete (inl (TaskResult [alice] [checked_in] [] 0)) "c1";
            PollResponses; PollEvents] three_clients).
  - apply Forall_nil_2.
  - vm_compute. reflexivity.
Defined.

(** Three registered [fastapi.WebSocket]s; two tasks complete for ["c1"],
    one that failed and one that recognised [alice], and both consumers
    take their turns: the queues are worked off, nothing is on the wire and
    the three are still registered. *)
Lemma nothing_reaches_a_socket_witness :
  ∃ w',
    Websocket.server_run fastapi_send_json
      [Complete (inr ("ValueError", "no image")) "c1"; PollResponses;
       Complete (inl (TaskResult [alice] [checked_in] [] 0)) "c1";
       PollResponses; PollEvents] three_clients = Some w' ∧
    PyQueue.items (websocket_responses_queue w') = [] ∧
    PyQueue.items (processing_results_queue w') = [] ∧
    (delivered w' = delivered three_clients ∧
     active_connections w' = active_connections three_clients).
Proof.
  eexists. split; [vm_compute; reflexivity |].
  split; [vm_compute; reflexivity |]. split; [vm_compute; reflexivity |].
  apply (nothing_reaches_a_socket
           [Complete (inr ("ValueError", "no image")) "c1"; PollResponses;
            Complete (inl (TaskResult [alice] [checked_in] [] 0)) "c1";
            PollResponses; PollEvents] three_clients).
  vm_compute. reflexivity.
Defined.

End Reachable.

(** ** The rows of a refreshed directory *)
Module DirectoryRows.
Import Dependencies Fixtures.

(** One row without its ["objectId"] makes the comprehension raise. *)
Lemma by_object_id_raises employees : ∀ acc row,
  row ∈ employees → PyDict.get row "objectId" = None →
  by_object_id employees acc = Raise (PyException "KeyError" "'objectId'").
Proof.
  induction employees as [| employee rest IH]; intros acc row Hin Hno.
  - by apply elem_of_nil in Hin.
  - simpl. apply elem_of_cons in Hin as [<- | Hin]; [by rewrite Hno |].
    destruct (PyDict.get employee "objectId"); [by eapply IH | done].
Qed.

Lemma by_object_id_rows employees : ∀ acc fresh,
  by_object_id employees acc = Ok fresh →
  ∀ row, row ∈ employees → is_Some (PyDict.get row "objectId").
Proof.
  intros acc fresh Hok row Hin.
  destruct (PyDict.get row "objectId") eqn:Hget; [done |].
  by rewrite (by_object_id_raises employees acc row Hin Hget) in Hok.
Qed.

Lemma get_set_item_ne {V} (d : list (pyval * V)) k k' v :
  dict_key k ≠ dict_key k' →
  get_item (set_item d k v) k' = get_item d k'.
Proof.
  intros Hne. induction d as [| [k0 v0] rest IH]; simpl.
  - by rewrite decide_False.
  - destruct (decide (dict_key k0 = dict_key k)) as [Heq | Hne0]; simpl.
    + rewrite !decide_False; [done | congruence | congruence].
    + destruct (decide (dict_key k0 = dict_key k')); [done | exact IH].
Qed.

(** Under each identifier the dict holds the last row that carries it,
    identifiers being told apart as a dict tells keys apart. *)
Lemma by_object_id_get employees : ∀ acc fresh object_id,
  by_object_id employees acc = Ok fresh →
  get_item fresh object_id
  = match last (filter (λ row, dict_key <$> PyDict.get row "objectId"
                               = Some (dict_key object_id))
                  employees) with
    | Some row => Some row
    | None => get_item acc object_id
    end.
Proof.
  induction employees as [| employee rest IH]; intros acc fresh object_id;
    simpl.
  - by intros [= <-].
  - destruct (PyDict.get employee "objectId") as [id|] eqn:Hid; [| done].
    intros Hok. rewrite (IH _ _ object_id Hok). rewrite filter_cons.
    destruct (decide (dict_key <$> PyDict.get employee "objectId"
                      = Some (dict_key object_id)))
      as [He | Hne]; rewrite Hid in *; simpl in *.
    + injection He as He. rewrite last_cons.
      destruct (last _) as [row |]; [done |].
      clear IH Hok. induction acc as [| [k0 v0] acc IHacc]; simpl.
      * by rewrite decide_True.
      * destruct (decide (dict_key k0 = dict_key id)) as [Heq | Hne0]; simpl.
        -- rewrite decide_True; [done | congruence].
        -- rewrite decide_False; [exact IHacc | congruence].
    + destruct (last _) as [row |]; [done |].
      apply get_set_item_ne. congruence.
Qed.

(** X14: A row of the store that lacks its ["objectId"] makes a due
    refresh raise [KeyError] after the snapshot was cleared: the snapshot is left
    empty and the timestamp as it was (a failing query, in contrast, leaves
    the snapshot alone), so the next read, at whatever time, queries the
    store again. *)
Theorem malformed_row_empties_cache current_time employees row d :
  refresh_due current_time d = true →
  row ∈ employees → PyDict.get row "objectId" = None →
  get_cached_employees current_time (Ok employees) d
  = (Directory [] (employee_cache_last_updated d) (S (query_calls d)),
     Raise (PyException "KeyError" "'objectId'")) ∧
  ∀ t' store',
    query_calls
      (get_cached_employees t' store'
         (get_cached_employees current_time (Ok employees) d).1).1
    = S (S (query_calls d)).
Proof.
  intros Hdue Hin Hno.
  assert (get_cached_employees current_time (Ok employees) d
          = (Directory [] (employee_cache_last_updated d) (S (query_calls d)),
             Raise (PyException "KeyError" "'objectId'"))) as Hfail.
  { unfold get_cached_employees. rewrite Hdue. simpl.
    by rewrite (by_object_id_raises employees [] row Hin Hno). }
  split; [exact Hfail |]. intros t' store'. rewrite Hfail. simpl.
  unfold get_cached_employees, refresh_due. simpl.
  rewrite orb_true_r. destruct store' as [employees' | e']; [| done].
  by destruct (by_object_id employees' []).
Qed.


(** A stale directory that holds [alice] is refreshed from a store with a
    row that has no ["objectId"]. *)
Lemma malformed_row_empties_cache_witness :
  get_cached_employees 1000 (Ok [bob; [("name", VStr "Eve")]]) stale_directory
  = (Directory [] 100 2, Raise (PyException "KeyError" "'objectId'")) ∧
  query_calls
    (get_cached_employees 1001 (Ok [alice])
       (get_cached_employees 1000 (Ok [bob; [("name", VStr "Eve")]])
          stale_directory).1).1 = 3.
Proof.
  destruct (malformed_row_empties_cache 1000
              [bob; [("name", VStr "Eve")]] [("name", VStr "Eve")]
              stale_directory) as [Hfail Hnext].
  - reflexivity.
  - apply elem_of_cons. right. apply elem_of_cons. by left.
  - reflexivity.
  - split; [exact Hfail | apply Hnext].
Defined.


End DirectoryRows.
